(** * KITTI dataset loaders (utils/data.py): a shallow embedding

    The development follows the Python module top to bottom:
    exceptions and results, Python strings ([str.split]), PIL images and
    numpy arrays ([generate_mask]), float tensors and the torchvision
    [Normalize] stage, the dataset containers, scikit-learn's
    [train_test_split], and the two loaders over a read-only file system. *)

From Stdlib Require Import ZArith QArith Qround Lia List Bool Permutation.
From Stdlib Require Import Strings.String Strings.Ascii.
From Stdlib Require Import Floats.SpecFloat.
From stdpp Require Import base option list gmap strings.

Local Open Scope string_scope.
Local Open Scope list_scope.

(** ** Exceptions and results *)

(** The exceptions the module and the library calls it makes can raise.
    [TypeError] carries its message: the loaders raise it themselves. *)
Inductive exn : Type :=
  | TypeError (msg : string)
  | IndexError
  | ValueError
  | RuntimeError
  | OSError.

Inductive result (A : Type) : Type :=
  | Ok (a : A)
  | Err (e : exn).
Arguments Ok {A} a.
Arguments Err {A} e.

Definition rbind {A B} (r : result A) (k : A -> result B) : result B :=
  match r with
  | Ok a => k a
  | Err e => Err e
  end.

Definition rmap {A B} (f : A -> B) (r : result A) : result B :=
  rbind r (fun a => Ok (f a)).

(** ** Python strings: [str.split(sep)] *)

Module PyStr.

Fixpoint drop (n : nat) (s : string) : string :=
  match n, s with
  | O, _ => s
  | S _, EmptyString => EmptyString
  | S n', String _ s' => drop n' s'
  end.

(** All but the last character. *)
Fixpoint init (s : string) : string :=
  match s with
  | EmptyString => EmptyString
  | String c EmptyString => EmptyString
  | String c s' => String c (init s')
  end.

(** Does [sep] occur somewhere in [s]? *)
Fixpoint occurs (sep s : string) : bool :=
  String.prefix sep s ||
  match s with
  | EmptyString => false
  | String _ s' => occurs sep s'
  end.

Definition cons_head (c : ascii) (ps : list string) : list string :=
  match ps with
  | [] => [String c EmptyString]
  | p :: ps' => String c p :: ps'
  end.

(** Left-to-right scan for the leftmost, non-overlapping occurrences of a
    non-empty separator; [fuel] bounds the number of scan steps. *)
Fixpoint split_go (fuel : nat) (sep s : string) : list string :=
  match fuel with
  | O => [s]
  | S fuel' =>
      if String.prefix sep s
      then EmptyString :: split_go fuel' sep (drop (String.length sep) s)
      else match s with
           | EmptyString => [EmptyString]
           | String c s' => cons_head c (split_go fuel' sep s')
           end
  end.

(** One more step than characters is always enough. *)
Definition split_list (sep s : string) : list string :=
  split_go (S (String.length s)) sep s.

(** [s.split(sep)]: an empty separator is a [ValueError]. *)
Definition split (sep s : string) : result (list string) :=
  match sep with
  | EmptyString => Err ValueError
  | _ => Ok (split_list sep s)
  end.

(** [sep.join(parts)] *)
Fixpoint join (sep : string) (parts : list string) : string :=
  match parts with
  | [] => EmptyString
  | [p] => p
  | p :: ps => p +:+ sep +:+ join sep ps
  end.

End PyStr.

(** Python list indexing [l[i]] with a non-negative literal index. *)
Definition py_index {A} (l : list A) (i : nat) : result A :=
  match l !! i with
  | Some a => Ok a
  | None => Err IndexError
  end.

(** ** File names of the depth-completion training set
    (load_kitti_depth_dataset, lines 123-134) *)

Definition image_token : string := "_image_".

(** [filename = filename.name.split("_image_")]
    [file_prefix, file_suffix = filename[0], f"{filename[1]}_image_{filename[2]}"] *)
Definition file_prefix_suffix (name : string) : result (string * string) :=
  rbind (PyStr.split image_token name) (fun filename =>
  rbind (py_index filename 0) (fun f0 =>
  rbind (py_index filename 1) (fun f1 =>
  rbind (py_index filename 2) (fun f2 =>
  Ok (f0, f1 +:+ "_image_" +:+ f2))))).

Definition velodyne_path (file_prefix file_suffix : string) : string :=
  "val_selection_cropped/velodyne_raw/" +:+ file_prefix +:+ "_velodyne_raw_" +:+ file_suffix.

Definition groundtruth_path (file_prefix file_suffix : string) : string :=
  "val_selection_cropped/groundtruth_depth/" +:+ file_prefix +:+ "_groundtruth_depth_" +:+ file_suffix.


(** ** PIL images and numpy arrays (generate_mask, lines 41-45) *)

(** Integer image modes of PIL: bilevel, 8-bit grey, palette, 16-bit
    unsigned, 32-bit signed, and 8-bit RGB. Mode "F" (float pixels) is a
    separate type below: the loaders call [generate_mask] before
    [convert("F")]. *)
Inductive mode : Type := Mode1 | ModeL | ModeP | ModeI16 | ModeI | ModeRGB.

Inductive dtype : Type := Bool_ | UInt8 | UInt16 | Int32.

Record Image : Type := mkImage {
  im_mode : mode;
  im_height : nat;
  im_width : nat;
  im_data : list Z          (* row-major, channel-interleaved *)
}.

Record ndarray : Type := mkArray {
  a_dtype : dtype;
  a_shape : list nat;
  a_data : list Z
}.

#[global] Instance mode_eq_dec : EqDecision mode.
Proof. solve_decision. Defined.
#[global] Instance dtype_eq_dec : EqDecision dtype.
Proof. solve_decision. Defined.
#[global] Instance Image_eq_dec : EqDecision Image.
Proof. solve_decision. Defined.
#[global] Instance ndarray_eq_dec : EqDecision ndarray.
Proof. solve_decision. Defined.

Definition dtype_of_mode (m : mode) : dtype :=
  match m with
  | Mode1 => Bool_
  | ModeL | ModeP | ModeRGB => UInt8
  | ModeI16 => UInt16
  | ModeI => Int32
  end.

Definition channels (m : mode) : nat :=
  match m with ModeRGB => 3 | _ => 1 end.

(** Range of a pixel value of each element type. *)
Definition in_range (d : dtype) (v : Z) : bool :=
  match d with
  | Bool_ => (0 <=? v)%Z && (v <=? 1)%Z
  | UInt8 => (0 <=? v)%Z && (v <=? 255)%Z
  | UInt16 => (0 <=? v)%Z && (v <=? 65535)%Z
  | Int32 => (-2147483648 <=? v)%Z && (v <=? 2147483647)%Z
  end.

(** A well-formed image: as many values as its size and mode require, each
    in the range of its element type. *)
Definition image_wf (im : Image) : bool :=
  (length (im_data im) =? im_height im * im_width im * channels (im_mode im))%nat
  && forallb (in_range (dtype_of_mode (im_mode im))) (im_data im).

(** [np.array(image)]: a new array holding a copy of the pixels. *)
Definition np_array (im : Image) : ndarray :=
  {| a_dtype := dtype_of_mode (im_mode im);
     a_shape := match im_mode im with
                | ModeRGB => [im_height im; im_width im; 3%nat]
                | _ => [im_height im; im_width im]
                end;
     a_data := im_data im |}.

(** [mask[mask > 0.0] = 1.0]: the elements greater than zero become one
    (cast to the array's element type), the others keep their value. *)
Definition threshold (v : Z) : Z := if (0 <? v)%Z then 1%Z else v.

(** The mask value in the words of the specification: one for a pixel
    greater than zero, zero for every other pixel. *)
Definition spec_mask_value (v : Z) : Z := if (0 <? v)%Z then 1%Z else 0%Z.

Definition assign_positive (a : ndarray) : ndarray :=
  {| a_dtype := a_dtype a; a_shape := a_shape a; a_data := map threshold (a_data a) |}.

(** [Image.fromarray(a)]: the mode follows the shape and element type. *)
Definition fromarray (a : ndarray) : result Image :=
  match a_shape a, a_dtype a with
  | [h; w], Bool_ => Ok (mkImage Mode1 h w (a_data a))
  | [h; w], UInt8 => Ok (mkImage ModeL h w (a_data a))
  | [h; w], UInt16 => Ok (mkImage ModeI16 h w (a_data a))
  | [h; w], Int32 => Ok (mkImage ModeI h w (a_data a))
  | [h; w; 3%nat], UInt8 => Ok (mkImage ModeRGB h w (a_data a))
  | _, _ => Err (TypeError "Cannot handle this data type")
  end.

(** [def generate_mask(image)] *)
Definition generate_mask (image : Image) : result Image :=
  let mask := np_array image in
  let mask := assign_positive mask in
  fromarray mask.

(** *** The same function over a store of objects

    Images and arrays are mutable Python objects. The store maps
    references to objects; [np.array] allocates, the masked assignment
    updates the array in place, [Image.fromarray] allocates. *)
Module Store.

Inductive object : Type :=
  | ObjImage (im : Image)
  | ObjArray (a : ndarray).

Abbreviation ref := nat.
Abbreviation store := (gmap nat object).

Definition alloc (o : object) (h : store) : ref * store :=
  let l := fresh (dom h) in (l, <[l := o]> h).

(** A reference that does not hold the expected kind of object cannot
    come from the loaders; it is reported as a [RuntimeError]. *)
Definition np_array_st (l : ref) (h : store) : result (ref * store) :=
  match h !! l with
  | Some (ObjImage im) => Ok (alloc (ObjArray (np_array im)) h)
  | _ => Err RuntimeError
  end.

Definition assign_positive_st (a : ref) (h : store) : result store :=
  match h !! a with
  | Some (ObjArray arr) => Ok (<[a := ObjArray (assign_positive arr)]> h)
  | _ => Err RuntimeError
  end.

Definition fromarray_st (a : ref) (h : store) : result (ref * store) :=
  match h !! a with
  | Some (ObjArray arr) =>
      rbind (fromarray arr) (fun im => Ok (alloc (ObjImage im) h))
  | _ => Err RuntimeError
  end.

Definition generate_mask_st (image : ref) (h : store) : result (ref * store) :=
  rbind (np_array_st image h) (fun '(mask, h1) =>
  rbind (assign_positive_st mask h1) (fun h2 =>
  fromarray_st mask h2)).

End Store.

(** ** Float tensors *)

(** torch's default element type is IEEE 754 binary32: 24 bits of
    precision, exponents below 128. *)
Definition f32_prec : Z := 24.
Definition f32_emax : Z := 128.

Definition f32_valid (x : spec_float) : bool := valid_binary f32_prec f32_emax x.
Definition f32_sub : spec_float -> spec_float -> spec_float := SFsub f32_prec f32_emax.
Definition f32_div : spec_float -> spec_float -> spec_float := SFdiv f32_prec f32_emax.

Definition f32_zero : spec_float := S754_zero false.
Definition f32_one : spec_float := S754_finite false 8388608 (-23).

Record Tensor : Type := mkTensor {
  t_shape : list nat;
  t_data : list spec_float     (* row-major *)
}.

Definition tensor_valid (t : Tensor) : Prop :=
  Forall (fun x => f32_valid x = true) (t_data t).

(** [torch.zeros_like(x)] *)
Definition zeros_like (x : Tensor) : Tensor :=
  {| t_shape := t_shape x; t_data := map (fun _ => f32_zero) (t_data x) |}.

Definition shape_eqb (s1 s2 : list nat) : bool := bool_decide (s1 = s2).

(** [torch.stack(ts)]: a new leading dimension; the list must be non-empty
    and all tensors of one shape. *)
Definition stack (ts : list Tensor) : result Tensor :=
  match ts with
  | [] => Err RuntimeError
  | t0 :: _ =>
      if forallb (fun u => shape_eqb (t_shape u) (t_shape t0)) ts
      then Ok {| t_shape := length ts :: t_shape t0;
                 t_data := concat (map t_data ts) |}
      else Err RuntimeError
  end.

(** [len(t)]: the size of the first dimension. *)
Definition tensor_len (t : Tensor) : result nat :=
  match t_shape t with
  | n :: _ => Ok n
  | [] => Err (TypeError "len() of a 0-d tensor")
  end.

Definition numel (shape : list nat) : nat := fold_right Nat.mul 1%nat shape.

(** [t[index]] for an integer index (negative indices count from the end). *)
Definition tensor_getitem (t : Tensor) (index : Z) : result Tensor :=
  match t_shape t with
  | [] => Err IndexError
  | n :: rest =>
      let i := if (index <? 0)%Z then (index + Z.of_nat n)%Z else index in
      if (0 <=? i)%Z && (i <? Z.of_nat n)%Z
      then Ok {| t_shape := rest;
                 t_data := take (numel rest) (drop (Z.to_nat i * numel rest) (t_data t)) |}
      else Err IndexError
  end.

(** *** torchvision.transforms.Normalize *)

(** The statistic of channel [c]: a one-element list broadcasts. *)
Definition channel_stat (stats : list spec_float) (c : nat) : spec_float :=
  match stats with
  | [p] => p
  | _ => nth c stats f32_zero
  end.

Definition broadcasts (k c : nat) : bool := (k =? 1)%nat || (k =? c)%nat.

Definition is_zero (x : spec_float) : bool := SFeqb x f32_zero.

(** Map with the position of each element. *)
Fixpoint mapi_from {A B} (i : nat) (f : nat -> A -> B) (l : list A) : list B :=
  match l with
  | [] => []
  | x :: l' => f i x :: mapi_from (S i) f l'
  end.

(** [Normalize(mean, std)(tensor)]: [tensor.sub_(mean).div_(std)] with
    [mean] and [std] viewed as [(-1, 1, 1)], on a tensor of at least three
    dimensions [..., C, H, W]. *)
Definition normalize (mean std : list spec_float) (tensor : Tensor) : result Tensor :=
  let shape := t_shape tensor in
  let nd := length shape in
  if (nd <? 3)%nat then Err ValueError
  else if existsb is_zero std then Err ValueError
  else
    let c := nth (nd - 3) shape 0%nat in
    let plane := (nth (nd - 2) shape 0%nat * nth (nd - 1) shape 0%nat)%nat in
    if broadcasts (length mean) c && broadcasts (length std) c
    then
      let chan i := ((i / plane) mod c)%nat in
      Ok {| t_shape := shape;
            t_data := mapi_from 0 (fun i x =>
                        f32_div (f32_sub x (channel_stat mean (chan i)))
                                (channel_stat std (chan i)))
                        (t_data tensor) |}
    else Err RuntimeError.

(** The statistics of the colour pipeline: the Python literals are
    doubles (the correctly rounded quotients below), which
    [torch.as_tensor(..., dtype=float32)] rounds to binary32. *)
Definition f64_of_Z (z : Z) : spec_float := binary_normalize 53 1024 z 0 false.

Definition f32_of_f64 (x : spec_float) : spec_float :=
  match x with
  | S754_finite s m e => binary_round f32_prec f32_emax s m e
  | _ => x
  end.

Definition f32_of_ratio (num den : Z) : spec_float :=
  f32_of_f64 (SFdiv 53 1024 (f64_of_Z num) (f64_of_Z den)).

Definition mean_c : list spec_float :=
  Eval vm_compute in [f32_of_ratio 485 1000; f32_of_ratio 456 1000; f32_of_ratio 406 1000].
Definition std_c : list spec_float :=
  Eval vm_compute in [f32_of_ratio 229 1000; f32_of_ratio 224 1000; f32_of_ratio 225 1000].
Definition mean_d : list spec_float := [f32_zero].
Definition std_d : list spec_float := [f32_one].

(** ** The image transforms of PIL and torchvision

    [Resize] resamples and [ToTensor] lays the pixels out as a
    [C, H, W] float tensor; both are taken as given, for integer images and
    for mode "F" images (the result of [convert("F")]). *)
Class Transforms : Type := {
  image_F : Type;
  convert_F : Image -> image_F;
  resize : Image -> Image;
  resize_F : image_F -> image_F;
  to_tensor : Image -> Tensor;
  to_tensor_F : image_F -> Tensor;
  to_tensor_ndim : forall im, length (t_shape (to_tensor im)) = 3%nat;
  to_tensor_F_ndim : forall im, length (t_shape (to_tensor_F im)) = 3%nat;
  to_tensor_valid : forall im, tensor_valid (to_tensor im);
  to_tensor_F_valid : forall im, tensor_valid (to_tensor_F im)
}.

(** [ToTensor] gives an integer tensor for the modes "I;16" and "I", which
    [Normalize] rejects. *)
Definition tensor_is_float (m : mode) : bool :=
  match m with
  | ModeI16 | ModeI => false
  | _ => true
  end.

Section Pipelines.
Context `{Transforms}.

(** [Compose([Resize((352, 1216)), ToTensor(), Normalize(mean_c, std_c)])] *)
Definition preprocess_c (x : Image) : result Tensor :=
  let x := resize x in
  if tensor_is_float (im_mode x)
  then normalize mean_c std_c (to_tensor x)
  else Err (TypeError "Input tensor should be a float tensor").

(** [Compose([Resize((352, 1216)), ToTensor(), Normalize([0.0], [1.0])])],
    applied to mode "F" images. *)
Definition preprocess_d (x : image_F) : result Tensor :=
  normalize mean_d std_d (to_tensor_F (resize_F x)).
End Pipelines.

(** ** Dataset containers (lines 12-35) *)

Record KittiSemanticsDataset : Type := mkSemantics {
  ds_X : Tensor;
  ds_Y : Tensor
}.

(** [KittiSemanticsDataset.__init__] *)
Definition semantics_init (X Y : list Tensor) : result KittiSemanticsDataset :=
  rbind (stack X) (fun x =>
  rbind (stack Y) (fun y =>
  Ok (mkSemantics x y))).

(** [KittiSemanticsDataset.__len__] *)
Definition semantics_len (d : KittiSemanticsDataset) : result nat :=
  tensor_len (ds_X d).

(** [KittiSemanticsDataset.__getitem__] *)
Definition semantics_getitem (d : KittiSemanticsDataset) (index : Z)
  : result (Tensor * Tensor) :=
  rbind (tensor_getitem (ds_X d) index) (fun x =>
  rbind (tensor_getitem (ds_Y d) index) (fun y =>
  Ok (x, y))).

Record KittiDepthDataset : Type := mkDepth {
  ds_super : KittiSemanticsDataset;
  ds_X_sensor : Tensor;
  ds_X_mask : Tensor
}.

(** [KittiDepthDataset.__init__] *)
Definition depth_init (X_color X_sensor X_mask Y : list Tensor)
  : result KittiDepthDataset :=
  rbind (semantics_init X_color Y) (fun super =>
  rbind (stack X_sensor) (fun x_sensor =>
  rbind (stack X_mask) (fun x_mask =>
  Ok (mkDepth super x_sensor x_mask)))).

(** [KittiDepthDataset.__len__] *)
Definition depth_len (d : KittiDepthDataset) : result nat :=
  semantics_len (ds_super d).

(** The lengths of the four sequences of a depth dataset:
    colour, sensor, mask, target. *)
Definition field_lengths (d : KittiDepthDataset) : list (result nat) :=
  [tensor_len (ds_X (ds_super d)); tensor_len (ds_X_sensor d);
   tensor_len (ds_X_mask d); tensor_len (ds_Y (ds_super d))].

(** [KittiDepthDataset.__getitem__] *)
Definition depth_getitem (d : KittiDepthDataset) (index : Z)
  : result (Tensor * Tensor * Tensor * Tensor) :=
  rbind (tensor_getitem (ds_X (ds_super d)) index) (fun x =>
  rbind (tensor_getitem (ds_X_sensor d) index) (fun x_sensor =>
  rbind (tensor_getitem (ds_X_mask d) index) (fun x_mask =>
  rbind (tensor_getitem (ds_Y (ds_super d)) index) (fun y =>
  Ok (x, x_sensor, x_mask, y))))).

(** ** scikit-learn's [train_test_split]

    The library function the loaders call, after its implementation
    ([_validate_shuffle_split], [ShuffleSplit._iter_indices],
    [_safe_indexing] on lists). [test_size] is a fraction, given as the
    rational number the caller writes; the product [test_size * n_samples]
    and its ceiling are taken in exact arithmetic, where scikit-learn
    rounds the product to a double first (for 0.2 and 10 samples the
    double product is exactly 2.0, see [double_product_example]). *)

(** numpy's generator of pseudo-random permutations. [rng_seed] is
    [RandomState(seed)]; [rng_permutation] is [rng.permutation(n)], which
    also advances the generator. *)
Class Rng : Type := {
  rng_state : Type;
  rng_seed : Z -> rng_state;
  rng_permutation : rng_state -> nat -> list nat * rng_state;
  rng_permutation_perm : forall g n, Permutation (fst (rng_permutation g n)) (seq 0 n)
}.

Module Sklearn.

Fixpoint rmapM {A B} (f : A -> result B) (l : list A) : result (list B) :=
  match l with
  | [] => Ok []
  | a :: l' => rbind (f a) (fun b => rbind (rmapM f l') (fun bs => Ok (b :: bs)))
  end.

(** [l[i]] on a Python list, negative indices counting from the end. *)
Definition list_getitem {A} (l : list A) (i : Z) : result A :=
  let n := Z.of_nat (length l) in
  let j := if (i <? 0)%Z then (i + n)%Z else i in
  if (0 <=? j)%Z && (j <? n)%Z then py_index l (Z.to_nat j) else Err IndexError.

(** [l[a:b]] *)
Definition clamp (n k : Z) : Z :=
  if (k <? 0)%Z then Z.max 0 (n + k) else Z.min k n.

Definition slice {A} (l : list A) (a b : Z) : list A :=
  let n := Z.of_nat (length l) in
  let a' := clamp n a in
  let b' := clamp n b in
  take (Z.to_nat (b' - a')) (drop (Z.to_nat a') l).

(** [np.arange(a, b)] *)
Definition arange (a b : Z) : list Z :=
  map (fun i => (a + Z.of_nat i)%Z) (seq 0 (Z.to_nat (b - a))).

(** [_validate_shuffle_split(n_samples, test_size, None)] for a fractional
    [test_size]: the pair [(n_train, n_test)]. *)
Definition validate_shuffle_split (n_samples : nat) (test_size : Q) : result (Z * Z) :=
  if Qle_bool test_size 0 || Qle_bool 1 test_size then Err ValueError
  else
    let n_test := Qceiling (test_size * inject_Z (Z.of_nat n_samples)) in
    let n_train := (Z.of_nat n_samples - n_test)%Z in
    if (Z.of_nat n_samples <? n_train + n_test)%Z then Err ValueError
    else if (n_train =? 0)%Z then Err ValueError
    else Ok (n_train, n_test).

(** The same validation inside [ShuffleSplit], now on the two counts. *)
Definition validate_counts (n_samples : nat) (n_train n_test : Z) : result unit :=
  let n := Z.of_nat n_samples in
  if (n <=? n_test)%Z || (n_test <=? 0)%Z then Err ValueError
  else if (n <=? n_train)%Z || (n_train <=? 0)%Z then Err ValueError
  else if (n <? n_train + n_test)%Z then Err ValueError
  else Ok tt.

(** [_safe_indexing(a, indices)] on a list: [[a[i] for i in indices]] *)
Definition safe_indexing {A} (a : list A) (indices : list Z) : result (list A) :=
  rmapM (list_getitem a) indices.

(** The elements of [a] at the positions [idx], in that order. *)
Definition samples_at {A} (a : list A) (idx : list nat) : list A :=
  omap (fun i => a !! i) idx.

Section Split.
Context `{Rng}.

(** The generator used for [random_state]: a fresh one for an integer
    seed, numpy's global one for [None]. *)
Definition check_random_state (random_state : option Z) (global : rng_state) : rng_state :=
  match random_state with
  | Some seed => rng_seed seed
  | None => global
  end.

(** The train and test indices, and the global generator afterwards. *)
Definition split_indices (n_samples : nat) (n_train n_test : Z)
    (shuffle : bool) (random_state : option Z) (global : rng_state)
  : result (list Z * list Z) * rng_state :=
  if shuffle then
    match validate_counts n_samples n_train n_test with
    | Err e => (Err e, global)
    | Ok _ =>
        let '(permutation, g') :=
          rng_permutation (check_random_state random_state global) n_samples in
        let permutation := map Z.of_nat permutation in
        let ind_test := slice permutation 0 n_test in
        let ind_train := slice permutation n_test (n_test + n_train) in
        (Ok (ind_train, ind_test),
         match random_state with Some _ => global | None => g' end)
    end
  else
    (Ok (arange 0 n_train, arange n_train (n_train + n_test)), global).

(** [train_test_split] of several arrays with [test_size], [shuffle] and [random_state]:
    for each array its train part, then its test part. *)
Definition train_test_split {A} (arrays : list (list A)) (test_size : Q)
    (shuffle : bool) (random_state : option Z) (global : rng_state)
  : result (list (list A)) * rng_state :=
  match arrays with
  | [] => (Err ValueError, global)
  | a0 :: _ =>
      let n_samples := length a0 in
      if negb (forallb (fun a => (length a =? n_samples)%nat) arrays)
      then (Err ValueError, global)
      else
        match validate_shuffle_split n_samples test_size with
        | Err e => (Err e, global)
        | Ok (n_train, n_test) =>
            match split_indices n_samples n_train n_test shuffle random_state global with
            | (Err e, g) => (Err e, g)
            | (Ok (train, test), g) =>
                (rmap (@concat _)
                   (rmapM (fun a =>
                      rbind (safe_indexing a train) (fun a_train =>
                      rbind (safe_indexing a test) (fun a_test =>
                      Ok [a_train; a_test]))) arrays), g)
            end
        end
  end.
End Split.

End Sklearn.

(** ** The file system and the state of a run *)

(** What the loaders read: [fs_glob root pattern] lists, in enumeration
    order, the names of the files under [root] that match [pattern]
    (always [<directory>/*.png]); [fs_open root rel] decodes the image at
    [root / rel], if there is one. *)
Class FileSystem : Type := {
  fs_glob : string -> string -> list string;
  fs_open : string -> string -> option Image
}.

Inductive event : Type :=
  | EvGlob (root pattern : string)
  | EvOpen (root rel : string).

(** A run observes the file accesses made so far and numpy's global
    generator. *)
Record world `{Rng} : Type := mkWorld {
  w_trace : list event;
  w_rng : rng_state
}.
Arguments mkWorld {_} _ _.

(** The values [load_dir] may be bound to. *)
Inductive py_value : Type :=
  | PyPath (p : string)
  | PyStr (s : string)
  | PyNone
  | PyInt (z : Z)
  | PyFloat (x : spec_float)
  | PyBytes (b : list ascii).

Definition load_dir_msg : string := "load_dir must be Path or str".
Definition load_dir_error : exn := TypeError load_dir_msg.

(** [isinstance(load_dir, (Path, str))] *)
Definition is_path_like (load_dir : py_value) : bool :=
  match load_dir with
  | PyPath _ | PyStr _ => true
  | _ => false
  end.

Section Loaders.
Context `{FileSystem} `{Transforms} `{Rng}.

(** Computations that may raise and that read and extend the world. *)
Definition M (A : Type) : Type := world -> result A * world.

Definition ret {A} (a : A) : M A := fun w => (Ok a, w).
Definition raise {A} (e : exn) : M A := fun w => (Err e, w).
Definition bind {A B} (m : M A) (k : A -> M B) : M B :=
  fun w => match m w with
           | (Ok a, w') => k a w'
           | (Err e, w') => (Err e, w')
           end.
Definition lift {A} (r : result A) : M A := fun w => (r, w).
Definition log (ev : event) : M unit :=
  fun w => (Ok tt, mkWorld (w_trace w ++ [ev]) (w_rng w)).

Notation "'do' x <- m ; k" := (bind m (fun x => k))
  (at level 10, x pattern, m at level 100, k at level 200).


(** [m] never raises [e]. *)
Definition avoids {A} (e : exn) (m : M A) : Prop :=
  forall w, fst (m w) <> Err e.

(** [def load_image(filename)] at [root / rel] *)
Definition load_image (root rel : string) : M Image :=
  do _ <- log (EvOpen root rel);
  match fs_open root rel with
  | Some image => ret image
  | None => raise OSError
  end.

(** [load_dir.glob(pattern)] *)
Definition glob (root pattern : string) : M (list string) :=
  do _ <- log (EvGlob root pattern);
  ret (fs_glob root pattern).

(** [train_test_split] with numpy's global generator taken from, and
    put back into, the world. *)
Definition train_test_split (arrays : list (list Tensor)) (test_size : Q)
    (shuffle : bool) (random_state : option Z) : M (list (list Tensor)) :=
  fun w =>
    let '(r, g) := Sklearn.train_test_split arrays test_size shuffle random_state (w_rng w) in
    (r, mkWorld (w_trace w) g).


(** [if isinstance(load_dir, (Path, str)): load_dir = Path(load_dir)]
    [else: raise TypeError(...)] *)
Definition as_path (load_dir : py_value) : M string :=
  match load_dir with
  | PyPath p => ret p
  | PyStr s => ret s
  | _ => raise (TypeError load_dir_msg)
  end.

(** *** load_kitti_semantics_dataset (lines 47-89) *)

(** The body of the first loop, for the remaining file names. *)
Fixpoint semantics_train_loop (load_dir : string) (names : list string)
    (X Y : list Tensor) : M (list Tensor * list Tensor) :=
  match names with
  | [] => ret (X, Y)
  | name :: names' =>
      do x <- load_image load_dir ("training/image_2/" +:+ name);
      do x <- lift (preprocess_c x);
      let X := X ++ [x] in
      do y <- load_image load_dir ("training/semantic_rgb/" +:+ name);
      do y <- lift (preprocess_c y);
      let Y := Y ++ [y] in
      semantics_train_loop load_dir names' X Y
  end.

Fixpoint semantics_test_loop (load_dir : string) (names : list string)
    (X_test Y_test : list Tensor) : M (list Tensor * list Tensor) :=
  match names with
  | [] => ret (X_test, Y_test)
  | name :: names' =>
      do x <- load_image load_dir ("testing/image_2/" +:+ name);
      do x <- lift (preprocess_c x);
      let X_test := X_test ++ [x] in
      let Y_test := Y_test ++ [zeros_like x] in
      semantics_test_loop load_dir names' X_test Y_test
  end.

Definition load_kitti_semantics_dataset (load_dir : py_value) (val_ratio : Q)
    (shuffle : bool) (random_state : option Z)
  : M (KittiSemanticsDataset * KittiSemanticsDataset * KittiSemanticsDataset) :=
  do load_dir <- as_path load_dir;
  do names <- glob load_dir "training/image_2/*.png";
  do (X, Y) <- semantics_train_loop load_dir names [] [];
  do parts <- train_test_split [X; Y] val_ratio shuffle random_state;
  match parts with
  | [X_train; X_val; Y_train; Y_val] =>
      do names <- glob load_dir "testing/image_2/*.png";
      do (X_test, Y_test) <- semantics_test_loop load_dir names [] [];
      do train_dataset <- lift (semantics_init X_train Y_train);
      do val_dataset <- lift (semantics_init X_val Y_val);
      do test_dataset <- lift (semantics_init X_test Y_test);
      ret (train_dataset, val_dataset, test_dataset)
  | _ => raise ValueError
  end.

(** *** load_kitti_depth_dataset (lines 91-168) *)

Record depth_lists : Type := mkLists {
  l_color : list Tensor;
  l_sensor : list Tensor;
  l_mask : list Tensor;
  l_target : list Tensor
}.

Definition no_lists : depth_lists := mkLists [] [] [] [].

Fixpoint depth_train_loop (load_dir : string) (names : list string)
    (acc : depth_lists) : M depth_lists :=
  match names with
  | [] => ret acc
  | name :: names' =>
      do x_c <- load_image load_dir ("val_selection_cropped/image/" +:+ name);
      do x_c <- lift (preprocess_c x_c);
      let X_color := l_color acc ++ [x_c] in
      do (file_prefix, file_suffix) <- lift (file_prefix_suffix name);
      do x_s <- load_image load_dir (velodyne_path file_prefix file_suffix);
      do x_m <- lift (generate_mask x_s);
      do x_s <- lift (preprocess_d (convert_F x_s));
      let X_sensor := l_sensor acc ++ [x_s] in
      do x_m <- lift (preprocess_d (convert_F x_m));
      let X_mask := l_mask acc ++ [x_m] in
      do y <- load_image load_dir (groundtruth_path file_prefix file_suffix);
      do y <- lift (preprocess_d (convert_F y));
      let Y := l_target acc ++ [y] in
      depth_train_loop load_dir names' (mkLists X_color X_sensor X_mask Y)
  end.

Fixpoint depth_test_loop (load_dir : string) (names : list string)
    (acc : depth_lists) : M depth_lists :=
  match names with
  | [] => ret acc
  | name :: names' =>
      do x_c <- load_image load_dir ("test_depth_completion_anonymous/image/" +:+ name);
      do x_c <- lift (preprocess_c x_c);
      let X_color_test := l_color acc ++ [x_c] in
      do x_s <- load_image load_dir ("test_depth_completion_anonymous/velodyne_raw/" +:+ name);
      do x_m <- lift (generate_mask x_s);
      do x_s <- lift (preprocess_d (convert_F x_s));
      let X_sensor_test := l_sensor acc ++ [x_s] in
      do x_m <- lift (preprocess_d (convert_F x_m));
      let X_mask_test := l_mask acc ++ [x_m] in
      let Y_test := l_target acc ++ [zeros_like x_c] in
      depth_test_loop load_dir names' (mkLists X_color_test X_sensor_test X_mask_test Y_test)
  end.

(** The loader returns two datasets when [train] holds and one otherwise. *)
Inductive depth_datasets : Type :=
  | TrainVal (train_dataset val_dataset : KittiDepthDataset)
  | Test (test_dataset : KittiDepthDataset).

Definition datasets_of (r : depth_datasets) : list KittiDepthDataset :=
  match r with
  | TrainVal train_dataset val_dataset => [train_dataset; val_dataset]
  | Test test_dataset => [test_dataset]
  end.

Definition load_kitti_depth_dataset (load_dir : py_value) (val_ratio : Q)
    (shuffle : bool) (random_state : option Z) (train : bool) : M depth_datasets :=
  do load_dir <- as_path load_dir;
  if train then
    do names <- glob load_dir "val_selection_cropped/image/*.png";
    do acc <- depth_train_loop load_dir names no_lists;
    do parts <- train_test_split [l_color acc; l_sensor acc; l_mask acc; l_target acc]
                  val_ratio shuffle random_state;
    match parts with
    | [X_color_train; X_color_val; X_sensor_train; X_sensor_val;
       X_mask_train; X_mask_val; Y_train; Y_val] =>
        do train_dataset <- lift (depth_init X_color_train X_sensor_train X_mask_train Y_train);
        do val_dataset <- lift (depth_init X_color_val X_sensor_val X_mask_val Y_val);
        ret (TrainVal train_dataset val_dataset)
    | _ => raise ValueError
    end
  else
    do names <- glob load_dir "test_depth_completion_anonymous/image/*.png";
    do acc <- depth_test_loop load_dir names no_lists;
    do test_dataset <- lift (depth_init (l_color acc) (l_sensor acc) (l_mask acc) (l_target acc));
    ret (Test test_dataset).
End Loaders.

(** ** A small concrete instance

    A directory listing with one image behind every path, transforms that
    keep the size and turn each pixel into a binary32 value, and a
    generator that alternates between two permutations. *)
Module Toy.

Definition f32_checked (x : spec_float) : spec_float :=
  if f32_valid x then x else f32_zero.

Definition pixel_to_f32 (v : Z) : spec_float :=
  f32_checked (binary_normalize f32_prec f32_emax v 0 false).

Definition pixels_to_tensor (im : Image) : Tensor :=
  {| t_shape := [channels (im_mode im); im_height im; im_width im];
     t_data := map pixel_to_f32 (im_data im) |}.

(** The transforms; every value of a tensor they produce is a valid
    binary32 number by [f32_checked]. *)
Definition transforms : Transforms.
Proof.
  refine {| image_F := Image;
            convert_F := fun im => im;
            resize := fun im => im;
            resize_F := fun im => im;
            to_tensor := pixels_to_tensor;
            to_tensor_F := pixels_to_tensor;
            to_tensor_ndim := fun _ => eq_refl;
            to_tensor_F_ndim := fun _ => eq_refl;
            to_tensor_valid := _;
            to_tensor_F_valid := _ |};
    intros im; unfold tensor_valid, pixels_to_tensor; simpl;
    apply Forall_forall; intros x Hx;
    apply list_elem_of_In, in_map_iff in Hx; destruct Hx as [v [<- _]];
    unfold pixel_to_f32, f32_checked;
    (destruct (f32_valid (binary_normalize f32_prec f32_emax v 0 false)) eqn:E;
     [exact E | reflexivity]).
Defined.

Definition frame : Image := mkImage ModeI16 1 5 [0; 0; 5; 0; 3]%Z.
Definition photo : Image := mkImage ModeRGB 1 2 [10; 20; 30; 0; 128; 255]%Z.

(** Every pattern lists [names]; a path into a depth folder decodes to
    [frame], any other path to [photo]. *)
Definition decode (rel : string) : Image :=
  if PyStr.occurs "velodyne_raw" rel || PyStr.occurs "groundtruth_depth" rel
  then frame else photo.

Definition listing (names : list string) : FileSystem :=
  {| fs_glob := fun _ _ => names;
     fs_open := fun _ rel => Some (decode rel) |}.

Definition permutation (g n : nat) : list nat * nat :=
  (if Nat.even g then seq 0 n else rev (seq 0 n), S g).

(** The generator: its state counts the permutations drawn so far. *)
Definition rng : Rng.
Proof.
  refine {| rng_state := nat;
            rng_seed := fun seed => Z.to_nat (Z.abs seed);
            rng_permutation := permutation;
            rng_permutation_perm := _ |}.
  intros g n. unfold permutation; simpl. destruct (Nat.even g).
  - reflexivity.
  - symmetry. apply Permutation_rev.
Defined.

Definition world0 : @world rng := @mkWorld rng [] 0%nat.

Definition ten_names : list string :=
  map (fun d => "2011_09_26_drive_0002_sync_image_000000000" +:+ d +:+ "_image_02.png")
      ["0"; "1"; "2"; "3"; "4"; "5"; "6"; "7"; "8"; "9"].

(** Ten training pairs, a fifth of them held out, shuffled with seed 0. *)
Abbreviation semantics_run :=
  (@load_kitti_semantics_dataset (listing ten_names) transforms rng
     (PyStr "/data") (2 # 10) true (Some 0%Z) world0).

Abbreviation depth_run train :=
  (@load_kitti_depth_dataset (listing ten_names) transforms rng
     (PyStr "/data") (2 # 10) true (Some 0%Z) train world0).

(** A later world: one directory already listed, the generator advanced. *)
Definition world1 : @world rng := @mkWorld rng [EvGlob "/data" "testing/image_2/*.png"] 3%nat.

Definition pixel : Tensor := mkTensor [1; 1; 1]%nat [f32_one].

End Toy.

(** ** show_image (lines 170-187) *)

(** The values of the array handed to matplotlib: integers when it comes
    from an image or an integer array, binary32 floats when it comes from
    a tensor. *)
Inductive cells : Type :=
  | IntCells (l : list Z)
  | FloatCells (l : list spec_float).

Record plot_array : Type := mkPlot {
  p_shape : list nat;
  p_cells : cells
}.

(** What [show_image] may be called with. *)
Inductive show_arg : Type :=
  | ArgTensor (t : Tensor)
  | ArgImage (im : Image)
  | ArgArray (a : ndarray)
  | ArgOther (v : py_value).

(** [np.transpose(image, (1, 2, 0))] on the row-major values of an array of
    shape [(a1, a2, a3)]: position [(i, j, k)] of the result, of shape
    [(a2, a3, a1)], holds position [(k, i, j)] of the argument. *)
Definition transpose_source (a1 a2 a3 n : nat) : nat :=
  let i := (n / (a3 * a1))%nat in
  let j := ((n / a1) mod a3)%nat in
  let k := (n mod a1)%nat in
  (k * (a2 * a3) + i * a3 + j)%nat.

Definition transpose_120 {A} (a1 a2 a3 : nat) (l : list A) : list A :=
  omap (fun n => l !! transpose_source a1 a2 a3 n) (seq 0 (a1 * a2 * a3)).

Definition cells_transpose (a1 a2 a3 : nat) (c : cells) : cells :=
  match c with
  | IntCells l => IntCells (transpose_120 a1 a2 a3 l)
  | FloatCells l => FloatCells (transpose_120 a1 a2 a3 l)
  end.

Definition cells_length (c : cells) : nat :=
  match c with
  | IntCells l => length l
  | FloatCells l => length l
  end.

(** matplotlib's [pyplot]: [plt_imshow] is [plt.imshow], which may reject
    its argument. *)
Class Pyplot : Type := {
  axes_image : Type;
  plt_imshow : plot_array -> result axes_image
}.

(** The calls made to [pyplot], in order. *)
Inductive plt_event : Type :=
  | PltImshow (image : plot_array)
  | PltShow
  | PltClf.

(** The first branch: [image.detach().numpy()] for a tensor,
    [np.array(image)] for an image or an array, [ValueError] otherwise. *)
Definition show_array (image : show_arg) : result plot_array :=
  match image with
  | ArgTensor t => Ok (mkPlot (t_shape t) (FloatCells (t_data t)))
  | ArgImage im => Ok (mkPlot (a_shape (np_array im)) (IntCells (a_data (np_array im))))
  | ArgArray a => Ok (mkPlot (a_shape a) (IntCells (a_data a)))
  | ArgOther _ => Err ValueError
  end.

(** [a1, a2, a3 = image.shape] and the conditional transposition. *)
Definition show_layout (image : plot_array) : result plot_array :=
  match p_shape image with
  | [a1; a2; a3] =>
      if (1 <=? a1)%nat && (a1 <=? 3)%nat
      then Ok (mkPlot [a2; a3; a1] (cells_transpose a1 a2 a3 (p_cells image)))
      else Ok image
  | _ => Err ValueError
  end.

Section ShowImage.
Context `{Pyplot}.

(** [def show_image(image, show=True)]: the value returned or the
    exception raised, and the calls made to [pyplot]. *)
Definition show_image (image : show_arg) (show : bool)
  : result axes_image * list plt_event :=
  match rbind (show_array image) show_layout with
  | Err e => (Err e, [])
  | Ok image =>
      match plt_imshow image with
      | Err e => (Err e, [PltImshow image])
      | Ok ax =>
          (Ok ax, if show then [PltImshow image; PltShow; PltClf] else [PltImshow image])
      end
  end.
End ShowImage.

(** ** The entry point (lines 189-196) *)

Definition main_load_dir : string :=
  "/home/matsuura/Development/waseda/m1/lecture_spring_2022/cgo/group_work/dataset/data_semantics".

Section EntryPoint.
Context `{FileSystem} `{Transforms} `{Rng}.

(** The [__main__] block: the loader is called with its defaults
    ([val_ratio=0.2], [shuffle=True], [random_state=None]); the value is
    the list of the numbers printed. *)
Definition main : M (list nat) :=
  bind (load_kitti_semantics_dataset (PyPath main_load_dir) (2 # 10) true None)
    (fun '(train_dataset, val_dataset, test_dataset) =>
  bind (lift (semantics_len train_dataset)) (fun n_train =>
  bind (lift (semantics_len val_dataset)) (fun n_val =>
  bind (lift (semantics_len test_dataset)) (fun n_test =>
  ret [n_train; n_val; n_test])))).
End EntryPoint.

(** ** Well-formed tensors *)

(** A tensor holds as many values as its shape says. *)
Definition tensor_wf (t : Tensor) : Prop :=
  length (t_data t) = numel (t_shape t).

(** A [pyplot] for the examples: [imshow] takes an array whose last axis
    has 1, 3 or 4 entries and hands it back as the plot. *)
Module ToyPlot.

Definition imshow (image : plot_array) : result plot_array :=
  match p_shape image with
  | [_; _; 1%nat] | [_; _; 3%nat] | [_; _; 4%nat] => Ok image
  | _ => Err (TypeError "Invalid shape for image data")
  end.

Definition pyplot : Pyplot := {| axes_image := plot_array; plt_imshow := imshow |}.

(** A tensor of shape [(2, 1, 3)]: two channels of one row of three. *)
Definition chw : Tensor :=
  mkTensor [2; 1; 3]%nat
    [S754_zero false; f32_one; S754_zero true;
     S754_infinity false; S754_nan; S754_infinity true].

End ToyPlot.

(** ** Runs that leave numpy's global generator as it was *)

Section Generator.
Context `{Rng}.

Definition keeps_generator {A} (m : M A) : Prop :=
  forall w, w_rng (snd (m w)) = w_rng w.

End Generator.

(** A folder of two files, split in halves. *)
Module Small.

Definition two_names : list string :=
  ["2011_09_26_drive_0002_sync_image_0000000005_image_02.png";
   "2011_09_26_drive_0002_sync_image_0000000008_image_02.png"].

Abbreviation semantics_run shuffle random_state :=
  (@load_kitti_semantics_dataset (Toy.listing two_names) Toy.transforms Toy.rng
     (PyStr "/data") (1 # 2) shuffle random_state Toy.world0).

Abbreviation depth_run shuffle random_state train :=
  (@load_kitti_depth_dataset (Toy.listing two_names) Toy.transforms Toy.rng
     (PyStr "/data") (1 # 2) shuffle random_state train Toy.world0).

End Small.

(** * Properties *)

(** ** Strings *)

Section StringFacts.

Lemma append_cons (c : ascii) (a b : string) : String c a +:+ b = String c (a +:+ b).
Proof. reflexivity. Qed.

Lemma append_nil (b : string) : EmptyString +:+ b = b.
Proof. reflexivity. Qed.

Lemma append_nil_r (a : string) : a +:+ EmptyString = a.
Proof.
  induction a as [|x a IH]; [reflexivity |].
  rewrite append_cons. f_equal. exact IH.
Qed.

Lemma app_assoc_s (a b c : string) : (a +:+ b) +:+ c = a +:+ (b +:+ c).
Proof.
  induction a as [|x a IH]; [reflexivity |].
  rewrite !append_cons. f_equal. exact IH.
Qed.

Lemma length_app_s (a b : string) :
  String.length (a +:+ b) = (String.length a + String.length b)%nat.
Proof.
  induction a as [|x a IH]; [reflexivity |].
  rewrite append_cons. simpl. f_equal. exact IH.
Qed.

Lemma prefix_nil_r (p : string) : p <> EmptyString -> String.prefix p EmptyString = false.
Proof. destruct p; [congruence | reflexivity]. Qed.

Lemma prefix_cons (a b : ascii) (p s : string) :
  String.prefix (String a p) (String b s)
  = if Ascii.ascii_dec a b then String.prefix p s else false.
Proof. simpl. destruct (Ascii.ascii_dec a b); reflexivity. Qed.

Lemma prefix_self_app (p s : string) : String.prefix p (p +:+ s) = true.
Proof.
  induction p as [|a p IH]; [rewrite append_nil; destruct s; reflexivity |].
  rewrite append_cons, prefix_cons.
  destruct (Ascii.ascii_dec a a); [exact IH | congruence].
Qed.

Lemma drop_app (p s : string) : PyStr.drop (String.length p) (p +:+ s) = s.
Proof.
  induction p as [|a p IH]; [rewrite append_nil; destruct s; reflexivity |].
  rewrite append_cons. simpl. exact IH.
Qed.

Lemma prefix_split (p s : string) :
  String.prefix p s = true -> s = p +:+ PyStr.drop (String.length p) s.
Proof.
  revert s. induction p as [|a p IH]; intros s Hp.
  - destruct s; reflexivity.
  - destruct s as [|b s]; [discriminate |].
    rewrite prefix_cons in Hp. destruct (Ascii.ascii_dec a b) as [->|]; [|discriminate].
    rewrite append_cons. simpl. f_equal. now apply IH.
Qed.

(** Only the first [length p] characters decide whether [p] is a prefix. *)
Lemma prefix_app_long (p u v w : string) :
  (String.length p <= String.length u)%nat ->
  String.prefix p (u +:+ v) = String.prefix p (u +:+ w).
Proof.
  revert u. induction p as [|a p IH]; intros u Hlen.
  - destruct (u +:+ v), (u +:+ w); reflexivity.
  - destruct u as [|b u]; simpl in Hlen; [lia |].
    rewrite !append_cons, !prefix_cons.
    destruct (Ascii.ascii_dec a b); [|reflexivity].
    apply IH. lia.
Qed.

Lemma init_cons2 (a b : ascii) (s : string) :
  PyStr.init (String a (String b s)) = String a (PyStr.init (String b s)).
Proof. reflexivity. Qed.

Lemma init_last (s : string) :
  s <> EmptyString ->
  exists c, s = PyStr.init s +:+ String c EmptyString
            /\ S (String.length (PyStr.init s)) = String.length s.
Proof.
  induction s as [|a s IH]; [congruence | intros _].
  destruct s as [|b s].
  - exists a. split; reflexivity.
  - destruct IH as [c [E L]]; [congruence |].
    exists c. rewrite init_cons2, append_cons. split.
    + f_equal. exact E.
    + simpl. f_equal. exact L.
Qed.

Variable sep : string.
Hypothesis sep_nonempty : sep <> EmptyString.

(** The scan does not depend on the fuel once there is enough of it. *)
Lemma split_go_fuel (f1 f2 : nat) (s : string) :
  (String.length s < f1)%nat -> (String.length s < f2)%nat ->
  PyStr.split_go f1 sep s = PyStr.split_go f2 sep s.
Proof.
  revert f2 s. induction f1 as [|f1 IH]; intros f2 s H1 H2; [lia |].
  destruct f2 as [|f2]; [lia |]. simpl.
  destruct (String.prefix sep s) eqn:Hp.
  - f_equal.
    pose proof (prefix_split _ _ Hp) as E.
    assert (String.length s = (String.length sep + String.length (PyStr.drop (String.length sep) s))%nat) as L.
    { rewrite E at 1. apply length_app_s. }
    assert (0 < String.length sep)%nat by (destruct sep; [congruence | simpl; lia]).
    apply IH; lia.
  - destruct s as [|c s]; [reflexivity |].
    f_equal. simpl in H1, H2. apply IH; lia.
Qed.

Abbreviation split_list := (PyStr.split_list sep).

Lemma split_list_sep (s : string) :
  String.prefix sep s = true ->
  split_list s = EmptyString :: split_list (PyStr.drop (String.length sep) s).
Proof.
  intros Hp. unfold PyStr.split_list at 1. simpl. rewrite Hp. f_equal.
  pose proof (prefix_split _ _ Hp) as E.
  assert (String.length s = (String.length sep + String.length (PyStr.drop (String.length sep) s))%nat) as L.
  { rewrite E at 1. apply length_app_s. }
  assert (0 < String.length sep)%nat by (destruct sep; [congruence | simpl; lia]).
  apply split_go_fuel; lia.
Qed.

Lemma split_list_char (c : ascii) (s : string) :
  String.prefix sep (String c s) = false ->
  split_list (String c s) = PyStr.cons_head c (split_list s).
Proof.
  intros Hp. unfold PyStr.split_list at 1.
  change (PyStr.split_go (S (String.length (String c s))) sep (String c s))
    with (if String.prefix sep (String c s)
          then EmptyString :: PyStr.split_go (String.length (String c s)) sep
                                (PyStr.drop (String.length sep) (String c s))
          else PyStr.cons_head c (PyStr.split_go (String.length (String c s)) sep s)).
  rewrite Hp. reflexivity.
Qed.

Lemma split_list_empty : split_list EmptyString = [EmptyString].
Proof. unfold PyStr.split_list. destruct sep; [congruence | reflexivity]. Qed.

(** A string without the separator is a single piece. *)
Lemma split_list_none (s : string) :
  PyStr.occurs sep s = false -> split_list s = [s].
Proof.
  induction s as [|c s IH]; intros Ho.
  - apply split_list_empty.
  - simpl in Ho. apply orb_false_iff in Ho as [Hp Ho].
    rewrite split_list_char by exact Hp. now rewrite IH.
Qed.

(** An occurrence that starts before the separator ends before the
    separator's last character. *)
Lemma prefix_before_token (x rest : string) :
  (0 < String.length x)%nat ->
  String.prefix sep (x +:+ sep +:+ rest) = String.prefix sep (x +:+ PyStr.init sep).
Proof.
  intros Hx. destruct (init_last sep sep_nonempty) as [l [E L]].
  remember (PyStr.init sep) as i eqn:Hi.
  assert (x +:+ sep +:+ rest = (x +:+ i) +:+ String l rest) as ->.
  { rewrite E. now rewrite !app_assoc_s. }
  rewrite <- (append_nil_r (x +:+ i)) at 2.
  apply prefix_app_long. rewrite length_app_s. lia.
Qed.

(** The first piece ends at the first occurrence of the separator. *)
Lemma split_list_token (a rest : string) :
  PyStr.occurs sep (a +:+ PyStr.init sep) = false ->
  split_list (a +:+ sep +:+ rest) = a :: split_list rest.
Proof.
  induction a as [|c a IH]; intros Ho.
  - rewrite append_nil.
    rewrite split_list_sep by apply prefix_self_app.
    now rewrite drop_app.
  - rewrite append_cons in Ho.
    simpl in Ho. apply orb_false_iff in Ho as [Hp Ho].
    rewrite append_cons, split_list_char.
    + rewrite IH by exact Ho. reflexivity.
    + rewrite <- Hp, <- !append_cons.
      apply (prefix_before_token (String c a)). simpl. lia.
Qed.

Lemma split_ok (s : string) : PyStr.split sep s = Ok (split_list s).
Proof. unfold PyStr.split. destruct sep; [congruence | reflexivity]. Qed.

End StringFacts.

(** ** File names of the depth training set *)

Lemma image_token_nonempty : image_token <> EmptyString.
Proof. discriminate. Qed.






(** ** The mask generator *)

Lemma threshold_idem (v : Z) : threshold (threshold v) = threshold v.
Proof. unfold threshold. destruct (0 <? v)%Z eqn:E; [reflexivity | now rewrite E]. Qed.

Lemma threshold_nonneg (v : Z) : (0 <= v)%Z -> threshold v = spec_mask_value v.
Proof.
  intros Hv. unfold threshold, spec_mask_value.
  destruct (0 <? v)%Z eqn:E; [reflexivity |]. apply Z.ltb_ge in E. lia.
Qed.

Lemma generate_mask_eq (image : Image) :
  generate_mask image
  = Ok (mkImage (match im_mode image with ModeP => ModeL | m => m end)
                (im_height image) (im_width image)
                (map threshold (im_data image))).
Proof. destruct image as [[] h w d]; reflexivity. Qed.

Lemma wf_unsigned_nonneg (image : Image) :
  image_wf image = true -> im_mode image <> ModeI ->
  Forall (fun v => (0 <= v)%Z) (im_data image).
Proof.
  intros Hwf Hm. unfold image_wf in Hwf.
  apply andb_true_iff in Hwf as [_ Hr].
  rewrite forallb_forall in Hr. apply Forall_forall. intros v Hv.
  apply list_elem_of_In in Hv. specialize (Hr v Hv).
  destruct (im_mode image); simpl in Hr; try congruence;
    apply andb_true_iff in Hr as [Hr _]; now apply Z.leb_le in Hr.
Qed.

(** C2, as the code has it: the mask has the size of the input, every
    pixel greater than zero becomes 1 and every other pixel keeps its
    value; so on an image without negative pixels (every well-formed image
    of an unsigned mode) every other pixel is 0, and an all-zero image
    gives an all-zero mask. The call never fails. *)
Theorem generate_mask_pointwise (image : Image) :
  exists mask,
    generate_mask image = Ok mask
    /\ im_height mask = im_height image
    /\ im_width mask = im_width image
    /\ length (im_data mask) = length (im_data image)
    /\ (forall i v, im_data image !! i = Some v ->
          im_data mask !! i = Some (if (0 <? v)%Z then 1%Z else v))
    /\ (Forall (fun v => (0 <= v)%Z) (im_data image) ->
          im_data mask = map spec_mask_value (im_data image))
    /\ (image_wf image = true -> im_mode image <> ModeI ->
          im_data mask = map spec_mask_value (im_data image))
    /\ (Forall (fun v => v = 0%Z) (im_data image) ->
          Forall (fun v => v = 0%Z) (im_data mask)).
Proof.
  eexists. split; [apply generate_mask_eq |]. simpl.
  assert (Forall (fun v => (0 <= v)%Z) (im_data image) ->
          map threshold (im_data image) = map spec_mask_value (im_data image)) as Hnn.
  { intros Hall. apply map_ext_in. intros v Hv.
    apply threshold_nonneg. rewrite Forall_forall in Hall.
    apply Hall. now apply list_elem_of_In. }
  repeat split.
  - apply length_map.
  - intros i v Hi. rewrite list_lookup_fmap, Hi. reflexivity.
  - exact Hnn.
  - intros Hwf Hm. apply Hnn. now apply wf_unsigned_nonneg.
  - intros Hall. apply Forall_fmap. eapply Forall_impl; [exact Hall |].
    intros v ->. reflexivity.
Qed.

Lemma generate_mask_pointwise_example :
  exists mask,
    generate_mask (mkImage ModeI16 1 5 [0; 0; 5; 0; 3]%Z) = Ok mask
    /\ im_height mask = 1%nat
    /\ im_width mask = 5%nat
    /\ im_data mask = [0; 0; 1; 0; 1]%Z.
Proof.
  destruct (generate_mask_pointwise (mkImage ModeI16 1 5 [0; 0; 5; 0; 3]%Z))
    as [mask [E [Hh [Hw [_ [_ [_ [Hwf _]]]]]]]].
  exists mask. split; [exact E |]. split; [exact Hh |]. split; [exact Hw |].
  apply Hwf; [reflexivity | discriminate].
Defined.

(** C2, as stated, fails on a signed image: a negative pixel of a mode "I"
    image is not greater than zero and is left as it is, not set to 0. *)
Lemma generate_mask_negative_pixel :
  image_wf (mkImage ModeI 1 3 [-3; 0; 5]%Z) = true
  /\ generate_mask (mkImage ModeI 1 3 [-3; 0; 5]%Z) = Ok (mkImage ModeI 1 3 [-3; 0; 1]%Z)
  /\ map spec_mask_value [-3; 0; 5]%Z = [0; 0; 1]%Z
  /\ generate_mask (mkImage ModeI 1 3 [-3; 0; 5]%Z)
     <> Ok (mkImage ModeI 1 3 (map spec_mask_value [-3; 0; 5]%Z)).
Proof. split; [reflexivity | split; [reflexivity | split; [reflexivity | discriminate]]]. Qed.

(** C8: the mask generator is idempotent; it never fails, and applied to
    its own output it returns that output. *)
Theorem generate_mask_idempotent (image : Image) :
  exists mask, generate_mask image = Ok mask /\ generate_mask mask = Ok mask.
Proof.
  eexists. split; [apply generate_mask_eq |].
  rewrite generate_mask_eq. simpl. f_equal. f_equal.
  - destruct (im_mode image); reflexivity.
  - rewrite map_map. apply map_ext. intros v. apply threshold_idem.
Qed.

(** ** The mask generator over the store *)

Section StoreFacts.
Import Store.

Lemma alloc_fresh (o : object) (h : store) : h !! (alloc o h).1 = None.
Proof. unfold alloc; simpl. apply not_elem_of_dom, is_fresh. Qed.

Lemma alloc_lookup_new (o : object) (h : store) :
  (alloc o h).2 !! (alloc o h).1 = Some o.
Proof. unfold alloc; simpl. apply lookup_insert_eq. Qed.

Lemma alloc_lookup_old (o : object) (h : store) (k : ref) (x : object) :
  h !! k = Some x -> (alloc o h).2 !! k = Some x.
Proof.
  intros Hk. unfold alloc; simpl. rewrite lookup_insert_ne; [exact Hk |].
  intros E. pose proof (alloc_fresh o h) as Hf. unfold alloc in Hf; simpl in Hf.
  rewrite E in Hf. congruence.
Qed.

(** C10: [generate_mask] leaves its argument alone. Called on a reference
    to an image, it returns a new reference to the mask; the argument and
    every other object that was in the store are as they were. *)
Theorem generate_mask_preserves_input (h : store) (l : ref) (image : Image) :
  h !! l = Some (ObjImage image) ->
  exists l' h' mask,
    generate_mask_st l h = Ok (l', h')
    /\ generate_mask image = Ok mask
    /\ h' !! l' = Some (ObjImage mask)
    /\ l' <> l
    /\ h' !! l = Some (ObjImage image)
    /\ (forall k o, h !! k = Some o -> h' !! k = Some o).
Proof.
  intros Hl.
  pose proof (generate_mask_eq image) as Hmask.
  set (mask := mkImage (match im_mode image with ModeP => ModeL | m => m end)
                       (im_height image) (im_width image)
                       (map threshold (im_data image))) in Hmask.
  unfold generate_mask_st, np_array_st. rewrite Hl. simpl.
  set (a := fresh (dom h)).
  set (h1 := <[a := ObjArray (np_array image)]> h).
  assert (h !! a = None) as Ha by apply (alloc_fresh (ObjArray (np_array image)) h).
  unfold assign_positive_st. replace (h1 !! a) with (Some (ObjArray (np_array image)))
    by (symmetry; apply lookup_insert_eq).
  simpl.
  set (h2 := <[a := ObjArray (assign_positive (np_array image))]> h1).
  unfold fromarray_st. replace (h2 !! a) with (Some (ObjArray (assign_positive (np_array image))))
    by (symmetry; apply lookup_insert_eq).
  unfold generate_mask in Hmask. rewrite Hmask. simpl.
  set (l' := fresh (dom h2)).
  assert (h2 !! l' = None) as Hl' by apply (alloc_fresh (ObjImage mask) h2).
  assert (forall k o, h !! k = Some o -> h2 !! k = Some o) as Hold.
  { intros k o Hk.
    assert (a <> k) by (intros E; rewrite <- E in Hk; rewrite Ha in Hk; discriminate).
    unfold h2, h1. now rewrite !lookup_insert_ne. }
  exists l', (<[l' := ObjImage mask]> h2), mask.
  split; [reflexivity |]. split; [exact Hmask |].
  split; [apply lookup_insert_eq |].
  assert (forall k o, h !! k = Some o -> l' <> k) as Hne.
  { intros k o Hk E. apply Hold in Hk. rewrite <- E in Hk. rewrite Hl' in Hk. discriminate. }
  split; [eapply Hne; exact Hl |].
  split.
  - rewrite lookup_insert_ne by (eapply Hne; exact Hl). now apply Hold.
  - intros k o Hk. rewrite lookup_insert_ne by (eapply Hne; exact Hk). now apply Hold.
Qed.

Lemma generate_mask_preserves_input_example :
  exists l' h' mask,
    generate_mask_st 0 {[ 0%nat := ObjImage Toy.frame ]} = Ok (l', h')
    /\ generate_mask Toy.frame = Ok mask
    /\ h' !! l' = Some (ObjImage mask)
    /\ l' <> 0%nat
    /\ h' !! 0%nat = Some (ObjImage Toy.frame)
    /\ (forall k o, ({[ 0%nat := ObjImage Toy.frame ]} : store) !! k = Some o -> h' !! k = Some o).
Proof.
  apply (generate_mask_preserves_input {[ 0%nat := ObjImage Toy.frame ]} 0 Toy.frame).
  reflexivity.
Defined.

End StoreFacts.

(** ** Normalizing with mean 0 and standard deviation 1 *)

Section FloatFacts.
Local Open Scope Z_scope.

(** [x - 0.0] is [x], for every binary32 value. *)
Lemma f32_sub_zero (x : spec_float) : f32_sub x f32_zero = x.
Proof. destruct x as [[]|[]| |[] m e]; reflexivity. Qed.

(** A valid finite binary32 value is subnormal with the least exponent
    or has a full mantissa of 24 bits. *)
Lemma valid_cases (m : positive) (e : Z) :
  bounded f32_prec f32_emax m e = true ->
  e <= 104
  /\ ((e = -149 /\ Zpos (digits2_pos m) <= 24)
      \/ (-149 < e /\ Zpos (digits2_pos m) = 24)).
Proof.
  unfold bounded, canonical_mantissa, fexp, emin, f32_prec, f32_emax.
  intros Hb. apply andb_prop in Hb as [Hc He].
  apply Z.eqb_eq in Hc. apply Z.leb_le in He. lia.
Qed.

Lemma div_eucl_mul (a b : Z) : 0 < b -> Z.div_eucl (a * b) b = (a, 0).
Proof.
  intros Hb. pose proof (Z.div_mul a b ltac:(lia)) as Hq.
  pose proof (Z.mod_mul a b ltac:(lia)) as Hr.
  unfold Z.div, Z.modulo in Hq, Hr.
  destruct (Z.div_eucl (a * b) b) as [q r]. congruence.
Qed.

(** Rounding an exact canonical mantissa changes nothing. *)
Lemma round_exact_canonical (s : bool) (m : positive) (e : Z) :
  bounded f32_prec f32_emax m e = true ->
  binary_round_aux f32_prec f32_emax s (Zpos m) e loc_Exact = S754_finite s m e.
Proof.
  intros Hb. destruct (valid_cases m e Hb) as [He Hc].
  unfold binary_round_aux, shr_fexp, f32_prec, f32_emax, fexp, emin. simpl Zdigits2.
  replace (Z.max (Z.pos (digits2_pos m) + e - 24) (3 - 128 - 24) - e) with 0 by lia.
  simpl.
  replace (Z.max (Z.pos (digits2_pos m) + e - 24) (3 - 128 - 24) - e) with 0 by lia.
  simpl.
  destruct (e <=? 128 - 24) eqn:E; [reflexivity |]. apply Z.leb_gt in E. lia.
Qed.

(** Rounding the doubled mantissa at the exponent below shifts it back. *)
Lemma round_exact_double (s : bool) (m : positive) (e : Z) :
  bounded f32_prec f32_emax m e = true -> -149 < e ->
  binary_round_aux f32_prec f32_emax s (Zpos m~0) (e - 1) loc_Exact = S754_finite s m e.
Proof.
  intros Hb Hlo. destruct (valid_cases m e Hb) as [He Hc].
  assert (Z.pos (digits2_pos m) = 24) as Hd by lia.
  unfold binary_round_aux, shr_fexp, f32_prec, f32_emax, fexp, emin.
  change (Zdigits2 (Z.pos m~0)) with (Z.pos (Pos.succ (digits2_pos m))).
  rewrite Pos2Z.inj_succ, Hd.
  replace (Z.max (Z.succ 24 + (e - 1) - 24) (3 - 128 - 24) - (e - 1)) with 1 by lia.
  simpl.
  replace (e - 1 + 1) with e by lia. rewrite Hd.
  replace (Z.max (24 + e - 24) (3 - 128 - 24) - e) with 0 by lia.
  simpl.
  destruct (e <=? 128 - 24) eqn:E; [reflexivity |]. apply Z.leb_gt in E. lia.
Qed.

(** The quotient of a valid mantissa by that of 1.0 is exact. *)
Lemma div_core_one (m : positive) (e : Z) :
  bounded f32_prec f32_emax m e = true ->
  SFdiv_core_binary f32_prec f32_emax (Zpos m) e 8388608 (-23)
  = if e =? -149 then (Zpos m, e, loc_Exact) else (Zpos m~0, e - 1, loc_Exact).
Proof.
  intros Hb. destruct (valid_cases m e Hb) as [He Hc].
  unfold SFdiv_core_binary, f32_prec, f32_emax, fexp, emin.
  change (Zdigits2 8388608) with 24. simpl Zdigits2.
  destruct Hc as [[-> Hd] | [Hlo Hd]].
  - replace (Z.min (Z.max (Z.pos (digits2_pos m) + -149 - (24 + -23) - 24) (3 - 128 - 24))
                   (-149 - -23))
      with (-149) by lia.
    change (-149 - -23 - -149) with 23.
    rewrite Z.shiftl_mul_pow2 by lia.
    change (2 ^ 23) with 8388608.
    rewrite div_eucl_mul by lia. reflexivity.
  - rewrite Hd.
    replace (Z.min (Z.max (24 + e - (24 + -23) - 24) (3 - 128 - 24)) (e - -23))
      with (e - 1) by lia.
    replace (e - -23 - (e - 1)) with 24 by lia.
    rewrite Z.shiftl_mul_pow2 by lia.
    replace (Z.pos m * 2 ^ 24) with (Z.pos m~0 * 8388608)
      by (change (2 ^ 24) with 16777216; lia).
    rewrite div_eucl_mul by lia.
    destruct (e =? -149) eqn:E; [apply Z.eqb_eq in E; lia | reflexivity].
Qed.

(** [x / 1.0] is [x], for every valid binary32 value. *)
Lemma f32_div_one (x : spec_float) : f32_valid x = true -> f32_div x f32_one = x.
Proof.
  destruct x as [s|s| |s m e]; intros Hv.
  - destruct s; reflexivity.
  - destruct s; reflexivity.
  - reflexivity.
  - unfold f32_valid in Hv. simpl in Hv.
    unfold f32_div, f32_one, SFdiv. rewrite (div_core_one m e Hv).
    rewrite xorb_false_r.
    destruct (e =? -149) eqn:E.
    + now apply round_exact_canonical.
    + apply round_exact_double; [exact Hv | apply Z.eqb_neq in E].
      destruct (valid_cases m e Hv) as [_ [[? _]|[? _]]]; lia.
Qed.

End FloatFacts.

Lemma mapi_from_id {A} (f : nat -> A -> A) (l : list A) (i : nat) :
  Forall (fun x => forall j, f j x = x) l -> mapi_from i f l = l.
Proof.
  intros Hall. revert i. induction Hall as [|x l Hx _ IH]; intros i; simpl.
  - reflexivity.
  - now rewrite Hx, IH.
Qed.

Lemma normalize_d_id (tensor : Tensor) :
  (3 <= length (t_shape tensor))%nat -> tensor_valid tensor ->
  normalize mean_d std_d tensor = Ok tensor.
Proof.
  intros Hnd Hvalid. unfold normalize.
  destruct (length (t_shape tensor) <? 3)%nat eqn:E; [apply Nat.ltb_lt in E; lia |].
  simpl. rewrite mapi_from_id.
  - destruct tensor; reflexivity.
  - eapply Forall_impl; [exact Hvalid |]. intros x Hx j. simpl in Hx.
    now rewrite f32_sub_zero, f32_div_one.
Qed.

(** C9: the normalization of the depth pipeline (mean 0, standard
    deviation 1) returns every float tensor of three or more dimensions as
    it is, so the depth pipeline is resizing followed by the conversion to
    a tensor. *)
Theorem normalize_d_identity `{Transforms} :
  (forall tensor : Tensor,
      (3 <= length (t_shape tensor))%nat -> tensor_valid tensor ->
      normalize [f32_zero] [f32_one] tensor = Ok tensor)
  /\ (forall x : image_F, preprocess_d x = Ok (to_tensor_F (resize_F x))).
Proof.
  split.
  - apply normalize_d_id.
  - intros x. unfold preprocess_d. apply normalize_d_id.
    + rewrite to_tensor_F_ndim. lia.
    + apply to_tensor_F_valid.
Qed.

Lemma normalize_d_identity_example :
  normalize [f32_zero] [f32_one]
    (mkTensor [1; 1; 3]%nat
       [S754_finite false 8388608 (-23); S754_finite true 12345 (-149); S754_zero true])
  = Ok (mkTensor [1; 1; 3]%nat
       [S754_finite false 8388608 (-23); S754_finite true 12345 (-149); S754_zero true])
  /\ @preprocess_d Toy.transforms Toy.frame = Ok (Toy.pixels_to_tensor Toy.frame).
Proof.
  destruct (@normalize_d_identity Toy.transforms) as [Hn Hp]. split.
  - apply Hn; [simpl; lia |].
    unfold tensor_valid; simpl. repeat (constructor; [reflexivity |]). constructor.
  - apply Hp.
Defined.

(** ** The train/validation split *)

(** In double precision, [0.2 * 10] is [2.0]: the exact ceiling used by
    the model agrees with scikit-learn's on the example of the
    specification. *)
Example double_product_example :
  SFmul 53 1024 (SFdiv 53 1024 (f64_of_Z 2) (f64_of_Z 10)) (f64_of_Z 10) = f64_of_Z 2
  /\ Qceiling ((2 # 10) * inject_Z 10) = 2%Z.
Proof. split; reflexivity. Qed.

Lemma ceil_bounds (q : Q) (n : nat) :
  (0 < q)%Q -> (q < 1)%Q ->
  (0 <= Qceiling (q * inject_Z (Z.of_nat n)) <= Z.of_nat n)%Z
  /\ ((0 < n)%nat -> (0 < Qceiling (q * inject_Z (Z.of_nat n)))%Z).
Proof.
  intros Hq0 Hq1.
  assert (0 <= inject_Z (Z.of_nat n))%Q as HN.
  { change (inject_Z 0 <= inject_Z (Z.of_nat n))%Q. rewrite <- Zle_Qle. lia. }
  split; [split|].
  - rewrite <- (Qceiling_Z 0). apply Qceiling_resp_le.
    apply Qmult_le_0_compat; [apply Qlt_le_weak; exact Hq0 | exact HN].
  - rewrite <- (Qceiling_Z (Z.of_nat n)) at 2. apply Qceiling_resp_le.
    rewrite <- (Qmult_1_l (inject_Z (Z.of_nat n))) at 2.
    apply Qmult_le_compat_r; [apply Qlt_le_weak; exact Hq1 | exact HN].
  - intros Hn.
    assert (0 < q * inject_Z (Z.of_nat n))%Q as Hpos.
    { apply Qmult_lt_0_compat; [exact Hq0 |].
      change (inject_Z 0 < inject_Z (Z.of_nat n))%Q. rewrite <- Zlt_Qlt. lia. }
    pose proof (Qle_ceiling (q * inject_Z (Z.of_nat n))) as Hc.
    pose proof (Qlt_le_trans _ _ _ Hpos Hc) as H0.
    change (inject_Z 0 < inject_Z (Qceiling (q * inject_Z (Z.of_nat n))))%Q in H0.
    rewrite <- Zlt_Qlt in H0. exact H0.
Qed.

Lemma validate_ok (n : nat) (q : Q) (tr te : Z) :
  Sklearn.validate_shuffle_split n q = Ok (tr, te) ->
  (0 < te)%Z /\ (0 < tr)%Z /\ (tr + te = Z.of_nat n)%Z
  /\ te = Qceiling (q * inject_Z (Z.of_nat n)).
Proof.
  unfold Sklearn.validate_shuffle_split.
  destruct (Qle_bool q 0) eqn:E0; [discriminate|].
  destruct (Qle_bool 1 q) eqn:E1; [discriminate|]. simpl.
  assert (0 < q)%Q as Hq0.
  { apply Qnot_le_lt. intros Hle. apply Qle_bool_iff in Hle. congruence. }
  assert (q < 1)%Q as Hq1.
  { apply Qnot_le_lt. intros Hle. apply Qle_bool_iff in Hle. congruence. }
  destruct (ceil_bounds q n Hq0 Hq1) as [[Hlo Hhi] Hpos].
  set (c := Qceiling (q * inject_Z (Z.of_nat n))) in *.
  destruct (Z.of_nat n <? Z.of_nat n - c + c)%Z eqn:E2; [discriminate|].
  destruct (Z.of_nat n - c =? 0)%Z eqn:E3; [discriminate|].
  intros [= <- <-]. apply Z.eqb_neq in E3.
  assert (0 < n)%nat by lia. specialize (Hpos H). lia.
Qed.


Lemma arange_seq (a b : nat) :
  Sklearn.arange (Z.of_nat a) (Z.of_nat a + Z.of_nat b) = map Z.of_nat (seq a b).
Proof.
  unfold Sklearn.arange.
  replace (Z.to_nat (Z.of_nat a + Z.of_nat b - Z.of_nat a)) with b by lia.
  replace (seq a b) with (map (Nat.add a) (seq 0 b)).
  - rewrite map_map. apply map_ext. intros i. lia.
  - pose proof (fmap_add_seq a 0 b) as E. rewrite Nat.add_0_r in E. exact E.
Qed.

Lemma clamp_nonneg (n k : Z) : (0 <= k)%Z -> Sklearn.clamp n k = Z.min k n.
Proof.
  intros Hk. unfold Sklearn.clamp.
  destruct (k <? 0)%Z eqn:E; [apply Z.ltb_lt in E; lia | reflexivity].
Qed.

Lemma slice_prefix {A} (l : list A) (k : Z) :
  (0 <= k)%Z -> Sklearn.slice l 0 k = take (Z.to_nat k) l.
Proof.
  intros Hk. unfold Sklearn.slice. rewrite !clamp_nonneg by lia.
  replace (Z.to_nat (Z.min 0 (Z.of_nat (length l)))) with 0%nat by lia.
  rewrite drop_0.
  destruct (Z.le_gt_cases k (Z.of_nat (length l))).
  - f_equal. lia.
  - rewrite !take_ge; [reflexivity | lia | lia].
Qed.

Lemma slice_suffix {A} (l : list A) (a b : Z) :
  (0 <= a)%Z -> (a <= b)%Z -> b = Z.of_nat (length l) -> Sklearn.slice l a b = drop (Z.to_nat a) l.
Proof.
  intros Ha Hab ->. unfold Sklearn.slice. rewrite !clamp_nonneg by lia.
  replace (Z.to_nat (Z.min a (Z.of_nat (length l)))) with (Z.to_nat a) by lia.
  apply take_ge. rewrite length_drop. lia.
Qed.

Section SplitFacts.
Context `{Rng}.

Lemma split_indices_ok (n : nat) (tr te : Z) (sh : bool) (rs : option Z) (g : rng_state) :
  (0 < te)%Z -> (0 < tr)%Z -> (tr + te = Z.of_nat n)%Z ->
  exists it iv,
    fst (Sklearn.split_indices n tr te sh rs g) = Ok (map Z.of_nat it, map Z.of_nat iv)
    /\ Permutation (it ++ iv) (seq 0 n)
    /\ length it = Z.to_nat tr /\ length iv = Z.to_nat te.
Proof.
  intros Hte Htr Hsum. unfold Sklearn.split_indices. destruct sh.
  - unfold Sklearn.validate_counts.
    destruct (Z.of_nat n <=? te)%Z eqn:E1; [apply Z.leb_le in E1; lia |].
    destruct (te <=? 0)%Z eqn:E2; [apply Z.leb_le in E2; lia |].
    destruct (Z.of_nat n <=? tr)%Z eqn:E3; [apply Z.leb_le in E3; lia |].
    destruct (tr <=? 0)%Z eqn:E4; [apply Z.leb_le in E4; lia |].
    destruct (Z.of_nat n <? tr + te)%Z eqn:E5; [apply Z.ltb_lt in E5; lia |].
    simpl.
    pose proof (rng_permutation_perm (Sklearn.check_random_state rs g) n) as Hp.
    destruct (rng_permutation (Sklearn.check_random_state rs g) n) as [p g'] eqn:Ep.
    simpl in Hp. simpl.
    assert (length p = n) as Hlen.
    { rewrite (Permutation_length Hp). apply length_seq. }
    exists (drop (Z.to_nat te) p), (take (Z.to_nat te) p).
    split; [| split; [| split]].
    + f_equal. f_equal.
      * rewrite slice_suffix; [| lia | lia | rewrite length_map; lia].
        symmetry. apply fmap_drop.
      * rewrite slice_prefix by lia. symmetry. apply fmap_take.
    + rewrite <- Hp. rewrite Permutation_app_comm. now rewrite take_drop.
    + rewrite length_drop. lia.
    + rewrite length_take. lia.
  - simpl. exists (seq 0 (Z.to_nat tr)), (seq (Z.to_nat tr) (Z.to_nat te)).
    split; [| split; [| split]].
    + f_equal. f_equal.
      * rewrite <- arange_seq. f_equal. simpl. lia.
      * rewrite <- arange_seq. f_equal; lia.
    + replace n with (Z.to_nat tr + Z.to_nat te)%nat by lia.
      rewrite seq_app. reflexivity.
    + apply length_seq.
    + apply length_seq.
Qed.

Lemma split_indices_global (n : nat) (tr te : Z) (sh : bool) (rs : option Z) (g : rng_state) :
  sh = false \/ is_Some rs -> snd (Sklearn.split_indices n tr te sh rs g) = g.
Proof.
  intros Hdet. unfold Sklearn.split_indices. destruct sh.
  - destruct (Sklearn.validate_counts n tr te); [| reflexivity].
    destruct (rng_permutation (Sklearn.check_random_state rs g) n) as [p g'].
    destruct Hdet as [? | [seed ->]]; [discriminate | reflexivity].
  - reflexivity.
Qed.

End SplitFacts.

Lemma list_getitem_nat {A} (a : list A) (i : nat) (x : A) :
  a !! i = Some x -> Sklearn.list_getitem a (Z.of_nat i) = Ok x.
Proof.
  intros Hi. pose proof (lookup_lt_Some _ _ _ Hi) as Hlt.
  unfold Sklearn.list_getitem.
  destruct (Z.of_nat i <? 0)%Z eqn:E; [apply Z.ltb_lt in E; lia |].
  destruct (0 <=? Z.of_nat i)%Z eqn:E1; [| apply Z.leb_gt in E1; lia].
  destruct (Z.of_nat i <? Z.of_nat (length a))%Z eqn:E2; [| apply Z.ltb_ge in E2; lia].
  simpl. unfold py_index. rewrite Nat2Z.id.
  now rewrite Hi.
Qed.

Lemma safe_indexing_nat {A} (a : list A) (idx : list nat) :
  Forall (fun i => (i < length a)%nat) idx ->
  Sklearn.safe_indexing a (map Z.of_nat idx) = Ok (Sklearn.samples_at a idx)
  /\ length (Sklearn.samples_at a idx) = length idx.
Proof.
  unfold Sklearn.safe_indexing, Sklearn.samples_at.
  induction 1 as [|i idx Hi _ [IH IHlen]]; [split; reflexivity |].
  destruct (lookup_lt_is_Some_2 a i Hi) as [x Hx].
  simpl. rewrite (list_getitem_nat a i x Hx). simpl. rewrite IH. simpl.
  rewrite Hx. simpl. split; [reflexivity | f_equal; exact IHlen].
Qed.

Lemma perm_in_range (it iv : list nat) (n : nat) :
  Permutation (it ++ iv) (seq 0 n) ->
  Forall (fun i => (i < n)%nat) it /\ Forall (fun i => (i < n)%nat) iv.
Proof.
  intros Hp.
  assert (Forall (fun i => (i < n)%nat) (it ++ iv)) as Hall.
  { rewrite Hp. apply Forall_forall. intros i Hi.
    apply elem_of_seq in Hi. lia. }
  apply Forall_app in Hall. exact Hall.
Qed.

Section SplitFacts2.
Context `{Rng}.

Lemma index_arrays {A} (arrays : list (list A)) (n : nat) (it iv : list nat) :
  Forall (fun a => length a = n) arrays ->
  Forall (fun i => (i < n)%nat) it -> Forall (fun i => (i < n)%nat) iv ->
  Sklearn.rmapM
    (fun a => rbind (Sklearn.safe_indexing a (map Z.of_nat it)) (fun a_train =>
              rbind (Sklearn.safe_indexing a (map Z.of_nat iv)) (fun a_test =>
              Ok [a_train; a_test]))) arrays
  = Ok (map (fun a => [Sklearn.samples_at a it; Sklearn.samples_at a iv]) arrays).
Proof.
  intros Hall Hit Hiv. induction Hall as [|a l Ha _ IH]; [reflexivity |].
  simpl.
  rewrite (proj1 (safe_indexing_nat a it ltac:(now rewrite Ha))).
  rewrite (proj1 (safe_indexing_nat a iv ltac:(now rewrite Ha))).
  simpl. rewrite IH. reflexivity.
Qed.

Lemma same_lengths {A} (arrays : list (list A)) (n : nat) :
  forallb (fun a => (length a =? n)%nat) arrays = true <->
  Forall (fun a => length a = n) arrays.
Proof.
  rewrite forallb_forall, Forall_forall. split; intros Hall a Ha.
  - apply Nat.eqb_eq, Hall. now apply list_elem_of_In.
  - apply Nat.eqb_eq, Hall. now apply list_elem_of_In.
Qed.

(** What a successful [train_test_split] returns. *)
Lemma train_test_split_ok {A} (arrays : list (list A)) (q : Q) (sh : bool)
    (rs : option Z) (g g' : rng_state) (parts : list (list A)) :
  Sklearn.train_test_split arrays q sh rs g = (Ok parts, g') ->
  exists (n : nat) (it iv : list nat),
    Forall (fun a => length a = n) arrays
    /\ Permutation (it ++ iv) (seq 0 n)
    /\ Z.of_nat (length iv) = Qceiling (q * inject_Z (Z.of_nat n))
    /\ (length it + length iv = n)%nat
    /\ parts = concat (map (fun a => [Sklearn.samples_at a it; Sklearn.samples_at a iv])
                           arrays)
    /\ (sh = false \/ is_Some rs -> g' = g).
Proof.
  unfold Sklearn.train_test_split.
  destruct arrays as [|a0 rest]; [discriminate |].
  set (arrays := a0 :: rest). set (n := length a0).
  destruct (forallb (fun a => (length a =? n)%nat) arrays) eqn:Hlen; [| discriminate].
  simpl negb. cbv iota.
  destruct (Sklearn.validate_shuffle_split n q) as [[tr te] | e] eqn:Hv; [| discriminate].
  destruct (validate_ok n q tr te Hv) as [Hte [Htr [Hsum Hceil]]].
  destruct (split_indices_ok n tr te sh rs g Hte Htr Hsum)
    as [it [iv [Hidx [Hp [Hlt Hlv]]]]].
  pose proof (split_indices_global n tr te sh rs g) as Hg.
  destruct (Sklearn.split_indices n tr te sh rs g) as [[[train test] | e] g1];
    [| discriminate].
  simpl in Hidx, Hg. injection Hidx as -> ->.
  apply same_lengths in Hlen.
  destruct (perm_in_range it iv n Hp) as [Hit Hiv].
  rewrite (index_arrays arrays n it iv Hlen Hit Hiv). simpl. intros [= <- <-].
  exists n, it, iv. repeat split; try assumption; try lia.
Qed.


End SplitFacts2.

(** ** Tensors and containers *)

Lemma stack_ok (ts : list Tensor) (t : Tensor) :
  stack ts = Ok t ->
  tensor_len t = Ok (length ts)
  /\ exists t0, head ts = Some t0 /\ t_shape t = length ts :: t_shape t0
                /\ t_data t = concat (map t_data ts).
Proof.
  unfold stack. destruct ts as [|t0 ts']; [discriminate |].
  destruct (forallb _ _); [| discriminate].
  intros [= <-]. split; [reflexivity |]. exists t0. repeat split.
Qed.




Section LoaderFacts.
Context `{FileSystem} `{Transforms} `{Rng}.

Lemma bind_ok_inv {A B} (m : M A) (k : A -> M B) (w : world) (b : B) (w' : world) :
  bind m k w = (Ok b, w') ->
  exists a w1, m w = (Ok a, w1) /\ k a w1 = (Ok b, w').
Proof. unfold bind. destruct (m w) as [[a|e] w1]; [eauto | discriminate]. Qed.

Lemma lift_ok_inv {A} (r : result A) (w : world) (a : A) (w' : world) :
  lift r w = (Ok a, w') -> r = Ok a /\ w' = w.
Proof. unfold lift. intros [= -> ->]. split; reflexivity. Qed.

Lemma ret_ok_inv {A} (x : A) (w : world) (a : A) (w' : world) :
  ret x w = (Ok a, w') -> a = x /\ w' = w.
Proof. unfold ret. intros [= -> ->]. split; reflexivity. Qed.

Lemma glob_ok_inv (root pattern : string) (w : world) (names : list string) (w' : world) :
  glob root pattern w = (Ok names, w') -> names = fs_glob root pattern.
Proof. unfold glob, bind, log, ret. intros [= <- _]. reflexivity. Qed.

Ltac step H :=
  let a := fresh "a" in
  let w := fresh "w" in
  let E := fresh "E" in
  apply bind_ok_inv in H as (a & w & E & H).

Tactic Notation "unbind" hyp(H) "as" simple_intropattern(a) ident(w) ident(E) :=
  apply bind_ok_inv in H as (a & w & E & H).



Lemma depth_train_loop_length (d : string) (names : list string)
    (acc : depth_lists) (w : world) (acc' : depth_lists) (w' : world) :
  depth_train_loop d names acc w = (Ok acc', w') ->
  length (l_color acc') = (length (l_color acc) + length names)%nat
  /\ length (l_sensor acc') = (length (l_sensor acc) + length names)%nat
  /\ length (l_mask acc') = (length (l_mask acc) + length names)%nat
  /\ length (l_target acc') = (length (l_target acc) + length names)%nat.
Proof.
  revert acc w. induction names as [|name names IH]; intros acc w Hrun.
  - apply ret_ok_inv in Hrun as [-> _]. simpl. lia.
  - simpl in Hrun. do 3 step Hrun. destruct a1 as [file_prefix file_suffix].
    do 6 step Hrun.
    apply IH in Hrun. simpl in Hrun. rewrite !length_app in Hrun. simpl in *. lia.
Qed.

Lemma depth_test_loop_spec (d : string) (names : list string)
    (acc : depth_lists) (w : world) (acc' : depth_lists) (w' : world) :
  depth_test_loop d names acc w = (Ok acc', w') ->
  (length (l_color acc') = (length (l_color acc) + length names)%nat
   /\ length (l_sensor acc') = (length (l_sensor acc) + length names)%nat
   /\ length (l_mask acc') = (length (l_mask acc) + length names)%nat
   /\ length (l_target acc') = (length (l_target acc) + length names)%nat)
  /\ (l_target acc = map zeros_like (l_color acc) ->
      l_target acc' = map zeros_like (l_color acc')).
Proof.
  revert acc w. induction names as [|name names IH]; intros acc w Hrun.
  - apply ret_ok_inv in Hrun as [-> _]. simpl. split; [lia | auto].
  - simpl in Hrun. do 6 step Hrun.
    apply IH in Hrun. simpl in Hrun. rewrite !length_app in Hrun. simpl in *.
    destruct Hrun as [Hlen Hz]. split; [lia |].
    intros HY. apply Hz. rewrite map_app, HY. reflexivity.
Qed.

Lemma as_path_ok_inv (load_dir : py_value) (w : world) (root : string) (w' : world) :
  as_path load_dir w = (Ok root, w') ->
  (load_dir = PyPath root \/ load_dir = PyStr root) /\ w' = w.
Proof.
  destruct load_dir; simpl; unfold ret, raise; intros [= <- <-] || intros [=]; auto.
Qed.

Lemma train_test_split_world (arrays : list (list Tensor)) (q : Q) (sh : bool)
    (rs : option Z) (w : world) (parts : list (list Tensor)) (w' : world) :
  train_test_split arrays q sh rs w = (Ok parts, w') ->
  Sklearn.train_test_split arrays q sh rs (w_rng w) = (Ok parts, w_rng w')
  /\ w_trace w' = w_trace w.
Proof.
  unfold train_test_split.
  destruct (Sklearn.train_test_split arrays q sh rs (w_rng w)) as [r g].
  intros [= -> <-]. split; reflexivity.
Qed.

Lemma samples_at_length {A} (a : list A) (idx : list nat) :
  Forall (fun i => (i < length a)%nat) idx ->
  length (Sklearn.samples_at a idx) = length idx.
Proof. intros Hall. apply (safe_indexing_nat a idx Hall). Qed.


(** What a successful run of the depth loader on the training set has done. *)
Lemma depth_loader_train_inv (load_dir : py_value) (q : Q) (sh : bool) (rs : option Z)
    (w : world) (r : depth_datasets) (w' : world) :
  load_kitti_depth_dataset load_dir q sh rs true w = (Ok r, w') ->
  exists (root : string) (acc : depth_lists) (it iv : list nat)
         (tr va : KittiDepthDataset) (w0 w1 : world),
    r = TrainVal tr va
    /\ (load_dir = PyPath root \/ load_dir = PyStr root)
    /\ depth_train_loop root (fs_glob root "val_selection_cropped/image/*.png") no_lists w0
       = (Ok acc, w1)
    /\ length (l_color acc) = length (fs_glob root "val_selection_cropped/image/*.png")
    /\ length (l_sensor acc) = length (l_color acc)
    /\ length (l_mask acc) = length (l_color acc)
    /\ length (l_target acc) = length (l_color acc)
    /\ Permutation (it ++ iv) (seq 0 (length (l_color acc)))
    /\ Z.of_nat (length iv) = Qceiling (q * inject_Z (Z.of_nat (length (l_color acc))))
    /\ depth_init (Sklearn.samples_at (l_color acc) it) (Sklearn.samples_at (l_sensor acc) it)
                  (Sklearn.samples_at (l_mask acc) it) (Sklearn.samples_at (l_target acc) it) = Ok tr
    /\ depth_init (Sklearn.samples_at (l_color acc) iv) (Sklearn.samples_at (l_sensor acc) iv)
                  (Sklearn.samples_at (l_mask acc) iv) (Sklearn.samples_at (l_target acc) iv) = Ok va.
Proof.
  intros Hrun. unfold load_kitti_depth_dataset in Hrun.
  unbind Hrun as root w0 Eroot. apply as_path_ok_inv in Eroot as [Hdir ->].
  unbind Hrun as names w1 Eglob. pose proof (glob_ok_inv _ _ _ _ _ Eglob) as ->.
  unbind Hrun as acc w2 Eloop.
  pose proof (depth_train_loop_length _ _ _ _ _ _ Eloop) as (Hc & Hs & Hm & Ht).
  simpl in Hc, Hs, Hm, Ht.
  unbind Hrun as parts w3 Esplit. apply train_test_split_world in Esplit as [Hsplit _].
  apply train_test_split_ok in Hsplit as (n & it & iv & Hall & Hp & Hceil & Hsum & -> & _).
  assert (n = length (l_color acc)) as -> by (inversion Hall; congruence).
  simpl in Hrun.
  unbind Hrun as d1 w4 Etr. apply lift_ok_inv in Etr as [Htr _].
  unbind Hrun as d2 w5 Eva. apply lift_ok_inv in Eva as [Hva _].
  apply ret_ok_inv in Hrun as [-> _].
  exists root, acc, it, iv, d1, d2, w1, w2.
  repeat split; try assumption; congruence.
Qed.

(** What a successful run of the depth loader on the test set has done. *)
Lemma depth_loader_test_inv (load_dir : py_value) (q : Q) (sh : bool) (rs : option Z)
    (w : world) (r : depth_datasets) (w' : world) :
  load_kitti_depth_dataset load_dir q sh rs false w = (Ok r, w') ->
  exists (root : string) (acc : depth_lists) (te : KittiDepthDataset) (w0 w1 : world),
    r = Test te
    /\ (load_dir = PyPath root \/ load_dir = PyStr root)
    /\ depth_test_loop root (fs_glob root "test_depth_completion_anonymous/image/*.png")
         no_lists w0 = (Ok acc, w1)
    /\ length (l_color acc)
       = length (fs_glob root "test_depth_completion_anonymous/image/*.png")
    /\ length (l_sensor acc) = length (l_color acc)
    /\ length (l_mask acc) = length (l_color acc)
    /\ length (l_target acc) = length (l_color acc)
    /\ l_target acc = map zeros_like (l_color acc)
    /\ depth_init (l_color acc) (l_sensor acc) (l_mask acc) (l_target acc) = Ok te.
Proof.
  intros Hrun. unfold load_kitti_depth_dataset in Hrun.
  unbind Hrun as root w0 Eroot. apply as_path_ok_inv in Eroot as [Hdir ->].
  unbind Hrun as names w1 Eglob. pose proof (glob_ok_inv _ _ _ _ _ Eglob) as ->.
  unbind Hrun as acc w2 Eloop.
  pose proof (depth_test_loop_spec _ _ _ _ _ _ Eloop) as [(Hc & Hs & Hm & Ht) Hz].
  simpl in Hc, Hs, Hm, Ht. specialize (Hz eq_refl).
  unbind Hrun as d1 w3 Ete. apply lift_ok_inv in Ete as [Hte _].
  apply ret_ok_inv in Hrun as [-> _].
  exists root, acc, d1, w1, w2.
  repeat split; try assumption; congruence.
Qed.
End LoaderFacts.

Lemma semantics_init_len (X Y : list Tensor) (d : KittiSemanticsDataset) :
  semantics_init X Y = Ok d ->
  tensor_len (ds_X d) = Ok (length X) /\ tensor_len (ds_Y d) = Ok (length Y)
  /\ stack X = Ok (ds_X d) /\ stack Y = Ok (ds_Y d).
Proof.
  unfold semantics_init.
  destruct (stack X) as [x|] eqn:EX; [| discriminate].
  destruct (stack Y) as [y|] eqn:EY; [| discriminate].
  simpl. intros [= <-]. simpl.
  split; [apply (stack_ok _ _ EX) |]. split; [apply (stack_ok _ _ EY) |]. auto.
Qed.

Lemma depth_init_len (Xc Xs Xm Y : list Tensor) (d : KittiDepthDataset) :
  depth_init Xc Xs Xm Y = Ok d ->
  depth_len d = Ok (length Xc)
  /\ field_lengths d = [Ok (length Xc); Ok (length Xs); Ok (length Xm); Ok (length Y)]
  /\ semantics_init Xc Y = Ok (ds_super d).
Proof.
  unfold depth_init.
  destruct (semantics_init Xc Y) as [s|] eqn:ES; [| discriminate].
  destruct (stack Xs) as [xs|] eqn:EXs; [| discriminate].
  destruct (stack Xm) as [xm|] eqn:EXm; [| discriminate].
  simpl. intros [= <-].
  destruct (semantics_init_len _ _ _ ES) as (HX & HY & _).
  unfold depth_len, semantics_len, field_lengths. simpl.
  rewrite HX, HY, (proj1 (stack_ok _ _ EXs)), (proj1 (stack_ok _ _ EXm)). auto.
Qed.

Lemma partition_facts (it iv : list nat) (n : nat) :
  Permutation (it ++ iv) (seq 0 n) ->
  (forall i, i ∈ it -> i ∉ iv)
  /\ (length it + length iv = n)%nat
  /\ Forall (fun i => (i < n)%nat) it /\ Forall (fun i => (i < n)%nat) iv.
Proof.
  intros Hp. split; [| split].
  - assert (NoDup (it ++ iv)) as Hnd by (rewrite Hp; apply NoDup_seq).
    apply NoDup_app in Hnd as (_ & Hd & _). exact Hd.
  - apply Permutation_length in Hp. rewrite length_app, length_seq in Hp. exact Hp.
  - now apply perm_in_range.
Qed.

Section MainFacts.
Context `{FileSystem} `{Transforms} `{Rng}.






(** C7, as the code has it: the constructor stacks each of its four lists
    on its own and reports the length of the colour list, whatever the
    lengths of the others; the datasets the depth loader returns have four
    fields of one length, because the loader fills its four lists in step
    and splits them at the same positions. *)
Theorem depth_dataset_lengths :
  (forall (Xc Xs Xm Y : list Tensor) (d : KittiDepthDataset),
      depth_init Xc Xs Xm Y = Ok d ->
      depth_len d = Ok (length Xc)
      /\ field_lengths d = [Ok (length Xc); Ok (length Xs); Ok (length Xm); Ok (length Y)])
  /\ (forall load_dir val_ratio shuffle random_state train w r w',
      load_kitti_depth_dataset load_dir val_ratio shuffle random_state train w = (Ok r, w') ->
      Forall (fun d => exists n, depth_len d = Ok n
                                 /\ field_lengths d = [Ok n; Ok n; Ok n; Ok n])
             (datasets_of r)).
Proof.
  split.
  - intros Xc Xs Xm Y d Hd. destruct (depth_init_len _ _ _ _ _ Hd) as (Hl & Hf & _). auto.
  - intros load_dir val_ratio shuffle random_state [] w r w' Hrun.
    + apply depth_loader_train_inv in Hrun
        as (root & acc & it & iv & tr & va & w0 & w1 & -> & _ & _ & Hc & Hs & Hm
            & Ht & Hp & _ & Htr & Hva).
      destruct (partition_facts it iv _ Hp) as (_ & _ & Hit & Hiv).
      destruct (depth_init_len _ _ _ _ _ Htr) as (Ltr & Ftr & _).
      destruct (depth_init_len _ _ _ _ _ Hva) as (Lva & Fva & _).
      rewrite (samples_at_length (l_color acc) it) in Ltr, Ftr by assumption.
      rewrite (samples_at_length (l_color acc) iv) in Lva, Fva by assumption.
      rewrite (samples_at_length (l_sensor acc) it), (samples_at_length (l_mask acc) it),
        (samples_at_length (l_target acc) it) in Ftr
        by (rewrite ?Hs, ?Hm, ?Ht; assumption).
      rewrite (samples_at_length (l_sensor acc) iv), (samples_at_length (l_mask acc) iv),
        (samples_at_length (l_target acc) iv) in Fva
        by (rewrite ?Hs, ?Hm, ?Ht; assumption).
      simpl. apply List.Forall_cons; [exists (length it); split; assumption |].
      apply List.Forall_cons; [exists (length iv); split; assumption |].
      apply List.Forall_nil.
    + apply depth_loader_test_inv in Hrun
        as (root & acc & te & w0 & w1 & -> & _ & _ & Hc & Hs & Hm & Ht & _ & Hte).
      destruct (depth_init_len _ _ _ _ _ Hte) as (Lte & Fte & _).
      rewrite Hs, Hm, Ht in Fte.
      simpl. apply List.Forall_cons; [exists (length (l_color acc)); split; assumption |].
      apply List.Forall_nil.
Qed.

(** *** Which exceptions can be raised *)

Lemma rbind_avoids {A B} (r : result A) (k : A -> result B) :
  r <> Err load_dir_error -> (forall a, k a <> Err load_dir_error) -> rbind r k <> Err load_dir_error.
Proof. destruct r as [a|e]; simpl; [auto | congruence]. Qed.

Lemma rmapM_avoids {A B} (f : A -> result B) (l : list A) :
  (forall a, f a <> Err load_dir_error) -> Sklearn.rmapM f l <> Err load_dir_error.
Proof.
  intros Hf. induction l as [|a l IH]; [discriminate |].
  simpl. apply rbind_avoids; [apply Hf |]. intros b.
  apply rbind_avoids; [exact IH | discriminate].
Qed.

Lemma normalize_avoids (mean std : list spec_float) (t : Tensor) :
  normalize mean std t <> Err load_dir_error.
Proof. unfold normalize. repeat case_match; discriminate. Qed.

Lemma preprocess_c_avoids (x : Image) : preprocess_c x <> Err load_dir_error.
Proof.
  unfold preprocess_c. case_match; [apply normalize_avoids | discriminate].
Qed.

Lemma preprocess_d_avoids (x : image_F) : preprocess_d x <> Err load_dir_error.
Proof. apply normalize_avoids. Qed.

Lemma generate_mask_avoids (x : Image) : generate_mask x <> Err load_dir_error.
Proof. rewrite generate_mask_eq. discriminate. Qed.

Lemma py_index_avoids {A} (l : list A) (i : nat) : py_index l i <> Err load_dir_error.
Proof. unfold py_index. case_match; discriminate. Qed.

Lemma file_prefix_suffix_avoids (name : string) : file_prefix_suffix name <> Err load_dir_error.
Proof.
  unfold file_prefix_suffix.
  apply rbind_avoids; [unfold PyStr.split, image_token; discriminate |]. intros l.
  repeat (apply rbind_avoids; [apply py_index_avoids | intros ?]). discriminate.
Qed.

Lemma stack_avoids (ts : list Tensor) : stack ts <> Err load_dir_error.
Proof. unfold stack. repeat case_match; discriminate. Qed.

Lemma semantics_init_avoids (X Y : list Tensor) : semantics_init X Y <> Err load_dir_error.
Proof.
  unfold semantics_init.
  repeat (apply rbind_avoids; [apply stack_avoids | intros ?]). discriminate.
Qed.

Lemma depth_init_avoids (Xc Xs Xm Y : list Tensor) : depth_init Xc Xs Xm Y <> Err load_dir_error.
Proof.
  unfold depth_init. apply rbind_avoids; [apply semantics_init_avoids | intros ?].
  repeat (apply rbind_avoids; [apply stack_avoids | intros ?]). discriminate.
Qed.

Lemma list_getitem_avoids {A} (a : list A) (i : Z) : Sklearn.list_getitem a i <> Err load_dir_error.
Proof. unfold Sklearn.list_getitem. case_match; [apply py_index_avoids | discriminate]. Qed.

Lemma validate_avoids (n : nat) (q : Q) : Sklearn.validate_shuffle_split n q <> Err load_dir_error.
Proof. unfold Sklearn.validate_shuffle_split. repeat case_match; discriminate. Qed.

Lemma split_indices_avoids (n : nat) (tr tst : Z) (sh : bool) (rs : option Z)
    (g : rng_state) :
  fst (Sklearn.split_indices n tr tst sh rs g) <> Err load_dir_error.
Proof.
  unfold Sklearn.split_indices. destruct sh; [| simpl; discriminate].
  destruct (Sklearn.validate_counts n tr tst) as [u|e] eqn:Hc.
  - destruct (rng_permutation _ _). simpl. discriminate.
  - simpl. unfold Sklearn.validate_counts in Hc.
    repeat case_match; simplify_eq; discriminate.
Qed.

Lemma sk_split_avoids {A} (arrays : list (list A)) (q : Q) (sh : bool) (rs : option Z)
    (g : rng_state) :
  fst (Sklearn.train_test_split arrays q sh rs g) <> Err load_dir_error.
Proof.
  unfold Sklearn.train_test_split.
  destruct arrays as [|a0 rest]; [discriminate |].
  destruct (negb _); [discriminate |].
  pose proof (validate_avoids (length a0) q) as Hv.
  destruct (Sklearn.validate_shuffle_split (length a0) q) as [[tr tst]|e];
    [| simpl; intros [= ->]; now apply Hv].
  pose proof (split_indices_avoids (length a0) tr tst sh rs g) as Hs.
  destruct (Sklearn.split_indices (length a0) tr tst sh rs g) as [[[train test]|e] g'];
    [| simpl in *; intros [= ->]; now apply Hs].
  cbn [fst]. unfold rmap. apply rbind_avoids; [| discriminate].
  apply rmapM_avoids. intros a. unfold Sklearn.safe_indexing.
  repeat (apply rbind_avoids;
          [apply rmapM_avoids; intros ?; apply list_getitem_avoids | intros ?]).
  discriminate.
Qed.

Lemma bind_avoids {A B} (m : M A) (k : A -> M B) :
  avoids load_dir_error m -> (forall a, avoids load_dir_error (k a)) -> avoids load_dir_error (bind m k).
Proof.
  intros Hm Hk w. unfold bind. specialize (Hm w).
  destruct (m w) as [[a|e] w1]; simpl in *; [apply Hk | congruence].
Qed.

Lemma lift_avoids {A} (r : result A) : r <> Err load_dir_error -> avoids load_dir_error (lift r).
Proof. intros Hr w. exact Hr. Qed.

Lemma ret_avoids {A} (a : A) : avoids load_dir_error (ret a).
Proof. intros w. discriminate. Qed.

Lemma load_image_avoids (root rel : string) : avoids load_dir_error (load_image root rel).
Proof.
  unfold load_image. apply bind_avoids; [intros w; discriminate |].
  intros _. destruct (fs_open root rel); intros w; discriminate.
Qed.

Lemma glob_avoids (root pattern : string) : avoids load_dir_error (glob root pattern).
Proof.
  unfold glob. apply bind_avoids; [intros w; discriminate | intros _; apply ret_avoids].
Qed.

Lemma train_test_split_avoids arrays q sh rs :
  avoids load_dir_error (train_test_split arrays q sh rs).
Proof.
  intros w. unfold train_test_split.
  pose proof (sk_split_avoids arrays q sh rs (w_rng w)) as Hs.
  destruct (Sklearn.train_test_split arrays q sh rs (w_rng w)) as [r g]. exact Hs.
Qed.

Ltac avoid_step :=
  first
    [ apply ret_avoids
    | apply load_image_avoids
    | apply glob_avoids
    | apply train_test_split_avoids
    | apply lift_avoids;
      first [ apply preprocess_c_avoids | apply preprocess_d_avoids
            | apply generate_mask_avoids | apply file_prefix_suffix_avoids
            | apply semantics_init_avoids | apply depth_init_avoids ]
    | apply bind_avoids; [| intros ?] ].

Lemma semantics_train_loop_avoids d names X Y :
  avoids load_dir_error (semantics_train_loop d names X Y).
Proof.
  revert X Y. induction names as [|name names IH]; intros X Y; simpl.
  - apply ret_avoids.
  - repeat avoid_step. apply IH.
Qed.

Lemma semantics_test_loop_avoids d names X Y :
  avoids load_dir_error (semantics_test_loop d names X Y).
Proof.
  revert X Y. induction names as [|name names IH]; intros X Y; simpl.
  - apply ret_avoids.
  - repeat avoid_step. apply IH.
Qed.

Lemma depth_train_loop_avoids d names acc :
  avoids load_dir_error (depth_train_loop d names acc).
Proof.
  revert acc. induction names as [|name names IH]; intros acc; simpl.
  - apply ret_avoids.
  - repeat avoid_step. destruct a1. repeat avoid_step. apply IH.
Qed.

Lemma depth_test_loop_avoids d names acc :
  avoids load_dir_error (depth_test_loop d names acc).
Proof.
  revert acc. induction names as [|name names IH]; intros acc; simpl.
  - apply ret_avoids.
  - repeat avoid_step. apply IH.
Qed.

(** C6: a [load_dir] that is neither a Path nor a str makes both loaders
    raise the type error at once, in the world they were called in (no
    file access logged, generator untouched); for a Path or a str neither
    loader raises that type error. *)
Theorem load_dir_type_check (load_dir : py_value) (val_ratio : Q) (shuffle : bool)
    (random_state : option Z) (train : bool) (w : world) :
  (is_path_like load_dir = false ->
     load_kitti_semantics_dataset load_dir val_ratio shuffle random_state w
       = (Err (TypeError "load_dir must be Path or str"), w)
     /\ load_kitti_depth_dataset load_dir val_ratio shuffle random_state train w
       = (Err (TypeError "load_dir must be Path or str"), w))
  /\ (is_path_like load_dir = true ->
     fst (load_kitti_semantics_dataset load_dir val_ratio shuffle random_state w)
       <> Err (TypeError "load_dir must be Path or str")
     /\ fst (load_kitti_depth_dataset load_dir val_ratio shuffle random_state train w)
       <> Err (TypeError "load_dir must be Path or str")).
Proof.
  split.
  - intros Hty. destruct load_dir; try discriminate Hty; split; reflexivity.
  - intros Hty. split.
    + revert w. change (avoids load_dir_error
        (load_kitti_semantics_dataset load_dir val_ratio shuffle random_state)).
      unfold load_kitti_semantics_dataset.
      apply bind_avoids; [destruct load_dir; try discriminate Hty; apply ret_avoids |].
      intros root. repeat avoid_step.
      * apply semantics_train_loop_avoids.
      * destruct a0. repeat avoid_step.
        repeat case_match; try (intros ?; discriminate).
        repeat avoid_step. 
        -- apply semantics_test_loop_avoids.
        -- destruct a2. repeat avoid_step.
    + revert w. change (avoids load_dir_error
        (load_kitti_depth_dataset load_dir val_ratio shuffle random_state train)).
      unfold load_kitti_depth_dataset.
      apply bind_avoids; [destruct load_dir; try discriminate Hty; apply ret_avoids |].
      intros root. destruct train.
      * repeat avoid_step; [apply depth_train_loop_avoids |].
        repeat case_match; try (intros ?; discriminate).
        repeat avoid_step.
      * repeat avoid_step. apply depth_test_loop_avoids.
Qed.

(** *** Which results depend on the world *)
















End MainFacts.

(** ** The properties at work on the small instance *)



(** Without a seed the split is drawn from numpy's global generator and
    changes with it. *)
Example unseeded_split_depends_on_generator :
  fst (@Sklearn.train_test_split Toy.rng nat [[10; 11; 12; 13; 14]%nat] (2 # 10) true None 0%nat)
    = Ok [[11; 12; 13; 14]; [10]]%nat
  /\ fst (@Sklearn.train_test_split Toy.rng nat [[10; 11; 12; 13; 14]%nat] (2 # 10) true None 1%nat)
    = Ok [[13; 12; 11; 10]; [14]]%nat.
Proof. split; reflexivity. Qed.


Lemma load_dir_type_check_example :
  (@load_kitti_semantics_dataset (Toy.listing Toy.ten_names) Toy.transforms Toy.rng
     PyNone (2 # 10) true None Toy.world1
     = (Err (TypeError "load_dir must be Path or str"), Toy.world1)
   /\ @load_kitti_depth_dataset (Toy.listing Toy.ten_names) Toy.transforms Toy.rng
     PyNone (2 # 10) true None true Toy.world1
     = (Err (TypeError "load_dir must be Path or str"), Toy.world1))
  /\ fst (@load_kitti_semantics_dataset (Toy.listing Toy.ten_names) Toy.transforms Toy.rng
     (PyStr "/data") (2 # 10) true None Toy.world1)
     <> Err (TypeError "load_dir must be Path or str").
Proof.
  split.
  - apply (@load_dir_type_check (Toy.listing Toy.ten_names) Toy.transforms Toy.rng
             PyNone (2 # 10) true None true Toy.world1).
    reflexivity.
  - apply (@load_dir_type_check (Toy.listing Toy.ten_names) Toy.transforms Toy.rng
             (PyStr "/data") (2 # 10) true None true Toy.world1).
    reflexivity.
Defined.

Lemma depth_dataset_lengths_example :
  (exists d, depth_init [Toy.pixel; Toy.pixel] [Toy.pixel; Toy.pixel]
                        [Toy.pixel; Toy.pixel] [Toy.pixel; Toy.pixel] = Ok d
             /\ depth_len d = Ok 2%nat
             /\ field_lengths d = [Ok 2; Ok 2; Ok 2; Ok 2]%nat)
  /\ (exists r w', Toy.depth_run true = (Ok r, w')
        /\ Forall (fun d => exists n, depth_len d = Ok n
                                      /\ field_lengths d = [Ok n; Ok n; Ok n; Ok n])
                  (datasets_of r)).
Proof.
  destruct (@depth_dataset_lengths (Toy.listing Toy.ten_names) Toy.transforms Toy.rng)
    as [Hinit Hload].
  split.
  - assert (exists d, depth_init [Toy.pixel; Toy.pixel] [Toy.pixel; Toy.pixel]
                        [Toy.pixel; Toy.pixel] [Toy.pixel; Toy.pixel] = Ok d)
      as [d E] by (eexists; reflexivity).
    exists d. split; [exact E |]. apply (Hinit _ _ _ _ d E).
  - assert (exists r w', Toy.depth_run true = (Ok r, w')) as (r & w' & E)
      by (eexists; eexists; vm_compute; reflexivity).
    exists r, w'. split; [exact E |].
    apply (Hload (PyStr "/data") (2 # 10) true (Some 0%Z) true Toy.world0 r w' E).
Defined.

(** C7, as stated, fails: the constructor accepts four lists of differing
    lengths; the dataset reports length 2 while its sensor and mask
    sequences hold one sample, and index 1 cannot be read. *)
Lemma depth_init_accepts_unequal_lengths :
  exists d,
    depth_init [Toy.pixel; Toy.pixel] [Toy.pixel] [Toy.pixel] [Toy.pixel; Toy.pixel] = Ok d
    /\ depth_len d = Ok 2%nat
    /\ field_lengths d = [Ok 2; Ok 1; Ok 1; Ok 2]%nat
    /\ depth_getitem d 1 = Err IndexError.
Proof. eexists. repeat split. Qed.

(** * Further properties of the module *)

(** ** show_image *)

Lemma omap_lookup_total {A B} (f : A -> option B) (l : list A) (i : nat) :
  Forall (fun x => is_Some (f x)) l -> omap f l !! i = l !! i ≫= f.
Proof.
  intros Hall. revert i. induction Hall as [|x l [y Hy] _ IH]; intros i.
  - reflexivity.
  - simpl. rewrite Hy. destruct i as [|i]; simpl; [now rewrite Hy | apply IH].
Qed.

Lemma omap_length_total {A B} (f : A -> option B) (l : list A) :
  Forall (fun x => is_Some (f x)) l -> length (omap f l) = length l.
Proof.
  induction 1 as [|x l [y Hy] _ IH]; [reflexivity |].
  simpl. rewrite Hy. simpl. f_equal. exact IH.
Qed.

Lemma transpose_source_lt (a1 a2 a3 n : nat) :
  (n < a1 * a2 * a3)%nat -> (transpose_source a1 a2 a3 n < a1 * a2 * a3)%nat.
Proof.
  intros Hn. unfold transpose_source.
  assert (0 < a1)%nat by (destruct a1; [simpl in Hn |]; lia).
  assert (0 < a3)%nat by (destruct a3; [rewrite Nat.mul_0_r in Hn |]; lia).
  assert (n mod a1 < a1)%nat as Hk by (apply Nat.mod_upper_bound; lia).
  assert ((n / a1) mod a3 < a3)%nat as Hj by (apply Nat.mod_upper_bound; lia).
  assert (n / (a3 * a1) < a2)%nat as Hi.
  { apply Nat.Div0.div_lt_upper_bound. lia. }
  set (k := (n mod a1)%nat) in *. set (j := ((n / a1) mod a3)%nat) in *.
  set (i := (n / (a3 * a1))%nat) in *.
  assert (i * a3 + j < a2 * a3)%nat by nia.
  assert (k * (a2 * a3) + a2 * a3 <= a1 * (a2 * a3))%nat by nia.
  lia.
Qed.

Lemma transpose_source_at (a1 a2 a3 i j k : nat) :
  (i < a2)%nat -> (j < a3)%nat -> (k < a1)%nat ->
  transpose_source a1 a2 a3 (i * (a3 * a1) + j * a1 + k)
  = (k * (a2 * a3) + i * a3 + j)%nat.
Proof.
  intros Hi Hj Hk. unfold transpose_source.
  assert ((i * (a3 * a1) + j * a1 + k) mod a1 = k) as ->.
  { symmetry. apply (Nat.mod_unique _ _ (i * a3 + j)); lia. }
  assert ((i * (a3 * a1) + j * a1 + k) / a1 = i * a3 + j)%nat as ->.
  { symmetry. apply (Nat.div_unique _ _ _ k); lia. }
  assert ((i * a3 + j) mod a3 = j) as ->.
  { symmetry. apply (Nat.mod_unique _ _ i); lia. }
  assert ((i * (a3 * a1) + j * a1 + k) / (a3 * a1) = i)%nat as ->.
  { symmetry. apply (Nat.div_unique _ _ _ (j * a1 + k)); nia. }
  reflexivity.
Qed.

Lemma transpose_120_spec {A} (a1 a2 a3 : nat) (l : list A) :
  length l = (a1 * a2 * a3)%nat ->
  length (transpose_120 a1 a2 a3 l) = (a1 * a2 * a3)%nat
  /\ (forall i j k, (i < a2)%nat -> (j < a3)%nat -> (k < a1)%nat ->
        transpose_120 a1 a2 a3 l !! (i * (a3 * a1) + j * a1 + k)%nat
        = l !! (k * (a2 * a3) + i * a3 + j)%nat).
Proof.
  intros Hlen.
  assert (Forall (fun n => is_Some (l !! transpose_source a1 a2 a3 n))
                 (seq 0 (a1 * a2 * a3))) as Hall.
  { apply Forall_forall. intros n Hn. apply elem_of_seq in Hn.
    apply lookup_lt_is_Some. rewrite Hlen. apply transpose_source_lt. lia. }
  unfold transpose_120. split.
  - rewrite omap_length_total by exact Hall. apply length_seq.
  - intros i j k Hi Hj Hk. rewrite omap_lookup_total by exact Hall.
    assert (j * a1 + k < a3 * a1)%nat by nia.
    assert (i * (a3 * a1) + a3 * a1 <= a2 * (a3 * a1))%nat by nia.
    rewrite lookup_seq_lt by lia. simpl. now rewrite transpose_source_at.
Qed.

Section ShowImageFacts.
Context `{Pyplot}.

Lemma show_image_layout_ok (image : show_arg) (show : bool) (arr : plot_array) :
  rbind (show_array image) show_layout = Ok arr ->
  exists rest, snd (show_image image show) = PltImshow arr :: rest.
Proof.
  intros E. unfold show_image. rewrite E.
  destruct (plt_imshow arr); [destruct show |]; simpl; eauto.
Qed.

Lemma show_layout_3 (arr : plot_array) (a1 a2 a3 : nat) :
  p_shape arr = [a1; a2; a3] ->
  show_layout arr
  = if (1 <=? a1)%nat && (a1 <=? 3)%nat
    then Ok (mkPlot [a2; a3; a1] (cells_transpose a1 a2 a3 (p_cells arr)))
    else Ok arr.
Proof. intros E. unfold show_layout. rewrite E. reflexivity. Qed.

Lemma small_axis (a1 : nat) :
  (1 <= a1 <= 3)%nat -> (1 <=? a1)%nat && (a1 <=? 3)%nat = true.
Proof. intros Ha. apply andb_true_iff. split; apply Nat.leb_le; lia. Qed.

Lemma show_layout_unpack (arr : plot_array) :
  length (p_shape arr) <> 3%nat -> show_layout arr = Err ValueError.
Proof.
  unfold show_layout.
  destruct (p_shape arr) as [|a1 [|a2 [|a3 [|a4 s]]]]; simpl; intros Hn;
    try reflexivity.
  lia.
Qed.

(** X1: [show_image] raises its ValueError before any call to pyplot
    exactly when the argument is not a tensor, image or array, or when its
    array does not have three axes. *)
Theorem show_image_value_error (image : show_arg) (show : bool) :
  show_image image show = (Err ValueError, [])
  <-> match show_array image with
      | Ok a => length (p_shape a) <> 3%nat
      | Err _ => True
      end.
Proof.
  unfold show_image.
  destruct (show_array image) as [a|e] eqn:Ea; simpl.
  - unfold show_layout.
    destruct (p_shape a) as [|a1 [|a2 [|a3 [|a4 s]]]]; simpl;
      try (split; [intros _; simpl; lia | intros _; reflexivity]).
    destruct (_ && _);
      match goal with |- context [plt_imshow ?x] => destruct (plt_imshow x) end;
      try destruct show; (split; [discriminate | intros Hn; simpl in Hn; lia]).
  - destruct image; try discriminate Ea. injection Ea as <-.
    split; [auto | reflexivity].
Qed.

(** X2: a single-channel PIL image cannot be shown: its array has two
    axes, so the unpacking of the shape raises. This holds for every mask
    that [generate_mask] makes of such an image. *)
Theorem show_image_single_channel (im : Image) (show : bool) :
  im_mode im <> ModeRGB ->
  show_image (ArgImage im) show = (Err ValueError, [])
  /\ (forall mask, generate_mask im = Ok mask ->
        show_image (ArgImage mask) show = (Err ValueError, [])).
Proof.
  intros Hm.
  assert (forall x, im_mode x <> ModeRGB ->
            show_image (ArgImage x) show = (Err ValueError, [])) as Hx.
  { intros x Hx. unfold show_image.
    change (rbind (show_array (ArgImage x)) show_layout)
      with (show_layout (mkPlot (a_shape (np_array x)) (IntCells (a_data (np_array x))))).
    rewrite show_layout_unpack; [reflexivity |].
    unfold np_array. destruct (im_mode x); simpl; try lia. congruence. }
  split; [now apply Hx |].
  intros mask Hmask. rewrite generate_mask_eq in Hmask. injection Hmask as <-.
  apply Hx. simpl. destruct (im_mode im); congruence.
Qed.

Lemma show_tensor_chw (t : Tensor) (c h w : nat) (show : bool) :
  t_shape t = [c; h; w] -> (1 <= c <= 3)%nat ->
  exists rest,
    snd (show_image (ArgTensor t) show)
    = PltImshow (mkPlot [h; w; c] (FloatCells (transpose_120 c h w (t_data t)))) :: rest.
Proof.
  intros Hs Hc. apply show_image_layout_ok.
  change (rbind (show_array (ArgTensor t)) show_layout)
    with (show_layout (mkPlot (t_shape t) (FloatCells (t_data t)))).
  rewrite (show_layout_3 (mkPlot (t_shape t) (FloatCells (t_data t))) c h w Hs),
    (small_axis c Hc).
  reflexivity.
Qed.

(** X3: a tensor of shape (C, H, W) with one to three channels is shown
    in the layout (H, W, C): the value at row i, column j, channel k of
    the array given to [imshow] is the value of channel k, row i, column j
    of the tensor. *)
Theorem show_image_tensor_layout (t : Tensor) (c h w : nat) (show : bool) :
  t_shape t = [c; h; w] -> (1 <= c <= 3)%nat -> tensor_wf t ->
  exists shown rest,
    snd (show_image (ArgTensor t) show)
      = PltImshow (mkPlot [h; w; c] (FloatCells shown)) :: rest
    /\ length shown = length (t_data t)
    /\ (forall i j k, (i < h)%nat -> (j < w)%nat -> (k < c)%nat ->
          shown !! (i * (w * c) + j * c + k)%nat
          = t_data t !! (k * (h * w) + i * w + j)%nat).
Proof.
  intros Hs Hc Hwf. unfold tensor_wf in Hwf. rewrite Hs in Hwf. simpl in Hwf.
  assert (length (t_data t) = (c * h * w)%nat) as Hlen by lia.
  destruct (transpose_120_spec c h w (t_data t) Hlen) as [Hl Hget].
  exists (transpose_120 c h w (t_data t)).
  destruct (show_tensor_chw t c h w show Hs Hc) as [rest Hrest].
  exists rest. split; [exact Hrest |]. split; [lia | exact Hget].
Qed.

(** X4: whether the axes are rotated is decided by the first axis alone.
    An RGB image, whose array is (H, W, 3), is shown as it is when it has
    no row or more than three rows; with one to three rows it is shown
    with the axes (W, 3, H). *)
Theorem show_image_rgb_layout (im : Image) (show : bool) :
  im_mode im = ModeRGB ->
  exists shown rest,
    snd (show_image (ArgImage im) show) = PltImshow shown :: rest
    /\ ((im_height im = 0%nat \/ 3 < im_height im)%nat ->
          shown = mkPlot [im_height im; im_width im; 3%nat] (IntCells (im_data im)))
    /\ ((1 <= im_height im <= 3)%nat ->
          p_shape shown = [im_width im; 3%nat; im_height im]).
Proof.
  intros Hm.
  destruct ((1 <=? im_height im)%nat && (im_height im <=? 3)%nat) eqn:E.
  - apply andb_true_iff in E as [E1 E2]. apply Nat.leb_le in E1, E2.
    destruct (show_image_layout_ok (ArgImage im) show
      (mkPlot [im_width im; 3%nat; im_height im]
         (cells_transpose (im_height im) (im_width im) 3 (IntCells (im_data im)))))
      as [rest Hrest].
    { change (rbind (show_array (ArgImage im)) show_layout)
        with (show_layout (mkPlot (a_shape (np_array im)) (IntCells (a_data (np_array im))))).
      rewrite (show_layout_3 _ (im_height im) (im_width im) 3)
        by (unfold np_array; rewrite Hm; reflexivity).
      rewrite small_axis by lia. reflexivity. }
    eexists. exists rest. split; [exact Hrest |]. split; [lia | reflexivity].
  - destruct (show_image_layout_ok (ArgImage im) show
      (mkPlot [im_height im; im_width im; 3%nat] (IntCells (im_data im))))
      as [rest Hrest].
    { change (rbind (show_array (ArgImage im)) show_layout)
        with (show_layout (mkPlot (a_shape (np_array im)) (IntCells (a_data (np_array im))))).
      rewrite (show_layout_3 _ (im_height im) (im_width im) 3)
        by (unfold np_array; rewrite Hm; reflexivity).
      rewrite E. unfold np_array. rewrite Hm. reflexivity. }
    eexists. exists rest. split; [exact Hrest |]. split; [reflexivity |].
    intros [H1 H3]. apply andb_false_iff in E as [E | E]; apply Nat.leb_gt in E; lia.
Qed.

End ShowImageFacts.

Lemma show_image_single_channel_example :
  @show_image ToyPlot.pyplot (ArgImage Toy.frame) true = (Err ValueError, [])
  /\ (forall mask, generate_mask Toy.frame = Ok mask ->
        @show_image ToyPlot.pyplot (ArgImage mask) true = (Err ValueError, [])).
Proof.
  apply (@show_image_single_channel ToyPlot.pyplot Toy.frame true). discriminate.
Defined.

Lemma show_image_tensor_layout_example :
  exists shown rest,
    snd (@show_image ToyPlot.pyplot (ArgTensor ToyPlot.chw) true)
      = PltImshow (mkPlot [1; 3; 2]%nat (FloatCells shown)) :: rest
    /\ length shown = 6%nat
    /\ shown !! 1%nat = Some (S754_infinity false)
    /\ shown !! 2%nat = Some f32_one.
Proof.
  destruct (@show_image_tensor_layout ToyPlot.pyplot ToyPlot.chw 2 1 3 true)
    as (shown & rest & E & Hl & Hget); [reflexivity | lia | reflexivity |].
  exists shown, rest. split; [exact E |]. split; [exact Hl |]. split.
  - apply (Hget 0%nat 0%nat 1%nat); lia.
  - apply (Hget 0%nat 1%nat 0%nat); lia.
Defined.

Lemma show_image_rgb_layout_example :
  exists shown rest,
    snd (@show_image ToyPlot.pyplot (ArgImage Toy.photo) false) = PltImshow shown :: rest
    /\ p_shape shown = [2; 3; 1]%nat.
Proof.
  destruct (@show_image_rgb_layout ToyPlot.pyplot Toy.photo false)
    as (shown & rest & E & _ & Hrot); [reflexivity |].
  exists shown, rest. split; [exact E |]. apply Hrot. simpl. lia.
Defined.

(** ** Indexing the containers *)

Lemma concat_block {A} (ls : list (list A)) (m i : nat) (l : list A) :
  Forall (fun x => length x = m) ls -> ls !! i = Some l ->
  take m (drop (i * m) (concat ls)) = l.
Proof.
  intros Hall. revert i. induction Hall as [|x ls Hx Hall IH]; intros i Hi.
  - discriminate.
  - change (concat (x :: ls)) with (x ++ concat ls). destruct i as [|i].
    + injection Hi as <-. rewrite Nat.mul_0_l, drop_0.
      apply take_app_length'. now symmetry.
    + change (ls !! i = Some l) in Hi.
      replace (S i * m)%nat with (length x + i * m)%nat by lia.
      rewrite drop_app_add. now apply IH.
Qed.

Lemma stack_shapes (ts : list Tensor) (t : Tensor) :
  stack ts = Ok t ->
  exists t0, t_shape t = length ts :: t_shape t0
             /\ t_data t = concat (map t_data ts)
             /\ Forall (fun u => t_shape u = t_shape t0) ts
             /\ (0 < length ts)%nat.
Proof.
  unfold stack. destruct ts as [|t0 ts']; [discriminate |].
  destruct (forallb _ _) eqn:E; [| discriminate].
  intros [= <-]. exists t0. simpl. repeat split; try lia.
  apply Forall_forall. intros u Hu.
  rewrite forallb_forall in E. specialize (E u).
  unfold shape_eqb in E. eapply bool_decide_eq_true_1.
  apply E. now apply list_elem_of_In.
Qed.

Lemma stack_getitem (ts : list Tensor) (t : Tensor) (i : nat) (u : Tensor) :
  stack ts = Ok t -> Forall tensor_wf ts -> ts !! i = Some u ->
  tensor_getitem t (Z.of_nat i) = Ok u
  /\ tensor_getitem t (Z.of_nat i - Z.of_nat (length ts)) = Ok u.
Proof.
  intros Hst Hwf Hi.
  destruct (stack_shapes ts t Hst) as (t0 & Hs & Hd & Hsh & Hpos).
  assert (i < length ts)%nat as Hlt by (apply lookup_lt_is_Some; eauto).
  assert (take (numel (t_shape t0)) (drop (i * numel (t_shape t0)) (t_data t)) = t_data u)
    as Hblock.
  { rewrite Hd. apply concat_block.
    - apply Forall_fmap. apply Forall_forall. intros v Hv. simpl.
      rewrite Forall_forall in Hwf, Hsh.
      rewrite (Hwf v Hv). now rewrite (Hsh v Hv).
    - rewrite list_lookup_fmap, Hi. reflexivity. }
  assert (t_shape u = t_shape t0) as Hu.
  { rewrite Forall_forall in Hsh. apply Hsh. eapply list_elem_of_lookup_2; eauto. }
  assert (forall index, (if (index <? 0)%Z then (index + Z.of_nat (length ts))%Z else index)
                        = Z.of_nat i ->
            tensor_getitem t index = Ok u) as Hget.
  { intros index Hidx. unfold tensor_getitem. rewrite Hs, Hidx.
    replace ((0 <=? Z.of_nat i)%Z && (Z.of_nat i <? Z.of_nat (length ts))%Z) with true
      by (symmetry; apply andb_true_iff; split; [apply Z.leb_le | apply Z.ltb_lt]; lia).
    rewrite Nat2Z.id, Hblock. destruct u; simpl in *. now rewrite Hu. }
  split; apply Hget.
  - destruct (Z.ltb_spec (Z.of_nat i) 0); lia.
  - destruct (Z.ltb_spec (Z.of_nat i - Z.of_nat (length ts)) 0); lia.
Qed.


(** X5: once a dataset is built from two lists of tensors, item [i] is
    the pair of the [i]-th tensors of the two lists, and so is item
    [i - len] (negative indices count from the end). *)
Theorem semantics_getitem_round_trip (X Y : list Tensor) (d : KittiSemanticsDataset)
    (i : nat) (x y : Tensor) :
  semantics_init X Y = Ok d ->
  Forall tensor_wf X -> Forall tensor_wf Y ->
  X !! i = Some x -> Y !! i = Some y ->
  semantics_getitem d (Z.of_nat i) = Ok (x, y)
  /\ (length Y = length X ->
      semantics_getitem d (Z.of_nat i - Z.of_nat (length X)) = Ok (x, y)).
Proof.
  intros Hd HX HY Hx Hy.
  apply semantics_init_len in Hd as (_ & _ & HsX & HsY).
  destruct (stack_getitem X (ds_X d) i x HsX HX Hx) as [Hx1 Hx2].
  destruct (stack_getitem Y (ds_Y d) i y HsY HY Hy) as [Hy1 Hy2].
  unfold semantics_getitem. split.
  - rewrite Hx1, Hy1. reflexivity.
  - intros Hlen. rewrite Hlen in Hy2. rewrite Hx2, Hy2. reflexivity.
Qed.


(** X7: item [i] of a depth dataset is the quadruple of the [i]-th
    colour, sensor, mask and target tensors it was built from. *)
Theorem depth_getitem_round_trip (X_color X_sensor X_mask Y : list Tensor)
    (d : KittiDepthDataset) (i : nat) (x_c x_s x_m y : Tensor) :
  depth_init X_color X_sensor X_mask Y = Ok d ->
  Forall tensor_wf X_color -> Forall tensor_wf X_sensor ->
  Forall tensor_wf X_mask -> Forall tensor_wf Y ->
  X_color !! i = Some x_c -> X_sensor !! i = Some x_s ->
  X_mask !! i = Some x_m -> Y !! i = Some y ->
  depth_getitem d (Z.of_nat i) = Ok (x_c, x_s, x_m, y).
Proof.
  intros Hd Hc Hs Hm HY Ec Es Em Ey.
  unfold depth_init in Hd.
  destruct (semantics_init X_color Y) as [super|] eqn:Hsuper; [| discriminate].
  destruct (stack X_sensor) as [xs|] eqn:Hxs; [| discriminate].
  destruct (stack X_mask) as [xm|] eqn:Hxm; [| discriminate].
  simpl in Hd. injection Hd as <-.
  apply semantics_init_len in Hsuper as (_ & _ & HsX & HsY).
  unfold depth_getitem. simpl.
  rewrite (proj1 (stack_getitem _ _ i x_c HsX Hc Ec)).
  rewrite (proj1 (stack_getitem _ _ i x_s Hxs Hs Es)).
  rewrite (proj1 (stack_getitem _ _ i x_m Hxm Hm Em)).
  rewrite (proj1 (stack_getitem _ _ i y HsY HY Ey)).
  reflexivity.
Qed.

Lemma semantics_getitem_round_trip_example :
  exists d,
    semantics_init [Toy.pixel; mkTensor [1; 1; 1]%nat [f32_zero]]
                   [mkTensor [1; 1; 1]%nat [f32_zero]; Toy.pixel] = Ok d
    /\ semantics_getitem d 1 = Ok (mkTensor [1; 1; 1]%nat [f32_zero], Toy.pixel)
    /\ semantics_getitem d (-1) = Ok (mkTensor [1; 1; 1]%nat [f32_zero], Toy.pixel).
Proof.
  eexists. split; [reflexivity |].
  assert (Forall tensor_wf [Toy.pixel; mkTensor [1; 1; 1]%nat [f32_zero]]) as HX
    by (repeat constructor).
  assert (Forall tensor_wf [mkTensor [1; 1; 1]%nat [f32_zero]; Toy.pixel]) as HY
    by (repeat constructor).
  destruct (semantics_getitem_round_trip
              [Toy.pixel; mkTensor [1; 1; 1]%nat [f32_zero]]
              [mkTensor [1; 1; 1]%nat [f32_zero]; Toy.pixel] _ 1
              (mkTensor [1; 1; 1]%nat [f32_zero]) Toy.pixel eq_refl HX HY eq_refl eq_refl)
    as [E1 E2].
  split; [exact E1 | exact (E2 eq_refl)].
Defined.


Lemma depth_getitem_round_trip_example :
  exists d,
    depth_init [Toy.pixel; mkTensor [1; 1; 1]%nat [f32_zero]]
               [mkTensor [1; 1; 1]%nat [f32_zero]; Toy.pixel]
               [Toy.pixel; Toy.pixel]
               [mkTensor [1; 1; 1]%nat [f32_zero]; mkTensor [1; 1; 1]%nat [f32_zero]] = Ok d
    /\ depth_getitem d 0
       = Ok (Toy.pixel, mkTensor [1; 1; 1]%nat [f32_zero], Toy.pixel,
             mkTensor [1; 1; 1]%nat [f32_zero]).
Proof.
  eexists. split; [reflexivity |].
  apply (depth_getitem_round_trip
           [Toy.pixel; mkTensor [1; 1; 1]%nat [f32_zero]]
           [mkTensor [1; 1; 1]%nat [f32_zero]; Toy.pixel]
           [Toy.pixel; Toy.pixel]
           [mkTensor [1; 1; 1]%nat [f32_zero]; mkTensor [1; 1; 1]%nat [f32_zero]]
           _ 0 _ _ _ _ eq_refl);
    try reflexivity; repeat constructor.
Defined.

(** ** More on file names *)

Section JoinSplit.
Variable sep : string.
Hypothesis sep_nonempty : sep <> EmptyString.

Lemma split_go_nonempty (fuel : nat) (s : string) : PyStr.split_go fuel sep s <> [].
Proof.
  destruct fuel as [|fuel]; simpl; [discriminate |].
  destruct (String.prefix sep s); [discriminate |].
  destruct s as [|c s]; [discriminate |].
  destruct (PyStr.split_go fuel sep s); discriminate.
Qed.

Lemma join_cons (p : string) (ps : list string) :
  ps <> [] -> PyStr.join sep (p :: ps) = p +:+ sep +:+ PyStr.join sep ps.
Proof. destruct ps; [congruence | reflexivity]. Qed.

Lemma join_cons_head (c : ascii) (ps : list string) :
  ps <> [] -> PyStr.join sep (PyStr.cons_head c ps) = String c (PyStr.join sep ps).
Proof.
  destruct ps as [|p [|q ps]]; intros Hne; [congruence | reflexivity |].
  unfold PyStr.cons_head. rewrite !join_cons by discriminate.
  now rewrite append_cons.
Qed.

(** Joining the pieces of a split with the separator gives the string
    back. *)
Lemma join_split_go (fuel : nat) (s : string) :
  (String.length s < fuel)%nat -> PyStr.join sep (PyStr.split_go fuel sep s) = s.
Proof.
  revert s. induction fuel as [|fuel IH]; intros s Hlen; [lia |].
  simpl. destruct (String.prefix sep s) eqn:Hp.
  - rewrite join_cons by apply split_go_nonempty.
    pose proof (prefix_split _ _ Hp) as E.
    assert (String.length s
            = (String.length sep + String.length (PyStr.drop (String.length sep) s))%nat) as L.
    { rewrite E at 1. apply length_app_s. }
    assert (0 < String.length sep)%nat by (destruct sep; [congruence | simpl; lia]).
    rewrite IH by lia. rewrite append_nil. now rewrite <- E.
  - destruct s as [|c s]; [reflexivity |].
    rewrite join_cons_head by apply split_go_nonempty.
    simpl in Hlen. rewrite IH by lia. reflexivity.
Qed.

Lemma join_split_list (s : string) : PyStr.join sep (PyStr.split_list sep s) = s.
Proof. apply join_split_go. lia. Qed.

End JoinSplit.

(** X8: the prefix and the suffix taken from a file name are cut at the
    first two [_image_] tokens: the name is prefix, token, suffix, and
    then either nothing or a further token and a rest that is dropped. A
    name without the token raises [IndexError], and the split never raises
    anything else. *)
Theorem file_prefix_suffix_pieces (name : string) :
  (forall p s, file_prefix_suffix name = Ok (p, s) ->
     exists tail, name = p +:+ "_image_" +:+ s +:+ tail
                  /\ (tail = "" \/ String.prefix "_image_" tail = true))
  /\ (forall e, file_prefix_suffix name = Err e -> e = IndexError)
  /\ (PyStr.occurs "_image_" name = false -> file_prefix_suffix name = Err IndexError)
  /\ (forall a b c rest,
        name = a +:+ "_image_" +:+ b +:+ "_image_" +:+ c +:+ "_image_" +:+ rest ->
        PyStr.occurs "_image_" (a +:+ "_image") = false ->
        PyStr.occurs "_image_" (b +:+ "_image") = false ->
        PyStr.occurs "_image_" (c +:+ "_image") = false ->
        file_prefix_suffix name = Ok (a, b +:+ "_image_" +:+ c)).
Proof.
  pose proof (join_split_list image_token image_token_nonempty name) as Hjoin.
  unfold file_prefix_suffix. rewrite (split_ok _ image_token_nonempty).
  cbn [rbind]. unfold py_index.
  repeat split.
  - intros p s.
    destruct (PyStr.split_list image_token name) as [|f0 [|f1 [|f2 rest]]];
      cbn [rbind lookup list_lookup]; try discriminate.
    intros [= <- <-].
    destruct rest as [|f3 rest].
    + exists "". split; [| now left].
      rewrite append_nil_r. rewrite <- Hjoin. reflexivity.
    + exists (image_token +:+ PyStr.join image_token (f3 :: rest)).
      split; [| right; apply prefix_self_app].
      rewrite <- Hjoin. rewrite !(join_cons image_token) by discriminate.
      unfold image_token. now rewrite !app_assoc_s.
  - intros e.
    destruct (PyStr.split_list image_token name) as [|f0 [|f1 [|f2 rest]]];
      cbn [rbind lookup list_lookup]; congruence.
  - intros Ho. rewrite (split_list_none _ image_token_nonempty) by exact Ho.
    reflexivity.
  - intros a b c rest -> Ha Hb Hc.
    rewrite (split_list_token _ image_token_nonempty) by exact Ha.
    rewrite (split_list_token _ image_token_nonempty) by exact Hb.
    rewrite (split_list_token _ image_token_nonempty) by exact Hc.
    reflexivity.
Qed.

Lemma file_prefix_suffix_pieces_example :
  file_prefix_suffix "drive_0002_image_05_image_02_image_03.png"
    = Ok ("drive_0002", "05_image_02")
  /\ file_prefix_suffix "0000000005.png" = Err IndexError.
Proof.
  split.
  - destruct (file_prefix_suffix_pieces "drive_0002_image_05_image_02_image_03.png")
      as (_ & _ & _ & Hdrop).
    apply (Hdrop "drive_0002" "05" "02" "03.png"); reflexivity.
  - destruct (file_prefix_suffix_pieces "0000000005.png") as (_ & _ & Hnone & _).
    apply Hnone. reflexivity.
Defined.

(** ** Masks of well-formed images *)




(** ** The colour pipeline *)

Lemma mapi_from_length {A B} (f : nat -> A -> B) (l : list A) (i : nat) :
  length (mapi_from i f l) = length l.
Proof.
  revert i. induction l as [|x l IH]; intros i; simpl; [reflexivity |].
  now rewrite IH.
Qed.

Lemma normalize_c_shape (t : Tensor) (c h w : nat) :
  t_shape t = [c; h; w] ->
  normalize mean_c std_c t
  = if (c =? 3)%nat
    then Ok {| t_shape := [c; h; w];
               t_data := mapi_from 0 (fun i x =>
                 f32_div (f32_sub x (channel_stat mean_c ((i / (h * w)) mod c)%nat))
                         (channel_stat std_c ((i / (h * w)) mod c)%nat))
                 (t_data t) |}
    else Err RuntimeError.
Proof.
  intros Hs. unfold normalize. rewrite Hs.
  change (existsb is_zero std_c) with false.
  change (length [c; h; w] <? 3)%nat with false.
  cbn [length Nat.sub nth]. cbn iota.
  replace (broadcasts (length mean_c) c && broadcasts (length std_c) c) with (c =? 3)%nat;
    [reflexivity |].
  change (length mean_c) with 3%nat. change (length std_c) with 3%nat.
  unfold broadcasts. rewrite andb_diag. change (3 =? 1)%nat with false.
  rewrite orb_false_l. apply Nat.eqb_sym.
Qed.

Section ColourFacts.
Context `{Transforms}.

(** X10: a colour image passes the preprocessing only as a three-channel
    tensor: the result has shape (3, H, W) and as many values as the
    tensor [ToTensor] made; any other number of channels raises
    [RuntimeError], and the [ValueError] of [Normalize] (a zero in [std],
    fewer than three axes) cannot occur. *)
Theorem preprocess_c_channels (x : Image) :
  (forall t, preprocess_c x = Ok t ->
     exists h w, t_shape t = [3; h; w]%nat
                 /\ t_shape (to_tensor (resize x)) = [3; h; w]%nat
                 /\ length (t_data t) = length (t_data (to_tensor (resize x))))
  /\ preprocess_c x <> Err ValueError
  /\ (forall c h w, tensor_is_float (im_mode (resize x)) = true ->
        t_shape (to_tensor (resize x)) = [c; h; w] -> c <> 3%nat ->
        preprocess_c x = Err RuntimeError).
Proof.
  unfold preprocess_c.
  pose proof (to_tensor_ndim (resize x)) as Hnd.
  destruct (t_shape (to_tensor (resize x))) as [|c [|h [|w [|? ?]]]] eqn:Hs;
    try discriminate Hnd.
  clear Hnd.
  destruct (tensor_is_float (im_mode (resize x))).
  - rewrite (normalize_c_shape (to_tensor (resize x)) c h w Hs).
    destruct (Nat.eqb_spec c 3) as [-> | Hc].
    + split; [| split; [discriminate |]].
      * intros t [= <-]. exists h, w. cbn [t_shape t_data].
        rewrite mapi_from_length. auto.
      * intros c' h' w' _ [= <- <- <-] Hc. congruence.
    + split; [discriminate |]. split; [discriminate |]. reflexivity.
  - split; [discriminate |]. split; discriminate.
Qed.

End ColourFacts.

Lemma preprocess_c_channels_example :
  (exists t, @preprocess_c Toy.transforms Toy.photo = Ok t
             /\ t_shape t = [3; 1; 2]%nat /\ length (t_data t) = 6%nat)
  /\ @preprocess_c Toy.transforms (mkImage ModeL 1 2 [7; 9]%Z) = Err RuntimeError.
Proof.
  destruct (@preprocess_c_channels Toy.transforms Toy.photo) as (Hrgb & _ & _).
  destruct (@preprocess_c_channels Toy.transforms (mkImage ModeL 1 2 [7; 9]%Z))
    as (_ & _ & Hgrey).
  split.
  - assert (exists t, @preprocess_c Toy.transforms Toy.photo = Ok t) as [t E].
    { eexists. vm_compute. reflexivity. }
    exists t. split; [exact E |].
    destruct (Hrgb t E) as (h & w & Hs & Hs' & Hl).
    injection Hs' as <- <-. split; [exact Hs | exact Hl].
  - apply (Hgrey 1%nat 1%nat 2%nat); [reflexivity | reflexivity | lia].
Defined.

(** ** More on the split *)

Lemma validate_ratio (n : nat) (q : Q) (tr te : Z) :
  Sklearn.validate_shuffle_split n q = Ok (tr, te) -> (0 < q)%Q /\ (q < 1)%Q.
Proof.
  unfold Sklearn.validate_shuffle_split.
  destruct (Qle_bool q 0) eqn:E0; [discriminate |].
  destruct (Qle_bool 1 q) eqn:E1; [discriminate |].
  intros _. split; apply Qnot_le_lt; intros Hle;
    apply Qle_bool_iff in Hle; congruence.
Qed.

Lemma validate_empty (q : Q) : Sklearn.validate_shuffle_split 0 q = Err ValueError.
Proof.
  unfold Sklearn.validate_shuffle_split.
  destruct (Qle_bool q 0 || Qle_bool 1 q); [reflexivity |].
  replace (Qceiling (q * inject_Z (Z.of_nat 0))) with 0%Z; [reflexivity |].
  change (inject_Z (Z.of_nat 0)) with 0%Q.
  symmetry. rewrite (Qceiling_comp (q * 0) 0) by ring. reflexivity.
Qed.


Section SplitFacts3.
Context `{Rng}.

(** What a split that returns has computed. *)
Lemma sk_split_inv {A} (arrays : list (list A)) (q : Q) (sh : bool)
    (rs : option Z) (g g' : rng_state) (parts : list (list A)) :
  Sklearn.train_test_split arrays q sh rs g = (Ok parts, g') ->
  exists (n : nat) (tr te : Z) (it iv : list nat),
    Forall (fun a => length a = n) arrays
    /\ Sklearn.validate_shuffle_split n q = Ok (tr, te)
    /\ Sklearn.split_indices n tr te sh rs g = (Ok (map Z.of_nat it, map Z.of_nat iv), g')
    /\ Permutation (it ++ iv) (seq 0 n)
    /\ length it = Z.to_nat tr /\ length iv = Z.to_nat te
    /\ parts = concat (map (fun a => [Sklearn.samples_at a it; Sklearn.samples_at a iv])
                           arrays).
Proof.
  unfold Sklearn.train_test_split.
  destruct arrays as [|a0 rest]; [discriminate |].
  set (arrays := a0 :: rest). set (n := length a0).
  destruct (forallb (fun a => (length a =? n)%nat) arrays) eqn:Hlen; [| discriminate].
  simpl negb. cbv iota.
  destruct (Sklearn.validate_shuffle_split n q) as [[tr te] | e] eqn:Hv; [| discriminate].
  destruct (validate_ok n q tr te Hv) as [Hte [Htr [Hsum Hceil]]].
  destruct (split_indices_ok n tr te sh rs g Hte Htr Hsum)
    as [it [iv [Hidx [Hp [Hlt Hlv]]]]].
  destruct (Sklearn.split_indices n tr te sh rs g) as [[[train test] | e] g1] eqn:Hsi;
    [| discriminate].
  simpl in Hidx. injection Hidx as -> ->.
  apply same_lengths in Hlen.
  destruct (perm_in_range it iv n Hp) as [Hit Hiv].
  rewrite (index_arrays arrays n it iv Hlen Hit Hiv). simpl. intros [= <- <-].
  exists n, tr, te, it, iv. repeat split; try assumption.
Qed.


(** The global generator after a split that returns. *)
Lemma sk_split_rng {A} (arrays : list (list A)) (q : Q) (sh : bool)
    (rs : option Z) (g : rng_state) :
  snd (Sklearn.train_test_split arrays q sh rs g) = g
  \/ (sh = true /\ rs = None
      /\ exists a0 rest, arrays = a0 :: rest
         /\ snd (Sklearn.train_test_split arrays q sh rs g)
            = snd (rng_permutation g (length a0))).
Proof.
  unfold Sklearn.train_test_split.
  destruct arrays as [|a0 rest]; [now left |].
  destruct (negb _); [now left |].
  destruct (Sklearn.validate_shuffle_split (length a0) q) as [[tr te] | e]; [| now left].
  unfold Sklearn.split_indices.
  destruct sh; [| now left].
  destruct (Sklearn.validate_counts (length a0) tr te); [| now left].
  destruct rs as [seed|]; simpl.
  - destruct (rng_permutation (rng_seed seed) (length a0)). now left.
  - right. split; [reflexivity |]. split; [reflexivity |]. exists a0, rest.
    split; [reflexivity |].
    destruct (rng_permutation g (length a0)). reflexivity.
Qed.

End SplitFacts3.

(** ** Runs of the loaders *)

Section LoaderRuns.
Context `{FileSystem} `{Transforms} `{Rng}.

Tactic Notation "run" hyp(H) "as" simple_intropattern(a) ident(w) ident(E) :=
  apply bind_ok_inv in H as (a & w & E & H).

Lemma load_image_run (root rel : string) (w : world) (image : Image) (w' : world) :
  load_image root rel w = (Ok image, w') ->
  fs_open root rel = Some image
  /\ w_trace w' = w_trace w ++ [EvOpen root rel] /\ w_rng w' = w_rng w.
Proof.
  unfold load_image, bind, log. destruct (fs_open root rel); unfold ret, raise.
  - intros [= <- <-]. auto.
  - discriminate.
Qed.

Lemma glob_run (root pattern : string) (w : world) (names : list string) (w' : world) :
  glob root pattern w = (Ok names, w') ->
  names = fs_glob root pattern
  /\ w_trace w' = w_trace w ++ [EvGlob root pattern] /\ w_rng w' = w_rng w.
Proof. unfold glob, bind, log, ret. intros [= <- <-]. auto. Qed.

Lemma preprocess_d_value (x : image_F) : preprocess_d x = Ok (to_tensor_F (resize_F x)).
Proof.
  unfold preprocess_d. apply normalize_d_id.
  - rewrite to_tensor_F_ndim. lia.
  - apply to_tensor_F_valid.
Qed.

Lemma semantics_train_loop_run (d : string) (names : list string)
    (X Y : list Tensor) (w : world) (X' Y' : list Tensor) (w' : world) :
  semantics_train_loop d names X Y w = (Ok (X', Y'), w') ->
  exists Xn Yn,
    X' = X ++ Xn /\ Y' = Y ++ Yn
    /\ Forall2 (fun name x => exists image,
                  fs_open d ("training/image_2/" +:+ name) = Some image
                  /\ preprocess_c image = Ok x) names Xn
    /\ Forall2 (fun name y => exists image,
                  fs_open d ("training/semantic_rgb/" +:+ name) = Some image
                  /\ preprocess_c image = Ok y) names Yn
    /\ w_trace w'
       = w_trace w ++ flat_map (fun name => [EvOpen d ("training/image_2/" +:+ name);
                                             EvOpen d ("training/semantic_rgb/" +:+ name)])
                               names
    /\ w_rng w' = w_rng w.
Proof.
  revert X Y w. induction names as [|name names IH]; intros X Y w Hrun.
  - apply ret_ok_inv in Hrun as [[= -> ->] ->]. exists [], [].
    rewrite !app_nil_r. repeat split; constructor.
  - simpl in Hrun.
    run Hrun as x0 w1 Ex0. apply load_image_run in Ex0 as (Ox & Tx & Gx).
    run Hrun as x w2 Ex. apply lift_ok_inv in Ex as [Px ->].
    run Hrun as y0 w3 Ey0. apply load_image_run in Ey0 as (Oy & Ty & Gy).
    run Hrun as y w4 Ey. apply lift_ok_inv in Ey as [Py ->].
    apply IH in Hrun as (Xn & Yn & -> & -> & HX & HY & Ht & Hg).
    exists (x :: Xn), (y :: Yn).
    rewrite <- !app_assoc. simpl.
    split; [reflexivity |]. split; [reflexivity |].
    split; [constructor; eauto |]. split; [constructor; eauto |].
    split.
    + rewrite Ht, Ty, Tx, <- !app_assoc. reflexivity.
    + congruence.
Qed.

Lemma semantics_test_loop_run (d : string) (names : list string)
    (X Y : list Tensor) (w : world) (X' Y' : list Tensor) (w' : world) :
  semantics_test_loop d names X Y w = (Ok (X', Y'), w') ->
  exists Xn,
    X' = X ++ Xn /\ Y' = Y ++ map zeros_like Xn
    /\ Forall2 (fun name x => exists image,
                  fs_open d ("testing/image_2/" +:+ name) = Some image
                  /\ preprocess_c image = Ok x) names Xn
    /\ w_trace w'
       = w_trace w ++ map (fun name => EvOpen d ("testing/image_2/" +:+ name)) names
    /\ w_rng w' = w_rng w.
Proof.
  revert X Y w. induction names as [|name names IH]; intros X Y w Hrun.
  - apply ret_ok_inv in Hrun as [[= -> ->] ->]. exists [].
    rewrite !app_nil_r. repeat split; constructor.
  - simpl in Hrun.
    run Hrun as x0 w1 Ex0. apply load_image_run in Ex0 as (Ox & Tx & Gx).
    run Hrun as x w2 Ex. apply lift_ok_inv in Ex as [Px ->].
    apply IH in Hrun as (Xn & -> & -> & HX & Ht & Hg).
    exists (x :: Xn).
    rewrite <- !app_assoc. simpl.
    split; [reflexivity |]. split; [reflexivity |].
    split; [constructor; eauto |].
    split.
    + rewrite Ht, Tx, <- !app_assoc. reflexivity.
    + congruence.
Qed.

(** Everything a successful run of the semantics loader has done. *)
Lemma semantics_loader_run (load_dir : py_value) (q : Q) (sh : bool) (rs : option Z)
    (w : world) (tr va te : KittiSemanticsDataset) (w' : world) :
  load_kitti_semantics_dataset load_dir q sh rs w = (Ok (tr, va, te), w') ->
  exists (root : string) (X Y X_test : list Tensor) (n_train n_test : Z)
         (it iv : list nat) (w0 w1 w2 w3 : world),
    (load_dir = PyPath root \/ load_dir = PyStr root)
    /\ semantics_train_loop root (fs_glob root "training/image_2/*.png") [] [] w0
       = (Ok (X, Y), w1)
    /\ semantics_test_loop root (fs_glob root "testing/image_2/*.png") [] [] w2
       = (Ok (X_test, map zeros_like X_test), w3)
    /\ Forall2 (fun name x => exists image,
                  fs_open root ("training/image_2/" +:+ name) = Some image
                  /\ preprocess_c image = Ok x)
               (fs_glob root "training/image_2/*.png") X
    /\ Forall2 (fun name y => exists image,
                  fs_open root ("training/semantic_rgb/" +:+ name) = Some image
                  /\ preprocess_c image = Ok y)
               (fs_glob root "training/image_2/*.png") Y
    /\ Forall2 (fun name x => exists image,
                  fs_open root ("testing/image_2/" +:+ name) = Some image
                  /\ preprocess_c image = Ok x)
               (fs_glob root "testing/image_2/*.png") X_test
    /\ Sklearn.validate_shuffle_split (length X) q = Ok (n_train, n_test)
    /\ Sklearn.split_indices (length X) n_train n_test sh rs (w_rng w)
       = (Ok (map Z.of_nat it, map Z.of_nat iv), w_rng w')
    /\ Permutation (it ++ iv) (seq 0 (length X))
    /\ length it = Z.to_nat n_train /\ length iv = Z.to_nat n_test
    /\ semantics_init (Sklearn.samples_at X it) (Sklearn.samples_at Y it) = Ok tr
    /\ semantics_init (Sklearn.samples_at X iv) (Sklearn.samples_at Y iv) = Ok va
    /\ semantics_init X_test (map zeros_like X_test) = Ok te
    /\ w_trace w'
       = w_trace w
         ++ EvGlob root "training/image_2/*.png"
            :: flat_map (fun name => [EvOpen root ("training/image_2/" +:+ name);
                                      EvOpen root ("training/semantic_rgb/" +:+ name)])
                        (fs_glob root "training/image_2/*.png")
         ++ EvGlob root "testing/image_2/*.png"
            :: map (fun name => EvOpen root ("testing/image_2/" +:+ name))
                   (fs_glob root "testing/image_2/*.png").
Proof.
  intros Hrun. unfold load_kitti_semantics_dataset in Hrun.
  run Hrun as root w0 Eroot. apply as_path_ok_inv in Eroot as [Hdir ->].
  run Hrun as names w1 Eglob. apply glob_run in Eglob as (-> & T1 & G1).
  run Hrun as [X Y] w2 Eloop. pose proof Eloop as Eloop'.
  apply semantics_train_loop_run in Eloop as (Xn & Yn & -> & -> & HX & HY & T2 & G2).
  simpl app in Hrun, Eloop'.
  run Hrun as parts w3 Esplit. apply train_test_split_world in Esplit as [Hsplit T3].
  apply sk_split_inv in Hsplit
    as (n & n_train & n_test & it & iv & Hall & Hv & Hsi & Hp & Hlt & Hlv & ->).
  assert (n = length Xn) as -> by (inversion Hall; congruence).
  simpl in Hrun.
  run Hrun as names_test w4 Eglob2. apply glob_run in Eglob2 as (-> & T4 & G4).
  run Hrun as [X_test Y_test] w5 Etest. pose proof Etest as Etest'.
  apply semantics_test_loop_run in Etest as (Xt & -> & -> & HXt & T5 & G5).
  simpl app in Hrun, Etest'.
  run Hrun as d1 w6 Etr. apply lift_ok_inv in Etr as [Htr ->].
  run Hrun as d2 w7 Eva. apply lift_ok_inv in Eva as [Hva ->].
  run Hrun as d3 w8 Ete. apply lift_ok_inv in Ete as [Hte ->].
  apply ret_ok_inv in Hrun as [[= -> -> ->] ->].
  exists root, Xn, Yn, Xt, n_train, n_test, it, iv, w1, w2, w4, w5.
  repeat match goal with |- _ /\ _ => split end; try assumption.
  - rewrite G5, G4. rewrite G2, G1 in Hsi. exact Hsi.
  - rewrite T5, T4, T3, T2, T1, <- !app_assoc. reflexivity.
Qed.

Lemma depth_train_loop_run (d : string) (names : list string)
    (acc : depth_lists) (w : world) (acc' : depth_lists) (w' : world) :
  depth_train_loop d names acc w = (Ok acc', w') ->
  exists Cn Sn Mn Tn,
    l_color acc' = l_color acc ++ Cn /\ l_sensor acc' = l_sensor acc ++ Sn
    /\ l_mask acc' = l_mask acc ++ Mn /\ l_target acc' = l_target acc ++ Tn
    /\ Forall2 (fun name x => exists image,
                  fs_open d ("val_selection_cropped/image/" +:+ name) = Some image
                  /\ preprocess_c image = Ok x) names Cn
    /\ Forall2 (fun name x => exists p s image,
                  file_prefix_suffix name = Ok (p, s)
                  /\ fs_open d (velodyne_path p s) = Some image
                  /\ x = to_tensor_F (resize_F (convert_F image))) names Sn
    /\ Forall2 (fun name x => exists p s image mask,
                  file_prefix_suffix name = Ok (p, s)
                  /\ fs_open d (velodyne_path p s) = Some image
                  /\ generate_mask image = Ok mask
                  /\ x = to_tensor_F (resize_F (convert_F mask))) names Mn
    /\ Forall2 (fun name y => exists p s image,
                  file_prefix_suffix name = Ok (p, s)
                  /\ fs_open d (groundtruth_path p s) = Some image
                  /\ y = to_tensor_F (resize_F (convert_F image))) names Tn
    /\ w_trace w'
       = w_trace w
         ++ flat_map (fun name =>
                        match file_prefix_suffix name with
                        | Ok (p, s) => [EvOpen d ("val_selection_cropped/image/" +:+ name);
                                        EvOpen d (velodyne_path p s);
                                        EvOpen d (groundtruth_path p s)]
                        | Err _ => []
                        end) names
    /\ w_rng w' = w_rng w.
Proof.
  revert acc w. induction names as [|name names IH]; intros acc w Hrun.
  - apply ret_ok_inv in Hrun as [-> ->]. exists [], [], [], [].
    rewrite !app_nil_r. repeat split; constructor.
  - simpl in Hrun.
    run Hrun as xc0 w1 E1. apply load_image_run in E1 as (Oc & Tc & Gc).
    run Hrun as xc w2 E2. apply lift_ok_inv in E2 as [Pc ->].
    run Hrun as [p s] w3 E3. apply lift_ok_inv in E3 as [Ps ->].
    run Hrun as xs0 w4 E4. apply load_image_run in E4 as (Os & Ts & Gs).
    run Hrun as xm0 w5 E5. apply lift_ok_inv in E5 as [Pm ->].
    run Hrun as xs w6 E6. apply lift_ok_inv in E6 as [Pxs ->].
    run Hrun as xm w7 E7. apply lift_ok_inv in E7 as [Pxm ->].
    run Hrun as y0 w8 E8. apply load_image_run in E8 as (Oy & Ty & Gy).
    run Hrun as y w9 E9. apply lift_ok_inv in E9 as [Py ->].
    rewrite preprocess_d_value in Pxs, Pxm, Py.
    injection Pxs as <-. injection Pxm as <-. injection Py as <-.
    apply IH in Hrun as (Cn & Sn & Mn & Tn & EC & ES & EM & ET & HC & HS & HM & HT & Ht & Hg).
    cbn [l_color l_sensor l_mask l_target] in EC, ES, EM, ET.
    eexists (_ :: Cn), (_ :: Sn), (_ :: Mn), (_ :: Tn).
    rewrite EC, ES, EM, ET, <- !app_assoc. simpl.
    do 4 (split; [reflexivity |]).
    split; [constructor; eauto |].
    split; [constructor; eauto 6 |].
    split; [constructor; eauto 8 |].
    split; [constructor; eauto 6 |].
    split.
    + rewrite Ps, Ht, Ty, Ts, Tc, <- !app_assoc. reflexivity.
    + congruence.
Qed.

Lemma depth_test_loop_run (d : string) (names : list string)
    (acc : depth_lists) (w : world) (acc' : depth_lists) (w' : world) :
  depth_test_loop d names acc w = (Ok acc', w') ->
  exists Cn Sn Mn,
    l_color acc' = l_color acc ++ Cn /\ l_sensor acc' = l_sensor acc ++ Sn
    /\ l_mask acc' = l_mask acc ++ Mn
    /\ l_target acc' = l_target acc ++ map zeros_like Cn
    /\ Forall2 (fun name x => exists image,
                  fs_open d ("test_depth_completion_anonymous/image/" +:+ name) = Some image
                  /\ preprocess_c image = Ok x) names Cn
    /\ Forall2 (fun name x => exists image,
                  fs_open d ("test_depth_completion_anonymous/velodyne_raw/" +:+ name)
                    = Some image
                  /\ x = to_tensor_F (resize_F (convert_F image))) names Sn
    /\ Forall2 (fun name x => exists image mask,
                  fs_open d ("test_depth_completion_anonymous/velodyne_raw/" +:+ name)
                    = Some image
                  /\ generate_mask image = Ok mask
                  /\ x = to_tensor_F (resize_F (convert_F mask))) names Mn
    /\ w_trace w'
       = w_trace w
         ++ flat_map (fun name =>
                        [EvOpen d ("test_depth_completion_anonymous/image/" +:+ name);
                         EvOpen d ("test_depth_completion_anonymous/velodyne_raw/" +:+ name)])
                     names
    /\ w_rng w' = w_rng w.
Proof.
  revert acc w. induction names as [|name names IH]; intros acc w Hrun.
  - apply ret_ok_inv in Hrun as [-> ->]. exists [], [], [].
    rewrite !app_nil_r. repeat split; constructor.
  - simpl in Hrun.
    run Hrun as xc0 w1 E1. apply load_image_run in E1 as (Oc & Tc & Gc).
    run Hrun as xc w2 E2. apply lift_ok_inv in E2 as [Pc ->].
    run Hrun as xs0 w4 E4. apply load_image_run in E4 as (Os & Ts & Gs).
    run Hrun as xm0 w5 E5. apply lift_ok_inv in E5 as [Pm ->].
    run Hrun as xs w6 E6. apply lift_ok_inv in E6 as [Pxs ->].
    run Hrun as xm w7 E7. apply lift_ok_inv in E7 as [Pxm ->].
    rewrite preprocess_d_value in Pxs, Pxm.
    injection Pxs as <-. injection Pxm as <-.
    apply IH in Hrun as (Cn & Sn & Mn & EC & ES & EM & ET & HC & HS & HM & Ht & Hg).
    cbn [l_color l_sensor l_mask l_target] in EC, ES, EM, ET.
    eexists (_ :: Cn), (_ :: Sn), (_ :: Mn).
    rewrite EC, ES, EM, ET, <- !app_assoc. simpl.
    do 4 (split; [reflexivity |]).
    split; [constructor; eauto |].
    split; [constructor; eauto |].
    split; [constructor; eauto 6 |].
    split.
    + rewrite Ht, Ts, Tc, <- !app_assoc. reflexivity.
    + congruence.
Qed.

(** Everything a successful run of the depth loader on the training set
    has done. *)
Lemma depth_loader_train_run (load_dir : py_value) (q : Q) (sh : bool) (rs : option Z)
    (w : world) (r : depth_datasets) (w' : world) :
  load_kitti_depth_dataset load_dir q sh rs true w = (Ok r, w') ->
  exists (root : string) (acc : depth_lists) (n_train n_test : Z) (it iv : list nat)
         (tr va : KittiDepthDataset) (w0 w1 : world),
    r = TrainVal tr va
    /\ (load_dir = PyPath root \/ load_dir = PyStr root)
    /\ depth_train_loop root (fs_glob root "val_selection_cropped/image/*.png") no_lists w0
       = (Ok acc, w1)
    /\ length (l_color acc) = length (fs_glob root "val_selection_cropped/image/*.png")
    /\ length (l_sensor acc) = length (l_color acc)
    /\ length (l_mask acc) = length (l_color acc)
    /\ length (l_target acc) = length (l_color acc)
    /\ Sklearn.validate_shuffle_split (length (l_color acc)) q = Ok (n_train, n_test)
    /\ Sklearn.split_indices (length (l_color acc)) n_train n_test sh rs (w_rng w)
       = (Ok (map Z.of_nat it, map Z.of_nat iv), w_rng w')
    /\ Permutation (it ++ iv) (seq 0 (length (l_color acc)))
    /\ length it = Z.to_nat n_train /\ length iv = Z.to_nat n_test
    /\ depth_init (Sklearn.samples_at (l_color acc) it) (Sklearn.samples_at (l_sensor acc) it)
                  (Sklearn.samples_at (l_mask acc) it) (Sklearn.samples_at (l_target acc) it)
       = Ok tr
    /\ depth_init (Sklearn.samples_at (l_color acc) iv) (Sklearn.samples_at (l_sensor acc) iv)
                  (Sklearn.samples_at (l_mask acc) iv) (Sklearn.samples_at (l_target acc) iv)
       = Ok va
    /\ w_trace w'
       = w_trace w
         ++ EvGlob root "val_selection_cropped/image/*.png"
            :: flat_map (fun name =>
                 match file_prefix_suffix name with
                 | Ok (p, s) => [EvOpen root ("val_selection_cropped/image/" +:+ name);
                                 EvOpen root (velodyne_path p s);
                                 EvOpen root (groundtruth_path p s)]
                 | Err _ => []
                 end) (fs_glob root "val_selection_cropped/image/*.png").
Proof.
  intros Hrun. unfold load_kitti_depth_dataset in Hrun.
  run Hrun as root w0 Eroot. apply as_path_ok_inv in Eroot as [Hdir ->].
  run Hrun as names w1 Eglob. apply glob_run in Eglob as (-> & T1 & G1).
  run Hrun as acc w2 Eloop. pose proof Eloop as Eloop'.
  pose proof (depth_train_loop_length _ _ _ _ _ _ Eloop) as (Hc & Hs & Hm & Ht).
  simpl in Hc, Hs, Hm, Ht.
  apply depth_train_loop_run in Eloop
    as (Cn & Sn & Mn & Tn & _ & _ & _ & _ & _ & _ & _ & _ & T2 & G2).
  run Hrun as parts w3 Esplit. apply train_test_split_world in Esplit as [Hsplit T3].
  apply sk_split_inv in Hsplit
    as (n & n_train & n_test & it & iv & Hall & Hv & Hsi & Hp & Hlt & Hlv & ->).
  assert (n = length (l_color acc)) as -> by (inversion Hall; congruence).
  simpl in Hrun.
  run Hrun as d1 w4 Etr. apply lift_ok_inv in Etr as [Htr ->].
  run Hrun as d2 w5 Eva. apply lift_ok_inv in Eva as [Hva ->].
  apply ret_ok_inv in Hrun as [-> ->].
  exists root, acc, n_train, n_test, it, iv, d1, d2, w1, w2.
  repeat match goal with |- _ /\ _ => split end; try assumption; try congruence.
  rewrite T3, T2, T1, <- !app_assoc. reflexivity.
Qed.

(** Everything a successful run of the depth loader on the test set has
    done. *)
Lemma depth_loader_test_run (load_dir : py_value) (q : Q) (sh : bool) (rs : option Z)
    (w : world) (r : depth_datasets) (w' : world) :
  load_kitti_depth_dataset load_dir q sh rs false w = (Ok r, w') ->
  exists (root : string) (acc : depth_lists) (te : KittiDepthDataset) (w0 w1 : world),
    r = Test te
    /\ (load_dir = PyPath root \/ load_dir = PyStr root)
    /\ depth_test_loop root (fs_glob root "test_depth_completion_anonymous/image/*.png")
         no_lists w0 = (Ok acc, w1)
    /\ length (l_color acc)
       = length (fs_glob root "test_depth_completion_anonymous/image/*.png")
    /\ depth_init (l_color acc) (l_sensor acc) (l_mask acc) (l_target acc) = Ok te
    /\ w_rng w' = w_rng w
    /\ w_trace w'
       = w_trace w
         ++ EvGlob root "test_depth_completion_anonymous/image/*.png"
            :: flat_map (fun name =>
                 [EvOpen root ("test_depth_completion_anonymous/image/" +:+ name);
                  EvOpen root ("test_depth_completion_anonymous/velodyne_raw/" +:+ name)])
                 (fs_glob root "test_depth_completion_anonymous/image/*.png").
Proof.
  intros Hrun. unfold load_kitti_depth_dataset in Hrun.
  run Hrun as root w0 Eroot. apply as_path_ok_inv in Eroot as [Hdir ->].
  run Hrun as names w1 Eglob. apply glob_run in Eglob as (-> & T1 & G1).
  run Hrun as acc w2 Eloop. pose proof Eloop as Eloop'.
  pose proof (depth_test_loop_spec _ _ _ _ _ _ Eloop) as [(Hc & _) _].
  simpl in Hc.
  apply depth_test_loop_run in Eloop
    as (Cn & Sn & Mn & _ & _ & _ & _ & _ & _ & _ & T2 & G2).
  run Hrun as d1 w3 Ete. apply lift_ok_inv in Ete as [Hte ->].
  apply ret_ok_inv in Hrun as [-> ->].
  exists root, acc, d1, w1, w2.
  repeat match goal with |- _ /\ _ => split end; try assumption; try congruence.
  rewrite T2, T1, <- !app_assoc. reflexivity.
Qed.

End LoaderRuns.

(** ** What the loaders need, and what they do with it *)

Lemma stack_nonempty (ts : list Tensor) (t : Tensor) :
  stack ts = Ok t -> (0 < length ts)%nat.
Proof. intros Hst. now destruct (stack_shapes ts t Hst) as (t0 & _ & _ & _ & Hpos). Qed.

Lemma partition_sizes (n : nat) (q : Q) (tr te : Z) (it iv : list nat) :
  Sklearn.validate_shuffle_split n q = Ok (tr, te) ->
  length it = Z.to_nat tr -> length iv = Z.to_nat te ->
  (1 <= length it)%nat /\ (1 <= length iv)%nat /\ (length it + length iv = n)%nat
  /\ Z.of_nat (length iv) = Qceiling (q * inject_Z (Z.of_nat n)).
Proof.
  intros Hv Hit Hiv. destruct (validate_ok n q tr te Hv) as (Hte & Htr & Hsum & Hceil).
  repeat split; lia.
Qed.


Section LoaderExtras.
Context `{FileSystem} `{Transforms} `{Rng}.

Lemma bind_ok {A B} (m : M A) (k : A -> M B) (w : world) (a : A) (w1 : world) :
  m w = (Ok a, w1) -> bind m k w = k a w1.
Proof. unfold bind. now intros ->. Qed.

Lemma bind_err {A B} (m : M A) (k : A -> M B) (w : world) (e : exn) (w1 : world) :
  m w = (Err e, w1) -> bind m k w = (Err e, w1).
Proof. unfold bind. now intros ->. Qed.

Lemma as_path_ok (load_dir : py_value) (root : string) (w : world) :
  load_dir = PyPath root \/ load_dir = PyStr root -> as_path load_dir w = (Ok root, w).
Proof. intros [-> | ->]; reflexivity. Qed.

Lemma glob_value (root pattern : string) (w : world) :
  glob root pattern w
  = (Ok (fs_glob root pattern), mkWorld (w_trace w ++ [EvGlob root pattern]) (w_rng w)).
Proof. reflexivity. Qed.

Lemma split_of_nothing (arrays : list (list Tensor)) (q : Q) (sh : bool) (rs : option Z)
    (w : world) :
  train_test_split ([] :: arrays) q sh rs w = (Err ValueError, w).
Proof.
  unfold train_test_split, Sklearn.train_test_split. cbn [length].
  destruct (negb _); [now destruct w |].
  rewrite validate_empty. now destruct w.
Qed.

Lemma semantics_loader_sizes (load_dir : py_value) (q : Q) (sh : bool)
    (rs : option Z) (w : world) (tr va te : KittiSemanticsDataset) (w' : world) :
  load_kitti_semantics_dataset load_dir q sh rs w = (Ok (tr, va, te), w') ->
  exists (root : string) (n_train n_val : nat),
    (load_dir = PyPath root \/ load_dir = PyStr root)
    /\ (0 < q)%Q /\ (q < 1)%Q
    /\ semantics_len tr = Ok n_train /\ semantics_len va = Ok n_val
    /\ (1 <= n_train)%nat /\ (1 <= n_val)%nat
    /\ (n_train + n_val = length (fs_glob root "training/image_2/*.png"))%nat
    /\ Z.of_nat n_val
       = Qceiling (q * inject_Z (Z.of_nat (length (fs_glob root "training/image_2/*.png"))))
    /\ semantics_len te = Ok (length (fs_glob root "testing/image_2/*.png"))
    /\ (1 <= length (fs_glob root "testing/image_2/*.png"))%nat.
Proof.
  intros Hrun.
  apply semantics_loader_run in Hrun
    as (root & X & Y & Xt & ntr & nte & it & iv & w0 & w1 & w2 & w3 & Hdir & _ & _
        & HX & HY & HXt & Hv & Hsi & Hp & Hlt & Hlv & Htr & Hva & Hte & _).
  destruct (validate_ratio _ _ _ _ Hv) as [Hq0 Hq1].
  destruct (partition_sizes _ _ _ _ it iv Hv Hlt Hlv) as (Hn1 & Hn2 & Hsum & Hceil).
  destruct (perm_in_range it iv _ Hp) as [Hit Hiv].
  apply semantics_init_len in Htr as (Ltr & _ & _ & _).
  apply semantics_init_len in Hva as (Lva & _ & _ & _).
  apply semantics_init_len in Hte as (Lte & _ & Hst & _).
  rewrite samples_at_length in Ltr, Lva by assumption.
  apply stack_nonempty in Hst.
  apply Forall2_length in HX, HXt.
  exists root, (length it), (length iv). unfold semantics_len.
  rewrite HX, HXt.
  repeat match goal with |- _ /\ _ => split end; try assumption; lia.
Qed.



(** X13: with no image in the training folder the semantics loader
    raises the [ValueError] of [train_test_split], whatever the fraction,
    after listing that one folder: no file is opened and the test folder
    is not looked at. *)
Theorem semantics_empty_training (load_dir : py_value) (root : string) (val_ratio : Q)
    (shuffle : bool) (random_state : option Z) (w : world) :
  load_dir = PyPath root \/ load_dir = PyStr root ->
  fs_glob root "training/image_2/*.png" = [] ->
  load_kitti_semantics_dataset load_dir val_ratio shuffle random_state w
  = (Err ValueError,
     mkWorld (w_trace w ++ [EvGlob root "training/image_2/*.png"]) (w_rng w)).
Proof.
  intros Hdir Hempty. unfold load_kitti_semantics_dataset.
  rewrite (bind_ok _ _ _ _ _ (as_path_ok _ _ w Hdir)).
  rewrite (bind_ok _ _ _ _ _ (glob_value _ _ w)), Hempty.
  cbn [semantics_train_loop].
  rewrite (bind_ok (ret ([], [])) _ _ _ _ eq_refl). cbv beta iota.
  now rewrite (bind_err _ _ _ _ _ (split_of_nothing _ _ _ _ _)).
Qed.

(** X14: with no image in its folder the depth loader raises the
    [ValueError] of [train_test_split] when it loads the training set, and
    the [RuntimeError] of [torch.stack] when it loads the test set; in
    both cases the folder has been listed and no file opened. *)
Theorem depth_empty_folder (load_dir : py_value) (root : string) (val_ratio : Q)
    (shuffle : bool) (random_state : option Z) (w : world) :
  load_dir = PyPath root \/ load_dir = PyStr root ->
  (fs_glob root "val_selection_cropped/image/*.png" = [] ->
     load_kitti_depth_dataset load_dir val_ratio shuffle random_state true w
     = (Err ValueError,
        mkWorld (w_trace w ++ [EvGlob root "val_selection_cropped/image/*.png"]) (w_rng w)))
  /\ (fs_glob root "test_depth_completion_anonymous/image/*.png" = [] ->
     load_kitti_depth_dataset load_dir val_ratio shuffle random_state false w
     = (Err RuntimeError,
        mkWorld (w_trace w ++ [EvGlob root "test_depth_completion_anonymous/image/*.png"])
                (w_rng w))).
Proof.
  intros Hdir. unfold load_kitti_depth_dataset.
  split; intros Hempty;
    rewrite (bind_ok _ _ _ _ _ (as_path_ok _ _ w Hdir)); cbv beta iota.
  - rewrite (bind_ok _ _ _ _ _ (glob_value _ _ w)), Hempty.
    cbn [depth_train_loop].
    rewrite (bind_ok (ret no_lists) _ _ _ _ eq_refl).
    cbn [no_lists l_color l_sensor l_mask l_target].
    now rewrite (bind_err _ _ _ _ _ (split_of_nothing _ _ _ _ _)).
  - rewrite (bind_ok _ _ _ _ _ (glob_value _ _ w)), Hempty.
    cbn [depth_test_loop].
    rewrite (bind_ok (ret no_lists) _ _ _ _ eq_refl).
    reflexivity.
Qed.


(** *** numpy's global generator *)

Lemma bind_keeps {A B} (m : M A) (k : A -> M B) :
  keeps_generator m -> (forall a, keeps_generator (k a)) -> keeps_generator (bind m k).
Proof.
  intros Hm Hk w. unfold bind. specialize (Hm w).
  destruct (m w) as [[a|e] w1]; simpl in Hm.
  - rewrite <- Hm. apply Hk.
  - exact Hm.
Qed.

Lemma lift_keeps {A} (r : result A) : keeps_generator (lift r).
Proof. intros w. reflexivity. Qed.

Lemma ret_keeps {A} (a : A) : keeps_generator (ret a).
Proof. intros w. reflexivity. Qed.

Lemma raise_keeps {A} (e : exn) : keeps_generator (@raise _ A e).
Proof. intros w. reflexivity. Qed.

Lemma load_image_keeps (root rel : string) : keeps_generator (load_image root rel).
Proof. intros w. unfold load_image, bind, log. now destruct (fs_open root rel). Qed.

Lemma glob_keeps (root pattern : string) : keeps_generator (glob root pattern).
Proof. intros w. reflexivity. Qed.

Lemma as_path_keeps (load_dir : py_value) : keeps_generator (as_path load_dir).
Proof. intros w. now destruct load_dir. Qed.

Lemma train_test_split_keeps (arrays : list (list Tensor)) (q : Q) (sh : bool)
    (rs : option Z) :
  sh = false \/ is_Some rs -> keeps_generator (train_test_split arrays q sh rs).
Proof.
  intros Hcase w. unfold train_test_split.
  destruct (sk_split_rng arrays q sh rs (w_rng w)) as [E | (-> & -> & _)].
  - destruct (Sklearn.train_test_split arrays q sh rs (w_rng w)). exact E.
  - destruct Hcase as [? | [? ?]]; discriminate.
Qed.

Ltac keep_step :=
  first
    [ apply ret_keeps
    | apply raise_keeps
    | apply lift_keeps
    | apply load_image_keeps
    | apply glob_keeps
    | apply as_path_keeps
    | apply bind_keeps; [| intros [? ?] || intros ?] ].

Lemma semantics_train_loop_keeps d names X Y :
  keeps_generator (semantics_train_loop d names X Y).
Proof.
  revert X Y. induction names as [|name names IH]; intros X Y; simpl.
  - apply ret_keeps.
  - repeat keep_step. apply IH.
Qed.

Lemma semantics_test_loop_keeps d names X Y :
  keeps_generator (semantics_test_loop d names X Y).
Proof.
  revert X Y. induction names as [|name names IH]; intros X Y; simpl.
  - apply ret_keeps.
  - repeat keep_step. apply IH.
Qed.

Lemma depth_train_loop_keeps d names acc :
  keeps_generator (depth_train_loop d names acc).
Proof.
  revert acc. induction names as [|name names IH]; intros acc; simpl.
  - apply ret_keeps.
  - repeat keep_step. apply IH.
Qed.

Lemma depth_test_loop_keeps d names acc :
  keeps_generator (depth_test_loop d names acc).
Proof.
  revert acc. induction names as [|name names IH]; intros acc; simpl.
  - apply ret_keeps.
  - repeat keep_step. apply IH.
Qed.

Lemma split_indices_draws (n : nat) (tr te : Z) (g g' : rng_state)
    (r : list Z * list Z) :
  Sklearn.split_indices n tr te true None g = (Ok r, g') ->
  g' = snd (rng_permutation g n).
Proof.
  unfold Sklearn.split_indices.
  destruct (Sklearn.validate_counts n tr te); [| discriminate].
  simpl. destruct (rng_permutation g n) as [p g1]. now intros [= _ <-].
Qed.

(** X16: a call with a seed, or without shuffling, leaves numpy's global
    generator in the state it found it in, whether it returns or raises;
    so does every call that loads the depth test set. A call that
    shuffles without a seed and returns has advanced the global generator
    by exactly one permutation of the training samples. *)
Theorem loaders_and_the_global_generator (load_dir : py_value) (val_ratio : Q)
    (shuffle : bool) (random_state : option Z) (train : bool) :
  (shuffle = false \/ is_Some random_state ->
     keeps_generator (load_kitti_semantics_dataset load_dir val_ratio shuffle random_state)
     /\ keeps_generator
          (load_kitti_depth_dataset load_dir val_ratio shuffle random_state train))
  /\ keeps_generator (load_kitti_depth_dataset load_dir val_ratio shuffle random_state false)
  /\ (forall r w w',
        load_kitti_semantics_dataset load_dir val_ratio true None w = (Ok r, w') ->
        exists root : string,
          (load_dir = PyPath root \/ load_dir = PyStr root)
          /\ w_rng w'
             = snd (rng_permutation (w_rng w)
                      (length (fs_glob root "training/image_2/*.png"))))
  /\ (forall r w w',
        load_kitti_depth_dataset load_dir val_ratio true None true w = (Ok r, w') ->
        exists root : string,
          (load_dir = PyPath root \/ load_dir = PyStr root)
          /\ w_rng w'
             = snd (rng_permutation (w_rng w)
                      (length (fs_glob root "val_selection_cropped/image/*.png")))).
Proof.
  assert (keeps_generator
            (load_kitti_depth_dataset load_dir val_ratio shuffle random_state false)) as Htest.
  { unfold load_kitti_depth_dataset. repeat keep_step. apply depth_test_loop_keeps. }
  split; [| split; [exact Htest | split]].
  - intros Hcase. split.
    + unfold load_kitti_semantics_dataset.
      apply bind_keeps; [apply as_path_keeps | intros root].
      apply bind_keeps; [apply glob_keeps | intros names].
      apply bind_keeps; [apply semantics_train_loop_keeps | intros [X Y]].
      apply bind_keeps; [now apply train_test_split_keeps | intros parts].
      destruct parts as [|? [|? [|? [|? [|? ?]]]]]; try apply raise_keeps.
      apply bind_keeps; [apply glob_keeps | intros names_test].
      apply bind_keeps; [apply semantics_test_loop_keeps | intros [X_test Y_test]].
      repeat keep_step.
    + destruct train; [| exact Htest].
      unfold load_kitti_depth_dataset.
      apply bind_keeps; [apply as_path_keeps | intros root].
      apply bind_keeps; [apply glob_keeps | intros names].
      apply bind_keeps; [apply depth_train_loop_keeps | intros acc].
      apply bind_keeps; [now apply train_test_split_keeps | intros parts].
      destruct parts as [|? [|? [|? [|? [|? [|? [|? [|? [|? ?]]]]]]]]];
        try apply raise_keeps.
      repeat keep_step.
  - intros [[tr va] te] w w' Hrun.
    apply semantics_loader_run in Hrun
      as (root & X & Y & Xt & ntr & nte & it & iv & w0 & w1 & w2 & w3 & Hdir & _ & _
          & HX & _ & _ & _ & Hsi & _).
    exists root. split; [exact Hdir |].
    apply split_indices_draws in Hsi. apply Forall2_length in HX. now rewrite HX.
  - intros r w w' Hrun.
    apply depth_loader_train_run in Hrun
      as (root & acc & ntr & nte & it & iv & tr' & va' & w0 & w1 & _ & Hdir & _
          & Hc & _ & _ & _ & _ & Hsi & _).
    exists root. split; [exact Hdir |].
    apply split_indices_draws in Hsi. now rewrite <- Hc.
Qed.

End LoaderExtras.

(** ** Which files become which samples *)

Section LoaderReads.
Context `{FileSystem} `{Transforms} `{Rng}.

(** X17: the loops of the semantics loader pair the files by name: sample
    [i] of [X] is the preprocessed image [training/image_2/<name>] and
    sample [i] of [Y] the preprocessed image [training/semantic_rgb/<name>]
    of the same [i]-th listed name; a test sample is the preprocessed
    image [testing/image_2/<name>] and its target the zero tensor of its
    shape. *)
Theorem semantics_loops_read (root : string) (names : list string) (w : world) :
  (forall X Y w',
      semantics_train_loop root names [] [] w = (Ok (X, Y), w') ->
      Forall2 (fun name x => exists image,
                 fs_open root ("training/image_2/" +:+ name) = Some image
                 /\ preprocess_c image = Ok x) names X
      /\ Forall2 (fun name y => exists image,
                 fs_open root ("training/semantic_rgb/" +:+ name) = Some image
                 /\ preprocess_c image = Ok y) names Y)
  /\ (forall X_test Y_test w',
      semantics_test_loop root names [] [] w = (Ok (X_test, Y_test), w') ->
      Forall2 (fun name x => exists image,
                 fs_open root ("testing/image_2/" +:+ name) = Some image
                 /\ preprocess_c image = Ok x) names X_test
      /\ Y_test = map zeros_like X_test).
Proof.
  split.
  - intros X Y w' Hrun.
    apply semantics_train_loop_run in Hrun as (Xn & Yn & -> & -> & HX & HY & _).
    split; assumption.
  - intros X Y w' Hrun.
    apply semantics_test_loop_run in Hrun as (Xn & -> & -> & HX & _).
    split; [assumption | reflexivity].
Qed.

(** X18: the loops of the depth loader pair the files by name. For the
    [i]-th listed name, split into prefix and suffix, the colour sample is
    the preprocessed image of that name, the sensor sample is the tensor
    of [<prefix>_velodyne_raw_<suffix>], the mask sample the tensor of the
    mask of that same sensor image, and the target the tensor of
    [<prefix>_groundtruth_depth_<suffix>]. On the test set the sensor file
    has the name of the colour file and the target is the zero tensor of
    the colour sample's shape. *)
Theorem depth_loops_read (root : string) (names : list string) (w : world) :
  (forall acc w',
      depth_train_loop root names no_lists w = (Ok acc, w') ->
      Forall2 (fun name x => exists image,
                 fs_open root ("val_selection_cropped/image/" +:+ name) = Some image
                 /\ preprocess_c image = Ok x) names (l_color acc)
      /\ Forall2 (fun name x => exists p s image,
                 file_prefix_suffix name = Ok (p, s)
                 /\ fs_open root ("val_selection_cropped/velodyne_raw/" +:+ p
                                   +:+ "_velodyne_raw_" +:+ s) = Some image
                 /\ x = to_tensor_F (resize_F (convert_F image))) names (l_sensor acc)
      /\ Forall2 (fun name x => exists p s image mask,
                 file_prefix_suffix name = Ok (p, s)
                 /\ fs_open root ("val_selection_cropped/velodyne_raw/" +:+ p
                                   +:+ "_velodyne_raw_" +:+ s) = Some image
                 /\ generate_mask image = Ok mask
                 /\ x = to_tensor_F (resize_F (convert_F mask))) names (l_mask acc)
      /\ Forall2 (fun name y => exists p s image,
                 file_prefix_suffix name = Ok (p, s)
                 /\ fs_open root ("val_selection_cropped/groundtruth_depth/" +:+ p
                                   +:+ "_groundtruth_depth_" +:+ s) = Some image
                 /\ y = to_tensor_F (resize_F (convert_F image))) names (l_target acc))
  /\ (forall acc w',
      depth_test_loop root names no_lists w = (Ok acc, w') ->
      Forall2 (fun name x => exists image,
                 fs_open root ("test_depth_completion_anonymous/image/" +:+ name)
                   = Some image
                 /\ preprocess_c image = Ok x) names (l_color acc)
      /\ Forall2 (fun name x => exists image,
                 fs_open root ("test_depth_completion_anonymous/velodyne_raw/" +:+ name)
                   = Some image
                 /\ x = to_tensor_F (resize_F (convert_F image))) names (l_sensor acc)
      /\ Forall2 (fun name x => exists image mask,
                 fs_open root ("test_depth_completion_anonymous/velodyne_raw/" +:+ name)
                   = Some image
                 /\ generate_mask image = Ok mask
                 /\ x = to_tensor_F (resize_F (convert_F mask))) names (l_mask acc)
      /\ l_target acc = map zeros_like (l_color acc)).
Proof.
  split.
  - intros acc w' Hrun.
    apply depth_train_loop_run in Hrun
      as (Cn & Sn & Mn & Tn & -> & -> & -> & -> & HC & HS & HM & HT & _).
    repeat split; assumption.
  - intros acc w' Hrun.
    apply depth_test_loop_run in Hrun
      as (Cn & Sn & Mn & -> & -> & -> & -> & HC & HS & HM & _).
    repeat split; assumption.
Qed.

(** X19: a run of the semantics loader that returns has read the file
    system in this order and nowhere else: the listing of
    [training/image_2], then for each listed name the image and its label
    image, then the listing of [testing/image_2], then each listed test
    image. *)
Theorem semantics_loader_trace (load_dir : py_value) (val_ratio : Q) (shuffle : bool)
    (random_state : option Z) (w : world)
    (r : KittiSemanticsDataset * KittiSemanticsDataset * KittiSemanticsDataset)
    (w' : world) :
  load_kitti_semantics_dataset load_dir val_ratio shuffle random_state w = (Ok r, w') ->
  exists root : string,
    (load_dir = PyPath root \/ load_dir = PyStr root)
    /\ w_trace w'
       = w_trace w
         ++ EvGlob root "training/image_2/*.png"
            :: flat_map (fun name => [EvOpen root ("training/image_2/" +:+ name);
                                      EvOpen root ("training/semantic_rgb/" +:+ name)])
                        (fs_glob root "training/image_2/*.png")
         ++ EvGlob root "testing/image_2/*.png"
            :: map (fun name => EvOpen root ("testing/image_2/" +:+ name))
                   (fs_glob root "testing/image_2/*.png").
Proof.
  destruct r as [[tr va] te]. intros Hrun.
  apply semantics_loader_run in Hrun
    as (root & X & Y & Xt & ntr & nte & it & iv & w0 & w1 & w2 & w3 & Hdir & _ & _
        & _ & _ & _ & _ & _ & _ & _ & _ & _ & _ & _ & Htrace).
  exists root. split; assumption.
Qed.

(** X20: a run of the depth loader that returns has read only its own
    folder. For the training set: the listing of
    [val_selection_cropped/image], then for each listed name the colour
    image, the sensor image and the ground truth, every listed name having
    split into a prefix and a suffix. For the test set: the listing of
    [test_depth_completion_anonymous/image], then for each listed name the
    colour image and the sensor image. *)
Theorem depth_loader_trace (load_dir : py_value) (val_ratio : Q) (shuffle : bool)
    (random_state : option Z) (w : world) (r : depth_datasets) (w' : world) :
  (load_kitti_depth_dataset load_dir val_ratio shuffle random_state true w = (Ok r, w') ->
   exists root : string,
     (load_dir = PyPath root \/ load_dir = PyStr root)
     /\ Forall (fun name => exists p s, file_prefix_suffix name = Ok (p, s))
               (fs_glob root "val_selection_cropped/image/*.png")
     /\ w_trace w'
        = w_trace w
          ++ EvGlob root "val_selection_cropped/image/*.png"
             :: flat_map (fun name =>
                  match file_prefix_suffix name with
                  | Ok (p, s) =>
                      [EvOpen root ("val_selection_cropped/image/" +:+ name);
                       EvOpen root ("val_selection_cropped/velodyne_raw/" +:+ p
                                    +:+ "_velodyne_raw_" +:+ s);
                       EvOpen root ("val_selection_cropped/groundtruth_depth/" +:+ p
                                    +:+ "_groundtruth_depth_" +:+ s)]
                  | Err _ => []
                  end) (fs_glob root "val_selection_cropped/image/*.png"))
  /\ (load_kitti_depth_dataset load_dir val_ratio shuffle random_state false w = (Ok r, w') ->
   exists root : string,
     (load_dir = PyPath root \/ load_dir = PyStr root)
     /\ w_trace w'
        = w_trace w
          ++ EvGlob root "test_depth_completion_anonymous/image/*.png"
             :: flat_map (fun name =>
                  [EvOpen root ("test_depth_completion_anonymous/image/" +:+ name);
                   EvOpen root ("test_depth_completion_anonymous/velodyne_raw/" +:+ name)])
                  (fs_glob root "test_depth_completion_anonymous/image/*.png")).
Proof.
  split; intros Hrun.
  - apply depth_loader_train_run in Hrun
      as (root & acc & ntr & nte & it & iv & tr' & va' & w0 & w1 & _ & Hdir & Hloop
          & _ & _ & _ & _ & _ & _ & _ & _ & _ & _ & _ & Htrace).
    exists root. split; [exact Hdir |]. split; [| exact Htrace].
    apply depth_train_loop_run in Hloop
      as (Cn & Sn & Mn & Tn & _ & _ & _ & _ & _ & HS & _).
    clear -HS. induction HS as [|name x names Sn (p & s & image & Hps & _) _ IH];
      constructor; eauto.
  - apply depth_loader_test_run in Hrun
      as (root & acc & te' & w0 & w1 & _ & Hdir & _ & _ & _ & _ & Htrace).
    exists root. split; assumption.
Qed.

End LoaderReads.

(** ** The entry point *)

Lemma ceil_fifth (n : nat) :
  Qceiling ((2 # 10) * inject_Z (Z.of_nat n)) = Z.of_nat ((n + 4) / 5).
Proof.
  unfold Qceiling, Qfloor, Qopp, Qmult, inject_Z. cbn [Qnum Qden].
  rewrite Nat2Z.inj_div. change (Z.pos (10 * 1)) with 10%Z.
  replace (Z.of_nat (n + 4)) with (Z.of_nat n + 4)%Z by lia.
  change (Z.of_nat 5) with 5%Z.
  Z.div_mod_to_equations. lia.
Qed.

Section EntryPointFacts.
Context `{FileSystem} `{Transforms} `{Rng}.

(** X21: run as a script, the module prints three numbers: with [n]
    images listed in the training folder of the hard-coded data directory
    and [t] in its test folder, they are [n - ceil(n / 5)], [ceil(n / 5)]
    and [t]; the script gets that far only when [n] is at least 2 and [t]
    at least 1. *)
Theorem main_prints (w : world) (printed : list nat) (w' : world) :
  main w = (Ok printed, w') ->
  exists n t : nat,
    n = length (fs_glob main_load_dir "training/image_2/*.png")
    /\ t = length (fs_glob main_load_dir "testing/image_2/*.png")
    /\ printed = [(n - (n + 4) / 5)%nat; ((n + 4) / 5)%nat; t]
    /\ (2 <= n)%nat /\ (1 <= t)%nat.
Proof.
  intros Hrun. unfold main in Hrun.
  apply bind_ok_inv in Hrun as ([[tr va] te] & w1 & Eload & Hrun).
  apply bind_ok_inv in Hrun as (n_train & w2 & E1 & Hrun).
  apply lift_ok_inv in E1 as [E1 ->].
  apply bind_ok_inv in Hrun as (n_val & w3 & E2 & Hrun).
  apply lift_ok_inv in E2 as [E2 ->].
  apply bind_ok_inv in Hrun as (n_test & w4 & E3 & Hrun).
  apply lift_ok_inv in E3 as [E3 ->].
  apply ret_ok_inv in Hrun as [-> ->].
  apply semantics_loader_sizes in Eload
    as (root & n_tr & n_va & Hdir & _ & _ & Ltr & Lva & Hn1 & Hn2 & Hsum & Hceil & Lte & Ht).
  assert (root = main_load_dir) as -> by (destruct Hdir as [[= ->] | [=]]; reflexivity).
  rewrite ceil_fifth in Hceil. apply Nat2Z.inj in Hceil.
  assert (n_train = n_tr) as -> by congruence.
  assert (n_val = n_va) as -> by congruence.
  assert (n_test = length (fs_glob main_load_dir "testing/image_2/*.png")) as ->
    by congruence.
  eexists _, _. split; [reflexivity |]. split; [reflexivity |].
  split; [| split; [lia | exact Ht]].
  rewrite <- Hceil. f_equal. lia.
Qed.

End EntryPointFacts.

(** ** Showing what the loaders return *)

Lemma samples_at_all {A} (P : A -> Prop) (a : list A) (idx : list nat) :
  Forall P a -> Forall P (Sklearn.samples_at a idx).
Proof.
  intros Ha. unfold Sklearn.samples_at. induction idx as [|i idx IH]; [constructor |].
  cbn [omap list_omap]. destruct (a !! i) as [x|] eqn:E; [| exact IH].
  constructor; [| exact IH]. rewrite Forall_forall in Ha. apply Ha.
  eapply list_elem_of_lookup_2. exact E.
Qed.

Lemma stack_item_shape (P : list nat -> Prop) (ts : list Tensor) (t x : Tensor)
    (index : Z) :
  stack ts = Ok t -> Forall (fun u => P (t_shape u)) ts ->
  tensor_getitem t index = Ok x -> P (t_shape x).
Proof.
  intros Hst HP Hget.
  destruct (stack_shapes ts t Hst) as (t0 & Hs & _ & Hsame & Hpos).
  destruct ts as [|u ts']; [simpl in Hpos; lia |].
  apply Forall_cons_1 in HP as [Hu _]. apply Forall_cons_1 in Hsame as [Eu _].
  unfold tensor_getitem in Hget. rewrite Hs in Hget.
  destruct (_ && _); [| discriminate]. injection Hget as <-. simpl.
  now rewrite <- Eu.
Qed.

Section ShowLoaded.
Context `{FileSystem} `{Transforms} `{Rng} `{Pyplot}.

Lemma preprocess_c_ok_shape (image : Image) (x : Tensor) :
  preprocess_c image = Ok x -> exists h w, t_shape x = [3; h; w]%nat.
Proof.
  unfold preprocess_c.
  pose proof (to_tensor_ndim (resize image)) as Hnd.
  destruct (t_shape (to_tensor (resize image))) as [|c [|h [|w [|? ?]]]] eqn:Hs;
    try discriminate Hnd.
  destruct (tensor_is_float (im_mode (resize image))); [| discriminate].
  rewrite (normalize_c_shape (to_tensor (resize image)) c h w Hs).
  destruct (Nat.eqb_spec c 3) as [-> | Hc]; [| discriminate].
  intros [= <-]. eauto.
Qed.

Lemma colour_samples_shape (names : list string) (X : list Tensor) (root dir : string) :
  Forall2 (fun name x => exists image,
             fs_open root (dir +:+ name) = Some image /\ preprocess_c image = Ok x)
          names X ->
  Forall (fun x => exists h w, t_shape x = [3; h; w]%nat) X.
Proof.
  induction 1 as [|name x names X (image & _ & Hx) _ IH]; constructor; [| exact IH].
  eapply preprocess_c_ok_shape. exact Hx.
Qed.

(** X22: every item of the three datasets the semantics loader returns
    can be handed to [show_image]: the image and its target are tensors of
    shape (3, H, W), and [imshow] is called with the array of shape
    (H, W, 3) obtained by moving the channel axis last. *)
Theorem loaded_items_are_shown (load_dir : py_value) (val_ratio : Q) (shuffle : bool)
    (random_state : option Z) (w : world)
    (train_dataset val_dataset test_dataset d : KittiSemanticsDataset) (w' : world)
    (index : Z) (x y : Tensor) (show : bool) :
  load_kitti_semantics_dataset load_dir val_ratio shuffle random_state w
    = (Ok (train_dataset, val_dataset, test_dataset), w') ->
  In d [train_dataset; val_dataset; test_dataset] ->
  semantics_getitem d index = Ok (x, y) ->
  Forall (fun t => exists h w rest,
            t_shape t = [3; h; w]%nat
            /\ snd (show_image (ArgTensor t) show)
               = PltImshow (mkPlot [h; w; 3]%nat
                              (FloatCells (transpose_120 3 h w (t_data t)))) :: rest)
         [x; y].
Proof.
  intros Hrun Hd Hget.
  apply semantics_loader_run in Hrun
    as (root & X & Y & Xt & ntr & nte & it & iv & w0 & w1 & w2 & w3 & Hdir & _ & _
        & HX & HY & HXt & _ & _ & _ & _ & _ & Htr & Hva & Hte & _).
  apply colour_samples_shape in HX, HY, HXt.
  assert (Forall (fun x => exists h w, t_shape x = [3; h; w]%nat) (map zeros_like Xt))
    as HYt.
  { apply Forall_fmap. eapply Forall_impl; [exact HXt |]. intros t Ht. exact Ht. }
  assert (exists A B, semantics_init A B = Ok d
                      /\ Forall (fun x => exists h w, t_shape x = [3; h; w]%nat) A
                      /\ Forall (fun x => exists h w, t_shape x = [3; h; w]%nat) B)
    as (A & B & Hinit & HA & HB).
  { destruct Hd as [<- | [<- | [<- | []]]].
    - exists (Sklearn.samples_at X it), (Sklearn.samples_at Y it).
      split; [exact Htr |]. split; now apply samples_at_all.
    - exists (Sklearn.samples_at X iv), (Sklearn.samples_at Y iv).
      split; [exact Hva |]. split; now apply samples_at_all.
    - exists Xt, (map zeros_like Xt). auto. }
  apply semantics_init_len in Hinit as (_ & _ & HsA & HsB).
  unfold semantics_getitem in Hget.
  destruct (tensor_getitem (ds_X d) index) as [x'|] eqn:Ex; [| discriminate].
  destruct (tensor_getitem (ds_Y d) index) as [y'|] eqn:Ey; [| discriminate].
  simpl in Hget. injection Hget as -> ->.
  pose proof (stack_item_shape (fun s => exists h w, s = [3; h; w]%nat) _ _ _ _ HsA HA Ex)
    as (hx & wx & Hx).
  pose proof (stack_item_shape (fun s => exists h w, s = [3; h; w]%nat) _ _ _ _ HsB HB Ey)
    as (hy & wy & Hy).
  constructor; [| constructor; [| constructor]].
  - destruct (show_tensor_chw x 3 hx wx show Hx) as [rest Hrest]; [lia |]. eauto.
  - destruct (show_tensor_chw y 3 hy wy show Hy) as [rest Hrest]; [lia |]. eauto.
Qed.

End ShowLoaded.

(** ** When the semantics loader returns *)



Section LoaderReturns.
Context `{FileSystem} `{Transforms} `{Rng}.






End LoaderReturns.

(** ** The further properties at work on the small instances *)

Lemma show_image_value_error_example :
  @show_image ToyPlot.pyplot (ArgOther PyNone) true = (Err ValueError, [])
  /\ @show_image ToyPlot.pyplot (ArgArray (mkArray UInt8 [2; 2]%nat [1; 2; 3; 4]%Z)) false
     = (Err ValueError, []).
Proof.
  split.
  - apply (@show_image_value_error ToyPlot.pyplot (ArgOther PyNone) true). exact I.
  - apply (@show_image_value_error ToyPlot.pyplot
             (ArgArray (mkArray UInt8 [2; 2]%nat [1; 2; 3; 4]%Z)) false).
    simpl. lia.
Defined.



Lemma semantics_empty_training_example :
  @load_kitti_semantics_dataset (Toy.listing []) Toy.transforms Toy.rng
    (PyStr "/data") (2 # 10) true None Toy.world0
  = (Err ValueError, @mkWorld Toy.rng [EvGlob "/data" "training/image_2/*.png"] 0%nat).
Proof.
  apply (@semantics_empty_training (Toy.listing []) Toy.transforms Toy.rng
           (PyStr "/data") "/data" (2 # 10) true None Toy.world0);
    [right; reflexivity | reflexivity].
Defined.

Lemma depth_empty_folder_example :
  @load_kitti_depth_dataset (Toy.listing []) Toy.transforms Toy.rng
    (PyStr "/data") (2 # 10) true None true Toy.world0
  = (Err ValueError,
     @mkWorld Toy.rng [EvGlob "/data" "val_selection_cropped/image/*.png"] 0%nat)
  /\ @load_kitti_depth_dataset (Toy.listing []) Toy.transforms Toy.rng
    (PyStr "/data") (2 # 10) true None false Toy.world0
  = (Err RuntimeError,
     @mkWorld Toy.rng [EvGlob "/data" "test_depth_completion_anonymous/image/*.png"] 0%nat).
Proof.
  destruct (@depth_empty_folder (Toy.listing []) Toy.transforms Toy.rng
              (PyStr "/data") "/data" (2 # 10) true None Toy.world0)
    as [Htrain Htest]; [right; reflexivity |].
  split; [exact (Htrain eq_refl) | exact (Htest eq_refl)].
Defined.


Lemma loaders_and_the_global_generator_example :
  keeps_generator (@load_kitti_semantics_dataset (Toy.listing Toy.ten_names)
                     Toy.transforms Toy.rng (PyStr "/data") (2 # 10) true (Some 0%Z))
  /\ exists r w',
       @load_kitti_semantics_dataset (Toy.listing Toy.ten_names) Toy.transforms Toy.rng
         (PyStr "/data") (2 # 10) true None Toy.world0 = (Ok r, w')
       /\ w_rng w' = 1%nat.
Proof.
  split.
  - destruct (@loaders_and_the_global_generator (Toy.listing Toy.ten_names) Toy.transforms
                Toy.rng (PyStr "/data") (2 # 10) true (Some 0%Z) true) as (Hkeep & _).
    assert (true = false \/ is_Some (Some 0%Z)) as Hseed by (right; eexists; reflexivity).
    exact (proj1 (Hkeep Hseed)).
  - destruct (@loaders_and_the_global_generator (Toy.listing Toy.ten_names) Toy.transforms
                Toy.rng (PyStr "/data") (2 # 10) true None true) as (_ & _ & Hdraw & _).
    assert (exists r w',
              @load_kitti_semantics_dataset (Toy.listing Toy.ten_names) Toy.transforms
                Toy.rng (PyStr "/data") (2 # 10) true None Toy.world0 = (Ok r, w'))
      as (r & w' & E)
      by (eexists; eexists; vm_compute; reflexivity).
    exists r, w'. split; [exact E |].
    destruct (Hdraw r Toy.world0 w' E) as (root & _ & Hg). exact Hg.
Defined.

Lemma semantics_loops_read_example :
  exists X Y w',
    @semantics_train_loop (Toy.listing Small.two_names) Toy.transforms Toy.rng
      "/data" Small.two_names [] [] Toy.world0 = (Ok (X, Y), w')
    /\ Forall2 (fun name x => exists image,
                  Toy.decode ("training/image_2/" +:+ name) = image
                  /\ @preprocess_c Toy.transforms image = Ok x) Small.two_names X
    /\ Forall2 (fun name y => exists image,
                  Toy.decode ("training/semantic_rgb/" +:+ name) = image
                  /\ @preprocess_c Toy.transforms image = Ok y) Small.two_names Y.
Proof.
  destruct (@semantics_loops_read (Toy.listing Small.two_names) Toy.transforms Toy.rng
              "/data" Small.two_names Toy.world0) as [Htrain _].
  assert (exists r w',
            @semantics_train_loop (Toy.listing Small.two_names) Toy.transforms Toy.rng
              "/data" Small.two_names [] [] Toy.world0 = (Ok r, w'))
    as ([X Y] & w' & E)
    by (eexists; eexists; vm_compute; reflexivity).
  exists X, Y, w'. split; [exact E |].
  destruct (Htrain X Y w' E) as [HX HY]. split.
  - eapply Forall2_impl; [exact HX |].
    intros name x (image & Ho & Hp). exists image. split; [| exact Hp].
    simpl in Ho. now injection Ho.
  - eapply Forall2_impl; [exact HY |].
    intros name y (image & Ho & Hp). exists image. split; [| exact Hp].
    simpl in Ho. now injection Ho.
Defined.

Lemma depth_loops_read_example :
  exists acc w',
    @depth_train_loop (Toy.listing Small.two_names) Toy.transforms Toy.rng
      "/data" Small.two_names no_lists Toy.world0 = (Ok acc, w')
    /\ Forall2 (fun name x => exists p s image mask,
                  file_prefix_suffix name = Ok (p, s)
                  /\ Toy.decode ("val_selection_cropped/velodyne_raw/" +:+ p
                                 +:+ "_velodyne_raw_" +:+ s) = image
                  /\ generate_mask image = Ok mask
                  /\ x = Toy.pixels_to_tensor mask) Small.two_names (l_mask acc).
Proof.
  destruct (@depth_loops_read (Toy.listing Small.two_names) Toy.transforms Toy.rng
              "/data" Small.two_names Toy.world0) as [Htrain _].
  assert (exists acc w',
            @depth_train_loop (Toy.listing Small.two_names) Toy.transforms Toy.rng
              "/data" Small.two_names no_lists Toy.world0 = (Ok acc, w'))
    as (acc & w' & E)
    by (eexists; eexists; vm_compute; reflexivity).
  exists acc, w'. split; [exact E |].
  destruct (Htrain acc w' E) as (_ & _ & HM & _).
  eapply Forall2_impl; [exact HM |].
  intros name x (p & s & image & mask & Hps & Ho & Hm & Hx).
  exists p, s, image, mask. repeat split; try assumption.
  simpl in Ho. now injection Ho.
Defined.

Lemma semantics_loader_trace_example :
  exists r w',
    Small.semantics_run true (Some 0%Z) = (Ok r, w')
    /\ w_trace w'
       = [EvGlob "/data" "training/image_2/*.png";
          EvOpen "/data" "training/image_2/2011_09_26_drive_0002_sync_image_0000000005_image_02.png";
          EvOpen "/data" "training/semantic_rgb/2011_09_26_drive_0002_sync_image_0000000005_image_02.png";
          EvOpen "/data" "training/image_2/2011_09_26_drive_0002_sync_image_0000000008_image_02.png";
          EvOpen "/data" "training/semantic_rgb/2011_09_26_drive_0002_sync_image_0000000008_image_02.png";
          EvGlob "/data" "testing/image_2/*.png";
          EvOpen "/data" "testing/image_2/2011_09_26_drive_0002_sync_image_0000000005_image_02.png";
          EvOpen "/data" "testing/image_2/2011_09_26_drive_0002_sync_image_0000000008_image_02.png"].
Proof.
  assert (exists r w', Small.semantics_run true (Some 0%Z) = (Ok r, w')) as (r & w' & E)
    by (eexists; eexists; vm_compute; reflexivity).
  exists r, w'. split; [exact E |].
  destruct (@semantics_loader_trace (Toy.listing Small.two_names) Toy.transforms Toy.rng
              _ _ _ _ _ _ _ E) as (root & Hdir & Htrace).
  assert (root = "/data") as -> by (destruct Hdir as [[=] | [= <-]]; reflexivity).
  exact Htrace.
Defined.

Lemma depth_loader_trace_example :
  (exists r w',
     Small.depth_run true (Some 0%Z) true = (Ok r, w')
     /\ w_trace w'
        = [EvGlob "/data" "val_selection_cropped/image/*.png";
           EvOpen "/data" "val_selection_cropped/image/2011_09_26_drive_0002_sync_image_0000000005_image_02.png";
           EvOpen "/data" "val_selection_cropped/velodyne_raw/2011_09_26_drive_0002_sync_velodyne_raw_0000000005_image_02.png";
           EvOpen "/data" "val_selection_cropped/groundtruth_depth/2011_09_26_drive_0002_sync_groundtruth_depth_0000000005_image_02.png";
           EvOpen "/data" "val_selection_cropped/image/2011_09_26_drive_0002_sync_image_0000000008_image_02.png";
           EvOpen "/data" "val_selection_cropped/velodyne_raw/2011_09_26_drive_0002_sync_velodyne_raw_0000000008_image_02.png";
           EvOpen "/data" "val_selection_cropped/groundtruth_depth/2011_09_26_drive_0002_sync_groundtruth_depth_0000000008_image_02.png"])
  /\ (exists r w',
     Small.depth_run true (Some 0%Z) false = (Ok r, w')
     /\ w_trace w'
        = [EvGlob "/data" "test_depth_completion_anonymous/image/*.png";
           EvOpen "/data" "test_depth_completion_anonymous/image/2011_09_26_drive_0002_sync_image_0000000005_image_02.png";
           EvOpen "/data" "test_depth_completion_anonymous/velodyne_raw/2011_09_26_drive_0002_sync_image_0000000005_image_02.png";
           EvOpen "/data" "test_depth_completion_anonymous/image/2011_09_26_drive_0002_sync_image_0000000008_image_02.png";
           EvOpen "/data" "test_depth_completion_anonymous/velodyne_raw/2011_09_26_drive_0002_sync_image_0000000008_image_02.png"]).
Proof.
  split.
  - assert (exists r w', Small.depth_run true (Some 0%Z) true = (Ok r, w')) as (r & w' & E)
      by (eexists; eexists; vm_compute; reflexivity).
    exists r, w'. split; [exact E |].
    destruct (@depth_loader_trace (Toy.listing Small.two_names) Toy.transforms Toy.rng
                (PyStr "/data") (1 # 2) true (Some 0%Z) Toy.world0 r w') as [Htrain _].
    destruct (Htrain E) as (root & Hdir & _ & Htrace).
    assert (root = "/data") as -> by (destruct Hdir as [[=] | [= <-]]; reflexivity).
    exact Htrace.
  - assert (exists r w', Small.depth_run true (Some 0%Z) false = (Ok r, w')) as (r & w' & E)
      by (eexists; eexists; vm_compute; reflexivity).
    exists r, w'. split; [exact E |].
    destruct (@depth_loader_trace (Toy.listing Small.two_names) Toy.transforms Toy.rng
                (PyStr "/data") (1 # 2) true (Some 0%Z) Toy.world0 r w') as [_ Htest].
    destruct (Htest E) as (root & Hdir & Htrace).
    assert (root = "/data") as -> by (destruct Hdir as [[=] | [= <-]]; reflexivity).
    exact Htrace.
Defined.

Lemma main_prints_example :
  exists w',
    @main (Toy.listing Toy.ten_names) Toy.transforms Toy.rng Toy.world0
    = (Ok [8; 2; 10]%nat, w').
Proof.
  assert (exists printed w',
            @main (Toy.listing Toy.ten_names) Toy.transforms Toy.rng Toy.world0
            = (Ok printed, w')) as (printed & w' & E)
    by (eexists; eexists; vm_compute; reflexivity).
  exists w'.
  destruct (@main_prints (Toy.listing Toy.ten_names) Toy.transforms Toy.rng
              Toy.world0 printed w' E) as (n & t & Hn & Ht & Hp & _).
  change (n = 10%nat) in Hn. change (t = 10%nat) in Ht. subst n t.
  rewrite E, Hp. reflexivity.
Defined.

Lemma loaded_items_are_shown_example :
  exists tr va te w' x y,
    Small.semantics_run true (Some 0%Z) = (Ok (tr, va, te), w')
    /\ semantics_getitem va 0 = Ok (x, y)
    /\ exists rest,
         snd (@show_image ToyPlot.pyplot (ArgTensor x) true)
         = PltImshow (mkPlot [1; 2; 3]%nat (FloatCells (transpose_120 3 1 2 (t_data x))))
           :: rest.
Proof.
  assert (exists tr va te w' x y,
            Small.semantics_run true (Some 0%Z) = (Ok (tr, va, te), w')
            /\ semantics_getitem va 0 = Ok (x, y)
            /\ t_shape x = [3; 1; 2]%nat)
    as (tr & va & te & w' & x & y & E & Eget & Hshape)
    by (do 6 eexists; split; [vm_compute; reflexivity |];
        split; vm_compute; reflexivity).
  exists tr, va, te, w', x, y. split; [exact E |]. split; [exact Eget |].
  pose proof (@loaded_items_are_shown (Toy.listing Small.two_names) Toy.transforms Toy.rng
                ToyPlot.pyplot _ _ _ _ _ tr va te va w' 0%Z x y true E
                ltac:(right; left; reflexivity) Eget) as Hshown.
  apply Forall_cons_1 in Hshown as [(h & w & rest & Hs & Hrest) _].
  rewrite Hshape in Hs. injection Hs as <- <-.
  exists rest. exact Hrest.
Defined.


(** ** When the loops of the depth loader return *)


Section DepthReturns.
Context `{FileSystem} `{Transforms} `{Rng}.




End DepthReturns.

